(** * libplacebo video output (modules/video_output/libplacebo/display.c)

    A shallow embedding of the display module: the GPU session entry
    points ([Open], [Close], [PictureRender], [PictureDisplay],
    [Control]), the two resource loaders ([LoadCustomLUT],
    [LoadUserShader]) and the per-frame compositor.

    Calls into libplacebo, libc and the VLC core are effects.  Each
    function of the module is a pure function from the state it reads
    ([vout_display_sys_t]) and the answers of the outside world (a record
    of oracles) to the state it leaves and the list of calls it made, in
    program order.  Line numbers are those of display.c.

    The file is embedded as it compiles against a libplacebo with
    162 <= PL_API_VER < 185: the code under [#if PL_API_VER >= 80], [>= 101],
    [>= 113], [>= 159] and [>= 162] is part of the program (the custom LUT,
    the source orientation), the code under [#if PL_API_VER >= 185] (the
    [dovi_metadata] field of lines 88-90 and the call of
    [vlc_placebo_DoviMetadata] of lines 246-248) is not. *)

From Stdlib Require Import ZArith List Bool Lia QArith.
From stdpp Require Import base list strings.
Import ListNotations.

#[local] Open Scope Z_scope.

(** ** C integers *)

Module CInt.

(** [int] and [unsigned] are 32 bits wide. *)
Definition width : Z := 32.
Definition modulus : Z := 2 ^ width.
Definition int_min : Z := - 2 ^ (width - 1).
Definition int_max : Z := 2 ^ (width - 1) - 1.

(** Value of an integer once stored in an [unsigned]. *)
Definition to_uint (z : Z) : Z := z mod modulus.

(** Value of an integer once stored in an [int] (two's complement). *)
Definition to_int (z : Z) : Z :=
  (z + 2 ^ (width - 1)) mod modulus - 2 ^ (width - 1).

Definition in_int (z : Z) : Prop := int_min <= z <= int_max.
Definition in_uint (z : Z) : Prop := 0 <= z < modulus.

(** [int / int]: truncation toward zero. *)
Definition div (a b : Z) : Z := Z.quot a b.

End CInt.

(** ** Single-precision floats that hold integers

    The module computes with [float] in two places only, and both times
    the values are integers converted from [int].  Such a float is
    represented by the integer it holds; conversion and multiplication
    round to the nearest value with a 24-bit significand, ties to even. *)

Module F32.

Definition ulp (z : Z) : Z := 2 ^ Z.max 0 (Z.log2 (Z.abs z) - 23).

Definition round (z : Z) : Z :=
  let u := ulp z in
  let q := Z.abs z / u in
  let r := Z.abs z mod u in
  let q' := if 2 * r <? u then q
            else if 2 * r =? u then (if Z.even q then q else q + 1)
            else q + 1 in
  Z.sgn z * (q' * u).

Definition of_int (z : Z) : Z := round z.
Definition mul (a b : Z) : Z := round (a * b).
(** Conversion back to [int]; the value is already an integer. *)
Definition to_int (x : Z) : Z := x.

End F32.

(** ** Colour representation (libplacebo's [pl_bit_encoding]) *)

Record pl_bit_encoding := mk_bits {
  sample_depth : Z;
  color_depth : Z;
  bit_shift : Z;
}.

(** Lines 343-349 of [PictureRender]:
<<
    if (sys->dither_depth > 0) {
        struct pl_bit_encoding *bits = &target.repr.bits;
        float scale = bits->color_depth / bits->sample_depth;
        bits->sample_depth = sys->dither_depth;
        bits->color_depth = scale * sys->dither_depth;
    }
>>
    Both depths are [int], so the quotient is an integer division whose
    result is then converted to [float].  A sample depth of 0 (division by
    zero) and a product beyond the range of [int] are undefined in C; there
    the model gives the quotient 0 and the integer itself, and no theorem
    states the colour depth it computes on such an input. *)
Definition override_dither_depth (dither_depth : Z) (bits : pl_bit_encoding)
  : pl_bit_encoding :=
  if 0 <? dither_depth then
    let scale := F32.of_int (CInt.div (color_depth bits) (sample_depth bits)) in
    {| sample_depth := dither_depth;
       color_depth := F32.to_int (F32.mul scale (F32.of_int dither_depth));
       bit_shift := bit_shift bits |}
  else bits.

(** ** Handles and geometry *)

(** GPU and libc objects are known to the module by their address only. *)
Definition pl_tex := Z.
Definition pl_renderer := Z.
Definition pl_custom_lut := Z.
Definition pl_hook := Z.
Definition FILE := Z.
Definition buffer := Z.

(** [struct pl_rect2d] (integer corners) and, with corners that hold
    floats, [struct pl_rect2df]. *)
Record pl_rect2d := mk_rect { x0 : Z; y0 : Z; x1 : Z; y1 : Z }.

(** Modelled from the spec: libplacebo's [pl_rect2d_normalize], which the
    module calls and does not define; "normalized (min/max corrected)". *)
Definition pl_rect2d_normalize (rc : pl_rect2d) : pl_rect2d :=
  {| x0 := Z.min (x0 rc) (x1 rc); y0 := Z.min (y0 rc) (y1 rc);
     x1 := Z.max (x0 rc) (x1 rc); y1 := Z.max (y0 rc) (y1 rc) |}.

(** Modelled from the spec: libplacebo's [pl_rect2d_eq], "exactly equal":
    the four corners agree. *)
Definition pl_rect2d_eq (a b : pl_rect2d) : bool :=
  (x0 a =? x0 b) && (y0 a =? y0 b) && (x1 a =? x1 b) && (y1 a =? y1 b).

(** [vout_display_place_t]: [int x, y; unsigned width, height]. *)
Record vout_display_place_t := mk_place {
  place_x : Z; place_y : Z; place_width : Z; place_height : Z;
}.

Inductive vlc_video_align_t :=
  VLC_VIDEO_ALIGN_CENTER | VLC_VIDEO_ALIGN_TOP | VLC_VIDEO_ALIGN_BOTTOM.

(** The part of [vout_display_cfg_t] the module reads or overrides. *)
Record vout_display_cfg_t := mk_cfg {
  window : bool;                 (* cfg->window != NULL *)
  display_width : Z;
  display_height : Z;
  align_vertical : vlc_video_align_t;
}.

Inductive video_orientation_t :=
  | ORIENT_NORMAL | ORIENT_HFLIPPED | ORIENT_VFLIPPED
  | ORIENT_ROTATED_90 | ORIENT_ROTATED_180 | ORIENT_ROTATED_270
  | ORIENT_TRANSPOSED | ORIENT_ANTI_TRANSPOSED.

Inductive pl_rotation :=
  PL_ROTATION_0 | PL_ROTATION_90 | PL_ROTATION_180 | PL_ROTATION_270.

(** [video_format_t]: offsets and visible sizes are [unsigned]. *)
Record video_format_t := mk_fmt {
  i_chroma : Z;
  i_x_offset : Z;
  i_y_offset : Z;
  i_visible_width : Z;
  i_visible_height : Z;
  orientation : video_orientation_t;
}.

(** [picture_t]: the pixel data is identified by [p_pixels]. *)
Record picture_t := mk_pic {
  p_pixels : Z;
  i_planes : nat;
  format : video_format_t;
}.

(** [subpicture_region_t]; the [p_next] chain is the tail of a list. *)
Record subpicture_region_t := mk_region {
  fmt : video_format_t;
  p_picture : picture_t;
  i_x : Z;
  i_y : Z;
}.

(** [subpicture_t *]: [None] is the null pointer, [Some l] a subpicture
    whose [p_region] chain is [l]. *)
Definition subpicture_t := option (list subpicture_region_t).

Record vout_display_t := mk_vd {
  vd_cfg : vout_display_cfg_t;
  vd_fmt : video_format_t;
}.

(** ** Colour description *)

Record pl_color_space := mk_color {
  primaries : Z;      (* 0 is PL_COLOR_PRIM_UNKNOWN *)
  transfer : Z;       (* 0 is PL_COLOR_TRC_UNKNOWN *)
  light : Z;          (* 0 is PL_COLOR_LIGHT_UNKNOWN *)
  sig_avg : Q;
}.

Definition PL_COLOR_LIGHT_UNKNOWN : Z := 0.

(** ** What is handed to the renderer *)

Inductive pl_overlay_mode := PL_OVERLAY_NORMAL.

(** [struct pl_plane]: the texture, and the chroma location whose offset
    was applied to [shift_x] and [shift_y], if any. *)
Record pl_plane := mk_plane {
  texture : option pl_tex;
  shift : option Z;
}.

(** [struct pl_overlay]; [color] and [repr] are functions of the format
    they were derived from, kept here as that format. *)
Record pl_overlay := mk_overlay {
  ov_plane : pl_plane;
  rect : pl_rect2d;
  mode : pl_overlay_mode;
  ov_color_repr_of : video_format_t;
}.

Inductive pl_lut_type := PL_LUT_UNKNOWN | PL_LUT_NATIVE | PL_LUT_NORMALIZED | PL_LUT_CONVERSION.

(** [struct pl_image] / [pl_frame] describing the source. *)
Record pl_image := mk_image {
  num_planes : nat;
  planes : list pl_plane;
  img_color_repr_of : video_format_t;
  src_rect : pl_rect2d;          (* float corners *)
  rotation : pl_rotation;
  img_lut_type : pl_lut_type;
  img_lut : option pl_custom_lut;
}.

(** [struct pl_render_target] / [pl_frame] describing the destination.
    [overlays] with [num_overlays] is kept as the list of descriptors the
    pair designates. *)
Record pl_render_target := mk_target {
  dst_rect : pl_rect2d;          (* float corners *)
  color : pl_color_space;
  bits : pl_bit_encoding;
  tgt_overlays : list pl_overlay;
  tgt_lut_type : pl_lut_type;
  tgt_lut : option pl_custom_lut;
}.

(** [struct pl_swapchain_frame]. *)
Record pl_swapchain_frame := mk_frame {
  flipped : bool;
  fbo_w : Z;
  fbo_h : Z;
  frame_color : pl_color_space;
  frame_bits : pl_bit_encoding;
}.

(** Clear colours are [float[4]] literals whose components are 0.0 or 1.0. *)
Record rgba := mk_rgba { red : Z; green : Z; blue : Z; alpha : Z }.

Definition transparent_black : rgba := mk_rgba 0 0 0 0.
Definition opaque_red : rgba := mk_rgba 1 0 0 1.

(** ** Calls made by the module *)

Inductive upload_slot := PlaneSlot (i : nat) | OverlaySlot (i : nat).

Inductive event :=
  (* instance.h *)
  | vlc_placebo_Create (ok : bool)
  | vlc_placebo_MakeCurrent (ok : bool)
  | vlc_placebo_ReleaseCurrent
  | vlc_placebo_Release
  (* libplacebo *)
  | pl_renderer_create (r : option pl_renderer)
  | pl_renderer_destroy (r : option pl_renderer)
  | pl_tex_destroy (t : option pl_tex)
  | pl_swapchain_start_frame (ok : bool)
  | pl_upload_plane (slot : upload_slot) (tex_in : option pl_tex)
      (data : picture_t) (plane : nat) (ok : bool)
  | pl_chroma_location_offset (plane : nat)
  | pl_tex_clear (c : rgba)
  | pl_render_image (img : pl_image) (target : pl_render_target) (ok : bool)
  | pl_swapchain_submit_frame (ok : bool)
  | pl_swapchain_swap_buffers
  | pl_swapchain_resize (w h : Z)
  | pl_lut_free (l : option pl_custom_lut)
  | pl_lut_parse_cube (buf : buffer) (len : Z) (l : option pl_custom_lut)
  | pl_mpv_user_shader_destroy (h : option pl_hook)
  | pl_mpv_user_shader_parse (buf : buffer) (len : Z) (h : option pl_hook)
  (* libc and the VLC core *)
  | vlc_fopen (path : string) (fs : option FILE)
  | fseek (fs : option FILE) (ret : Z)
  | ftell (fs : option FILE) (ret : Z)
  | rewind (fs : option FILE)
  | vlc_alloc (len : Z) (buf : option buffer)
  | fread (buf : buffer) (len : Z) (fs : option FILE) (ret : Z)
  | fclose (fs : option FILE)
  | free_buffer (buf : option buffer)
  | free_string (s : option string)
  | strdup (s : string) (copy : option string)
  | realloc_overlays (n : nat) (ok : bool)
  | realloc_overlay_tex (n : nat) (ok : bool)
  | free_overlays
  | free_overlay_tex
  | msg_Err (msg : string)
  | msg_Warn (msg : string).

Definition trace := list event.

(** ** Module state *)

Inductive lut_mode_t :=
  | LUT_DISABLED | LUT_DECODING | LUT_ENCODING
  | LUT_NATIVE | LUT_LINEAR | LUT_CONVERSION.

(** [vout_display_sys_t].  The render parameter blocks, which no function
    below reads, are left out. *)
Record vout_display_sys_t := mk_sys {
  plane_tex : list (option pl_tex);            (* [4] *)
  renderer : option pl_renderer;
  overlays : option (list pl_overlay);
  overlay_tex : option (list (option pl_tex));
  num_overlays : nat;
  target : pl_color_space;
  yuv_chroma_loc : Z;                          (* 0 is PL_CHROMA_UNKNOWN *)
  dither_depth : Z;
  lut : option pl_custom_lut;
  lut_path : option string;
  lut_mode : lut_mode_t;
  hook : option pl_hook;
  hook_path : option string;
}.

Definition PL_CHROMA_UNKNOWN : Z := 0.

Definition set_plane_tex v (s : vout_display_sys_t) :=
  mk_sys v (renderer s) (overlays s) (overlay_tex s) (num_overlays s) (target s)
    (yuv_chroma_loc s) (dither_depth s) (lut s) (lut_path s) (lut_mode s)
    (hook s) (hook_path s).
Definition set_renderer v (s : vout_display_sys_t) :=
  mk_sys (plane_tex s) v (overlays s) (overlay_tex s) (num_overlays s) (target s)
    (yuv_chroma_loc s) (dither_depth s) (lut s) (lut_path s) (lut_mode s)
    (hook s) (hook_path s).
Definition set_overlay_store ovs texs n (s : vout_display_sys_t) :=
  mk_sys (plane_tex s) (renderer s) ovs texs n (target s)
    (yuv_chroma_loc s) (dither_depth s) (lut s) (lut_path s) (lut_mode s)
    (hook s) (hook_path s).
Definition set_lut v (s : vout_display_sys_t) :=
  mk_sys (plane_tex s) (renderer s) (overlays s) (overlay_tex s) (num_overlays s)
    (target s) (yuv_chroma_loc s) (dither_depth s) v (lut_path s) (lut_mode s)
    (hook s) (hook_path s).
Definition set_lut_path v (s : vout_display_sys_t) :=
  mk_sys (plane_tex s) (renderer s) (overlays s) (overlay_tex s) (num_overlays s)
    (target s) (yuv_chroma_loc s) (dither_depth s) (lut s) v (lut_mode s)
    (hook s) (hook_path s).
Definition set_hook v (s : vout_display_sys_t) :=
  mk_sys (plane_tex s) (renderer s) (overlays s) (overlay_tex s) (num_overlays s)
    (target s) (yuv_chroma_loc s) (dither_depth s) (lut s) (lut_path s) (lut_mode s)
    v (hook_path s).
Definition set_hook_path v (s : vout_display_sys_t) :=
  mk_sys (plane_tex s) (renderer s) (overlays s) (overlay_tex s) (num_overlays s)
    (target s) (yuv_chroma_loc s) (dither_depth s) (lut s) (lut_path s) (lut_mode s)
    (hook s) v.

(** The state [vlc_obj_calloc] hands to [Open]: all bits zero. *)
Definition sys_zero : vout_display_sys_t :=
  mk_sys [None; None; None; None] None None None 0
    (mk_color 0 0 0 0%Q) PL_CHROMA_UNKNOWN 0 None None LUT_DISABLED None None.

(** ** The outside world

    What libc, libplacebo and the VLC core answer when called.  A field
    that is a function answers by the arguments of the call; within one
    run of a function of the module no call is repeated with the same
    arguments, apart from the two [realloc]s, which have a field each. *)

Record libc := mk_libc {
  strdup_ok : string -> bool;
  vlc_fopen_ans : string -> option FILE;
  fseek_ans : option FILE -> Z;
  ftell_ans : option FILE -> Z;
  vlc_alloc_ans : Z -> option buffer;
  fread_ans : buffer -> Z -> option FILE -> Z;
  pl_lut_parse_cube_ans : buffer -> Z -> option pl_custom_lut;
  pl_mpv_user_shader_parse_ans : buffer -> Z -> option pl_hook;
}.

Record gpu := mk_gpu {
  vlc_obj_calloc_ok : bool;
  vlc_placebo_Create_ok : bool;
  vlc_placebo_MakeCurrent_ok : bool;
  pl_renderer_create_ans : option pl_renderer;
  pl_swapchain_start_frame_ans : option pl_swapchain_frame;
  pl_upload_plane_ans :
    upload_slot -> option pl_tex -> picture_t -> nat -> bool * option pl_tex;
  realloc_overlays_ok : bool;
  realloc_overlay_tex_ok : bool;
  (* what a grown block holds in its new part *)
  junk_overlay : pl_overlay;
  junk_tex : option pl_tex;
  pl_render_image_ok : pl_image -> pl_render_target -> bool;
  pl_swapchain_submit_frame_ok : bool;
  (* VLC core *)
  vout_display_PlacePicture :
    video_format_t -> vout_display_cfg_t -> vout_display_place_t;
  vlc_placebo_FormatSupported : Z -> bool;
  vlc_fourcc_GetFallback : Z -> list Z;
  vlc_fourcc_IsYUV : Z -> bool;
  vlc_placebo_ChromaLoc : video_format_t -> Z;
}.

(** The configuration variables [UpdateParams] reads into the fields of
    [vout_display_sys_t] kept above. *)
Record config := mk_config {
  pl_dither_depth : Z;
  pl_target_prim : Z;
  pl_target_trc : Z;
  pl_target_avg : Q;
  pl_lut_mode : lut_mode_t;
  pl_lut_file : option string;
  pl_user_shader : option string;
}.

(** ** Resource loaders *)

(** The [return] statement a loader leaves by: the empty-path branch, the
    cache hit, the end of a successful load, or the [error] label. *)
Inductive load_return := ret_cleared | ret_same | ret_loaded | ret_error.

(** [sys->lut_path && strcmp(filepath, sys->lut_path) == 0] *)
Definition same_path (filepath : string) (cached : option string) : bool :=
  match cached with
  | Some q => String.eqb filepath q
  | None => false
  end.

(** The [error] label of both loaders:
<<
    free(lut_file);
    if (fs)
        fclose(fs);
    return;
>> *)
Definition load_error (buf : option buffer) (fs : option FILE) : trace :=
  free_buffer buf :: match fs with Some _ => [fclose fs] | None => [] end.

(** Lines 522-535 and 569-582, the same text in both loaders: from the
    [fseek] to the [fread].  The result is [inl buf] for a jump to
    [error] with the read buffer pointer equal to [buf], and
    [inr (buf, length)] when control reaches the parser.  A null stream
    is passed on to libc as it is. *)
Definition read_file (w : libc) (fs : option FILE)
  : trace * (option buffer + buffer * Z) :=
  let ret := fseek_ans w fs in
  if ret =? -1 then ([fseek fs ret], inl None) else
  let length := ftell_ans w fs in
  if length <? 0 then ([fseek fs ret; ftell fs length], inl None) else
  let buf := vlc_alloc_ans w length in
  match buf with
  | None =>
      ([fseek fs ret; ftell fs length; rewind fs; vlc_alloc length buf], inl None)
  | Some b =>
      let ret' := fread_ans w b length fs in
      ([fseek fs ret; ftell fs length; rewind fs; vlc_alloc length buf;
        fread b length fs ret'],
       if negb (ret' =? 1) then inl buf else inr (b, length))
  end.

(** [LoadCustomLUT], lines 503-549. *)
Definition LoadCustomLUT (w : libc) (sys : vout_display_sys_t)
    (filepath : option string) : vout_display_sys_t * trace * load_return :=
  match filepath with
  | None | Some EmptyString =>
      (set_lut None sys, [pl_lut_free (lut sys)], ret_cleared)
  | Some p =>
      if same_path p (lut_path sys) then (sys, [], ret_same) else
      let copy := if strdup_ok w p then Some p else None in
      let sys1 := set_lut_path copy sys in
      let fs := vlc_fopen_ans w p in
      let t0 := [free_string (lut_path sys); strdup p copy; vlc_fopen p fs] in
      match fs with
      | None => (sys1, t0 ++ load_error None fs, ret_error)
      | Some _ =>
          match read_file w fs with
          | (t1, inl buf) => (sys1, t0 ++ t1 ++ load_error buf fs, ret_error)
          | (t1, inr (b, length)) =>
              let l := pl_lut_parse_cube_ans w b length in
              let sys2 := set_lut l sys1 in
              let t2 := [pl_lut_parse_cube b length l] in
              match l with
              | None =>
                  (sys2, t0 ++ t1 ++ t2 ++ load_error (Some b) fs, ret_error)
              | Some _ =>
                  (sys2, t0 ++ t1 ++ t2 ++ [fclose fs; free_buffer (Some b)],
                   ret_loaded)
              end
          end
      end
  end.

(** [LoadUserShader], lines 552-596.  The stream returned by [vlc_fopen]
    goes to [fseek] unchecked. *)
Definition LoadUserShader (w : libc) (sys : vout_display_sys_t)
    (filepath : option string) : vout_display_sys_t * trace * load_return :=
  match filepath with
  | None | Some EmptyString =>
      (set_hook None sys, [pl_mpv_user_shader_destroy (hook sys)], ret_cleared)
  | Some p =>
      if same_path p (hook_path sys) then (sys, [], ret_same) else
      let copy := if strdup_ok w p then Some p else None in
      let sys1 := set_hook_path copy sys in
      let fs := vlc_fopen_ans w p in
      let t0 := [free_string (hook_path sys); strdup p copy; vlc_fopen p fs] in
      match read_file w fs with
      | (t1, inl buf) => (sys1, t0 ++ t1 ++ load_error buf fs, ret_error)
      | (t1, inr (b, length)) =>
          let h := pl_mpv_user_shader_parse_ans w b length in
          let sys2 := set_hook h sys1 in
          let t2 := [pl_mpv_user_shader_parse b length h] in
          match h with
          | None =>
              (sys2, t0 ++ t1 ++ t2 ++ load_error (Some b) fs, ret_error)
          | Some _ =>
              (sys2, t0 ++ t1 ++ t2 ++ [fclose fs; free_buffer (Some b)],
               ret_loaded)
          end
      end
  end.


(** The parser was not reached during [t]. *)
Definition parser_not_reached (t : trace) : Prop :=
  forall e, In e t ->
    match e with
    | pl_lut_parse_cube _ _ _ | pl_mpv_user_shader_parse _ _ _ => False
    | _ => True
    end.

(** The part of [UpdateParams] (lines 747-877) that writes the fields kept
    in [vout_display_sys_t]: lines 843-853 and 868-869. *)
Definition UpdateParams (w : libc) (cfg : config) (sys : vout_display_sys_t)
  : vout_display_sys_t * trace :=
  let sys1 :=
    mk_sys (plane_tex sys) (renderer sys) (overlays sys) (overlay_tex sys)
      (num_overlays sys)
      (mk_color (pl_target_prim cfg) (pl_target_trc cfg) 0 (pl_target_avg cfg))
      (yuv_chroma_loc sys) (pl_dither_depth cfg) (lut sys) (lut_path sys)
      (pl_lut_mode cfg) (hook sys) (hook_path sys) in
  let '(sys2, t1, _) := LoadCustomLUT w sys1 (pl_lut_file cfg) in
  let '(sys3, t2, _) := LoadUserShader w sys2 (pl_user_shader cfg) in
  (sys3, t1 ++ [free_string (pl_lut_file cfg)]
            ++ t2 ++ [free_string (pl_user_shader cfg)]).

(** ** GPU session *)

Inductive vlc_ret := VLC_SUCCESS | VLC_EGENERIC | VLC_ENOMEM.

(** [VLC_FOURCC('R','G','B','A')] *)
Definition VLC_CODEC_RGBA : Z := 0x41424752.

(** The [error] label of [Open], lines 180-184; [pl] tells whether
    [sys->pl] is set. *)
Definition Open_error (sys : vout_display_sys_t) (pl : bool) : trace :=
  pl_renderer_destroy (renderer sys) :: if pl then [vlc_placebo_Release] else [].

(** Lines 137-154: the display format. [chroma] is [fmt->i_chroma] on
    entry.  [vlc_placebo_FormatSupported] (lines 138 and 143, handed the
    GPU after the context was released), [vlc_fourcc_GetFallback] and
    [vlc_fourcc_IsYUV] are queries: they give their answer and are not
    recorded among the calls. *)
Definition pick_chroma (g : gpu) (vd : vout_display_t) (chroma : Z) : Z * trace :=
  if vlc_placebo_FormatSupported g (i_chroma (vd_fmt vd))
  then (i_chroma (vd_fmt vd), [])
  else
    let c := match List.find (vlc_placebo_FormatSupported g)
                     (vlc_fourcc_GetFallback g (i_chroma (vd_fmt vd))) with
             | Some fcc => fcc
             | None => chroma
             end in
    if c =? 0
    then (VLC_CODEC_RGBA,
          [msg_Warn "Failed picking any suitable input format, falling back to RGBA for sanity!"])
    else (c, []).

(** [Open], lines 107-185.  The result is the return code, [vd->sys], the
    chroma left in [fmt] and the calls made. *)
Definition Open (g : gpu) (w : libc) (cfg : config) (vd : vout_display_t)
    (fmt_in : video_format_t)
  : vlc_ret * option vout_display_sys_t * video_format_t * trace :=
  if negb (vlc_obj_calloc_ok g) then (VLC_ENOMEM, None, fmt_in, []) else
  let sys := sys_zero in
  if negb (window (vd_cfg vd)) then
    (VLC_EGENERIC, Some sys, fmt_in,
     msg_Err "parent window not available" :: Open_error sys false)
  else
  let t0 := [vlc_placebo_Create (vlc_placebo_Create_ok g)] in
  if negb (vlc_placebo_Create_ok g) then
    (VLC_EGENERIC, Some sys, fmt_in, t0 ++ Open_error sys false)
  else
  let t1 := t0 ++ [vlc_placebo_MakeCurrent (vlc_placebo_MakeCurrent_ok g)] in
  if negb (vlc_placebo_MakeCurrent_ok g) then
    (VLC_EGENERIC, Some sys, fmt_in, t1 ++ Open_error sys true)
  else
  let sys := set_renderer (pl_renderer_create_ans g) sys in
  let t2 := t1 ++ [pl_renderer_create (pl_renderer_create_ans g)] in
  match renderer sys with
  | None => (VLC_EGENERIC, Some sys, fmt_in, t2 ++ Open_error sys true)
  | Some _ =>
      let t3 := t2 ++ [vlc_placebo_ReleaseCurrent] in
      let '(chroma, t4) := pick_chroma g vd (i_chroma fmt_in) in
      let fmt_out :=
        mk_fmt chroma (i_x_offset fmt_in) (i_y_offset fmt_in)
          (i_visible_width fmt_in) (i_visible_height fmt_in)
          (orientation fmt_in) in
      let loc := if vlc_fourcc_IsYUV g chroma
                 then vlc_placebo_ChromaLoc g fmt_out else PL_CHROMA_UNKNOWN in
      let sys :=
        mk_sys (plane_tex sys) (renderer sys) (overlays sys) (overlay_tex sys)
          (num_overlays sys) (target sys) loc (dither_depth sys) (lut sys)
          (lut_path sys) (lut_mode sys) (hook sys) (hook_path sys) in
      let '(sys, t5) := UpdateParams w cfg sys in
      (VLC_SUCCESS, Some sys, fmt_out, t3 ++ t4 ++ t5)
  end.

(** [pl_tex_destroy] on the slots [0 .. n-1] of a texture array; each
    slot is left null. *)
Definition destroy_textures (n : nat) (texs : list (option pl_tex))
  : list (option pl_tex) * trace :=
  (fold_left (fun t i => <[i := None]> t) (seq 0 n) texs,
   map (fun i => pl_tex_destroy (mjoin (texs !! i))) (seq 0 n)).

(** [Close], lines 187-215. *)
Definition Close (g : gpu) (sys : vout_display_sys_t)
  : vout_display_sys_t * trace :=
  let '(sys1, t1) :=
    if vlc_placebo_MakeCurrent_ok g then
      let '(ptex, tp) := destroy_textures 4 (plane_tex sys) in
      let '(otex, to) :=
        match overlay_tex sys with
        | Some texs =>
            let '(texs', to) := destroy_textures (num_overlays sys) texs in
            (Some texs', to)
        | None => (None, map (fun _ => pl_tex_destroy None) (seq 0 (num_overlays sys)))
        end in
      (set_renderer None
         (set_overlay_store (overlays sys) otex (num_overlays sys)
            (set_plane_tex ptex sys)),
       [vlc_placebo_MakeCurrent true] ++ tp ++ to
       ++ [pl_renderer_destroy (renderer sys); vlc_placebo_ReleaseCurrent])
    else (sys, [vlc_placebo_MakeCurrent false]) in
  let t2 := match overlays sys1 with
            | Some _ => [free_overlays; free_overlay_tex]
            | None => []
            end in
  (set_hook None (set_lut None sys1),
   t1 ++ t2 ++ [pl_lut_free (lut sys1); free_string (lut_path sys1);
                pl_mpv_user_shader_destroy (hook sys1);
                free_string (hook_path sys1); vlc_placebo_Release]).

(** [PictureDisplay], lines 446-454. *)
Definition PictureDisplay (g : gpu) : trace :=
  if vlc_placebo_MakeCurrent_ok g
  then [vlc_placebo_MakeCurrent true; pl_swapchain_swap_buffers;
        vlc_placebo_ReleaseCurrent]
  else [vlc_placebo_MakeCurrent false].

Inductive vout_display_query :=
  | VOUT_DISPLAY_CHANGE_DISPLAY_SIZE
  | VOUT_DISPLAY_CHANGE_DISPLAY_FILLED
  | VOUT_DISPLAY_CHANGE_SOURCE_ASPECT
  | VOUT_DISPLAY_CHANGE_SOURCE_CROP
  | VOUT_DISPLAY_CHANGE_ZOOM
  | VOUT_DISPLAY_OTHER (query : Z).

(** [Control], lines 456-500. *)
Definition Control (g : gpu) (vd : vout_display_t) (query : vout_display_query)
  : vlc_ret * trace :=
  match query with
  | VOUT_DISPLAY_CHANGE_DISPLAY_SIZE =>
      let width := CInt.to_int (display_width (vd_cfg vd)) in
      let height := CInt.to_int (display_height (vd_cfg vd)) in
      if negb (vlc_placebo_MakeCurrent_ok g)
      then (VLC_SUCCESS, [vlc_placebo_MakeCurrent false])
      else (VLC_SUCCESS,
            [vlc_placebo_MakeCurrent true; pl_swapchain_resize width height;
             vlc_placebo_ReleaseCurrent])
  | VOUT_DISPLAY_OTHER _ => (VLC_EGENERIC, [msg_Err "Unknown request"])
  | _ => (VLC_SUCCESS, [])
  end.

(** Whether the calling thread holds the GPU context after the calls of
    [t], given whether it held it before. *)
Fixpoint current_after (held : bool) (t : trace) : bool :=
  match t with
  | [] => held
  | vlc_placebo_MakeCurrent true :: t' => current_after true t'
  | vlc_placebo_ReleaseCurrent :: t' => current_after false t'
  | _ :: t' => current_after held t'
  end.

(** The context was acquired at some point of [t]. *)
Definition acquired (t : trace) : bool :=
  existsb (fun e => match e with vlc_placebo_MakeCurrent true => true | _ => false end) t.

(** No call of [t] touches the ownership of the context. *)
Definition no_context_call (t : trace) : Prop :=
  List.Forall (fun e => match e with
                        | vlc_placebo_MakeCurrent _ | vlc_placebo_ReleaseCurrent => False
                        | _ => True
                        end) t.

(** ** Frame compositor *)

(** Arithmetic on [int] and [unsigned] operands.  When one operand is
    [unsigned] the other is converted to [unsigned] first.  An [int]
    result that does not fit is taken modulo 2^32 in two's complement, and
    so is an [unsigned] value stored in an [int]. *)
Definition int_add (a b : Z) : Z := CInt.to_int (a + b).
Definition int_sub (a b : Z) : Z := CInt.to_int (a - b).
Definition int_mul (a b : Z) : Z := CInt.to_int (a * b).
Definition uint_add (a b : Z) : Z :=
  CInt.to_uint (CInt.to_uint a + CInt.to_uint b).
Definition uint_mul (a b : Z) : Z :=
  CInt.to_uint (CInt.to_uint a * CInt.to_uint b).
Definition uint_neg (a : Z) : Z := CInt.to_uint (- CInt.to_uint a).

(** Lines 234-244: the source description before the planes are filled in. *)
Definition source_image (vd : vout_display_t) (pic : picture_t) : pl_image :=
  let f := format pic in
  {| num_planes := i_planes pic;
     planes := [];
     img_color_repr_of := vd_fmt vd;
     src_rect :=
       {| x0 := F32.of_int (i_x_offset f);
          y0 := F32.of_int (i_y_offset f);
          x1 := F32.of_int (uint_add (i_x_offset f) (i_visible_width f));
          y1 := F32.of_int (uint_add (i_y_offset f) (i_visible_height f)) |};
     rotation := PL_ROTATION_0;
     img_lut_type := PL_LUT_UNKNOWN;
     img_lut := None |}.

(** Lines 257-269: the plane loop, at plane [i] with [todo] planes left.
    The result is whether every upload succeeded, the texture array, the
    planes filled in and the calls.  [vlc_placebo_PlaneData] (line 252) is
    taken to succeed, as the assertion there says, and the upload of plane
    [i] is identified by the picture and [i]. *)
Fixpoint upload_planes (g : gpu) (loc : Z) (pic : picture_t) (todo i : nat)
    (texs : list (option pl_tex)) (done : list pl_plane)
  : bool * list (option pl_tex) * list pl_plane * trace :=
  match todo with
  | O => (true, texs, done, [])
  | S todo' =>
      let tex_in := mjoin (texs !! i) in
      let '(ok, tex_out) := pl_upload_plane_ans g (PlaneSlot i) tex_in pic i in
      let texs' := <[i := tex_out]> texs in
      let call := pl_upload_plane (PlaneSlot i) tex_in pic i ok in
      if ok then
        let shifted := negb (loc =? PL_CHROMA_UNKNOWN)
                       && negb (Nat.eqb i 0) && negb (Nat.eqb i 3) in
        let plane := mk_plane tex_out (if shifted then Some loc else None) in
        let '(ok', texs'', done', t) :=
          upload_planes g loc pic todo' (S i) texs' (done ++ [plane]) in
        (ok', texs'', done',
         call :: (if shifted then [pl_chroma_location_offset i] else []) ++ t)
      else
        (false, texs', done, [call; msg_Err "Failed uploading image data!"])
  end.

(** Lines 275-290: the placement, corrected for a flipped swapchain. *)
Definition flip_vertical_align (a : vlc_video_align_t) : vlc_video_align_t :=
  match a with
  | VLC_VIDEO_ALIGN_TOP => VLC_VIDEO_ALIGN_BOTTOM
  | VLC_VIDEO_ALIGN_BOTTOM => VLC_VIDEO_ALIGN_TOP
  | a => a
  end.

Definition frame_cfg (vd : vout_display_t) (frame : pl_swapchain_frame)
  : vout_display_cfg_t :=
  {| window := window (vd_cfg vd);
     display_width := CInt.to_uint (fbo_w frame);
     display_height := CInt.to_uint (fbo_h frame);
     align_vertical :=
       if flipped frame then flip_vertical_align (align_vertical (vd_cfg vd))
       else align_vertical (vd_cfg vd) |}.

Definition frame_place (g : gpu) (vd : vout_display_t)
    (frame : pl_swapchain_frame) : vout_display_place_t :=
  let place := vout_display_PlacePicture g (vd_fmt vd) (frame_cfg vd frame) in
  if flipped frame then
    {| place_x := place_x place;
       place_y := int_sub (fbo_h frame) (place_y place);
       place_width := place_width place;
       place_height := uint_neg (place_height place) |}
  else place.

(** Lines 292-320: the source orientation. *)
Definition swap_x (r : pl_rect2d) : pl_rect2d :=
  {| x0 := x1 r; y0 := y0 r; x1 := x0 r; y1 := y1 r |}.
Definition swap_y (r : pl_rect2d) : pl_rect2d :=
  {| x0 := x0 r; y0 := y1 r; x1 := x1 r; y1 := y0 r |}.

Definition orient (o : video_orientation_t) (img : pl_image) : pl_image :=
  let set rot (crop : pl_rect2d) :=
    mk_image (num_planes img) (planes img) (img_color_repr_of img) crop rot
      (img_lut_type img) (img_lut img) in
  match o with
  | ORIENT_HFLIPPED => set (rotation img) (swap_x (src_rect img))
  | ORIENT_VFLIPPED => set (rotation img) (swap_y (src_rect img))
  | ORIENT_ROTATED_90 => set PL_ROTATION_90 (src_rect img)
  | ORIENT_ROTATED_180 => set PL_ROTATION_180 (src_rect img)
  | ORIENT_ROTATED_270 => set PL_ROTATION_270 (src_rect img)
  | ORIENT_TRANSPOSED => set PL_ROTATION_90 (swap_y (src_rect img))
  | ORIENT_ANTI_TRANSPOSED => set PL_ROTATION_90 (swap_x (src_rect img))
  | ORIENT_NORMAL => img
  end.

(** Lines 334-342: the colorimetry the user asked for. *)
Definition override_color (user c : pl_color_space) : pl_color_space :=
  let c := if primaries user =? 0 then c
           else mk_color (primaries user) (transfer c) (light c) (sig_avg c) in
  let c := if transfer user =? 0 then c
           else mk_color (primaries c) (transfer user) PL_COLOR_LIGHT_UNKNOWN
                  (sig_avg c) in
  if Qle_bool (sig_avg user) 0 then c
  else mk_color (primaries c) (transfer c) (light c) (sig_avg user).

(** Lines 271-272 and 322-349: the target description before overlays. *)
Definition frame_target (sys : vout_display_sys_t) (frame : pl_swapchain_frame)
    (place : vout_display_place_t) : pl_render_target :=
  {| dst_rect :=
       {| x0 := F32.of_int (place_x place);
          y0 := F32.of_int (place_y place);
          x1 := F32.of_int (uint_add (place_x place) (place_width place));
          y1 := F32.of_int (uint_add (place_y place) (place_height place)) |};
     color := override_color (target sys) (frame_color frame);
     bits := override_dither_depth (dither_depth sys) (frame_bits frame);
     tgt_overlays := [];
     tgt_lut_type := PL_LUT_UNKNOWN;
     tgt_lut := None |}.

(** [realloc(p, n * sizeof *p)]: on success the first [n] elements are kept
    and the rest holds whatever the allocator left there; on failure the
    result is null. *)
Definition realloc {A} (ok : bool) (junk : A) (p : option (list A)) (n : nat)
  : option (list A) :=
  if ok then
    let old := default [] p in
    Some (take n old ++ replicate (n - length old) junk)
  else None.

(** Lines 366-368: [for (i = from; i < to; i++) overlay_tex[i] = NULL;] *)
Definition clear_slots (from to : nat) (texs : list (option pl_tex))
  : list (option pl_tex) :=
  fold_left (fun t i => <[i := None]> t) (seq from (to - from)) texs.

(** Lines 356-370: growth of the overlay arrays.  The boolean is [false]
    when the frame jumps to [done] with [failed] set. *)
Definition grow_overlays (g : gpu) (num_regions : nat) (sys : vout_display_sys_t)
  : bool * vout_display_sys_t * trace :=
  if Nat.ltb (num_overlays sys) num_regions then
    let ovs := realloc (realloc_overlays_ok g) (junk_overlay g)
                 (overlays sys) num_regions in
    let texs := realloc (realloc_overlay_tex_ok g) (junk_tex g)
                  (overlay_tex sys) num_regions in
    let t := [realloc_overlays num_regions (realloc_overlays_ok g);
              realloc_overlay_tex num_regions (realloc_overlay_tex_ok g)] in
    match ovs, texs with
    | Some _, Some texs' =>
        (true,
         set_overlay_store ovs
           (Some (clear_slots (num_overlays sys) num_regions texs'))
           num_regions sys,
         t)
    | _, _ => (false, set_overlay_store ovs texs 0 sys, t)
    end
  else (true, sys, []).

(** Lines 382-392: the descriptor of a region. [place.x], [place.y],
    [r->i_x], [r->i_y] and [ysign] are [int]; the visible sizes are
    [unsigned]; the corners of [rect] are [int]. *)
Definition overlay_rect (place : vout_display_place_t) (flip : bool)
    (r : subpicture_region_t) : pl_rect2d :=
  let ysign := if flip then -1 else 1 in
  {| x0 := int_add (place_x place) (i_x r);
     y0 := int_add (place_y place) (int_mul (i_y r) ysign);
     x1 := CInt.to_int (uint_add (int_add (place_x place) (i_x r))
                          (i_visible_width (fmt r)));
     y1 := CInt.to_int
             (uint_add (place_y place)
                (uint_mul (uint_add (i_y r) (i_visible_height (fmt r))) ysign)) |}.

(** Lines 373-399: the region loop, at slot [i] with [todo] iterations
    left.  [r] is the loop's region pointer, which the loop body reads and
    never moves.  The result is the two arrays, the final [num_regions]
    and the calls.  The two assertions of the body (one plane per region
    picture, [vlc_placebo_PlaneData] succeeds) are taken to hold. *)
Fixpoint upload_regions (g : gpu) (place : vout_display_place_t) (flip : bool)
    (r : subpicture_region_t) (todo i : nat)
    (ovs : list pl_overlay) (texs : list (option pl_tex))
  : list pl_overlay * list (option pl_tex) * nat * trace :=
  match todo with
  | O => (ovs, texs, i, [])
  | S todo' =>
      let tex_in := mjoin (texs !! i) in
      let '(ok, tex_out) :=
        pl_upload_plane_ans g (OverlaySlot i) tex_in (p_picture r) 0 in
      let overlay :=
        {| ov_plane := mk_plane (if ok then tex_out else None) None;
           rect := overlay_rect place flip r;
           mode := PL_OVERLAY_NORMAL;
           ov_color_repr_of := fmt r |} in
      let ovs' := <[i := overlay]> ovs in
      let texs' := <[i := tex_out]> texs in
      let call := pl_upload_plane (OverlaySlot i) tex_in (p_picture r) 0 ok in
      if ok then
        let '(ovs'', texs'', n, t) :=
          upload_regions g place flip r todo' (S i) ovs' texs' in
        (ovs'', texs'', n, call :: t)
      else
        (ovs', texs', i, [call; msg_Err "Failed uploading subpicture region!"])
  end.

(** Lines 351-404.  The boolean is [false] when the frame jumps to [done]
    with [failed] set. *)
Definition composite_overlays (g : gpu) (place : vout_display_place_t)
    (flip : bool) (subpicture : subpicture_t) (sys : vout_display_sys_t)
    (target : pl_render_target)
  : bool * vout_display_sys_t * pl_render_target * trace :=
  match subpicture with
  | None => (true, sys, target, [])
  | Some regions =>
      let num_regions := length regions in
      match grow_overlays g num_regions sys with
      | (false, sys1, t1) => (false, sys1, target, t1)
      | (true, sys1, t1) =>
          let '(ovs, texs, n, t2) :=
            match regions with
            | [] => (default [] (overlays sys1), default [] (overlay_tex sys1),
                     num_regions, [])
            | r :: _ =>
                upload_regions g place flip r num_regions 0
                  (default [] (overlays sys1)) (default [] (overlay_tex sys1))
            end in
          let sys2 :=
            set_overlay_store ((fun _ => ovs) <$> overlays sys1)
              ((fun _ => texs) <$> overlay_tex sys1)
              (num_overlays sys1) sys1 in
          (true, sys2,
           mk_target (dst_rect target) (color target) (bits target)
             (take n ovs) (tgt_lut_type target) (tgt_lut target),
           t1 ++ t2)
      end
  end.

(** Lines 406-413: the rectangle compared with the whole surface. *)
Definition full_rect (frame : pl_swapchain_frame) : pl_rect2d :=
  mk_rect 0 0 (fbo_w frame) (fbo_h frame).

Definition norm_rect (place : vout_display_place_t) : pl_rect2d :=
  pl_rect2d_normalize
    (mk_rect (place_x place) (place_y place)
       (CInt.to_int (uint_add (place_x place) (place_width place)))
       (CInt.to_int (uint_add (place_y place) (place_height place)))).

Definition covers_output (frame : pl_swapchain_frame)
    (place : vout_display_place_t) : bool :=
  pl_rect2d_eq (norm_rect place) (full_rect frame).

Definition clear_if_partial (frame : pl_swapchain_frame)
    (place : vout_display_place_t) : trace :=
  if negb (covers_output frame place) then [pl_tex_clear transparent_black]
  else [].

(** Lines 415-426: where the LUT is applied. *)
Definition attach_lut (sys : vout_display_sys_t) (img : pl_image)
    (target : pl_render_target) : pl_image * pl_render_target :=
  match lut_mode sys with
  | LUT_DECODING =>
      (mk_image (num_planes img) (planes img) (img_color_repr_of img)
         (src_rect img) (rotation img) PL_LUT_CONVERSION (lut sys), target)
  | LUT_ENCODING =>
      (img, mk_target (dst_rect target) (color target) (bits target)
              (tgt_overlays target) PL_LUT_CONVERSION (lut sys))
  | _ => (img, target)
  end.

(** The [done] label, lines 435-443. *)
Definition done_label (g : gpu) (failed : bool) : trace :=
  (if failed then [pl_tex_clear opaque_red] else [])
  ++ [pl_swapchain_submit_frame (pl_swapchain_submit_frame_ok g)]
  ++ (if pl_swapchain_submit_frame_ok g then []
      else [msg_Err "Failed rendering frame!"])
  ++ [vlc_placebo_ReleaseCurrent].

(** Lines 234-433: from the acquired swapchain frame to the [done] label.
    The result is the final value of [failed], the state and the calls.
    With PL_API_VER below 185 lines 246-248 ([vlc_placebo_DoviMetadata])
    are not compiled. *)
Definition render_frame (g : gpu) (vd : vout_display_t)
    (sys : vout_display_sys_t) (pic : picture_t) (subpicture : subpicture_t)
    (frame : pl_swapchain_frame) : bool * vout_display_sys_t * trace :=
  let img := source_image vd pic in
  let '(ok, texs, filled, t1) :=
    upload_planes g (yuv_chroma_loc sys) pic (i_planes pic) 0 (plane_tex sys) [] in
  let sys1 := set_plane_tex texs sys in
  if negb ok then (true, sys1, t1) else
  let img :=
    mk_image (num_planes img) filled (img_color_repr_of img) (src_rect img)
      (rotation img) (img_lut_type img) (img_lut img) in
  let place := frame_place g vd frame in
  let img := orient (orientation (vd_fmt vd)) img in
  let target := frame_target sys1 frame place in
  match composite_overlays g place (flipped frame) subpicture sys1 target with
  | (false, sys2, _, t2) => (true, sys2, t1 ++ t2)
  | (true, sys2, target, t2) =>
      let t3 := clear_if_partial frame place in
      let '(img, target) := attach_lut sys2 img target in
      let ok := pl_render_image_ok g img target in
      let t4 := [pl_render_image img target ok] in
      if ok then (false, sys2, t1 ++ t2 ++ t3 ++ t4)
      else (true, sys2, t1 ++ t2 ++ t3 ++ t4 ++ [msg_Err "Failed rendering frame!"])
  end.

(** [PictureRender], lines 217-444.  The result is the state, the calls
    and the final value of the local [failed]. *)
Definition PictureRender (g : gpu) (vd : vout_display_t)
    (sys : vout_display_sys_t) (pic : picture_t) (subpicture : subpicture_t)
  : vout_display_sys_t * trace * bool :=
  if negb (vlc_placebo_MakeCurrent_ok g) then
    (sys, [vlc_placebo_MakeCurrent false], false)
  else
    match pl_swapchain_start_frame_ans g with
    | None =>
        (sys, [vlc_placebo_MakeCurrent true; pl_swapchain_start_frame false;
               vlc_placebo_ReleaseCurrent], false)
    | Some frame =>
        let '(failed, sys', t) := render_frame g vd sys pic subpicture frame in
        (sys',
         [vlc_placebo_MakeCurrent true; pl_swapchain_start_frame true]
         ++ t ++ done_label g failed,
         failed)
    end.

(** ** Reading a trace *)

Definition is_plane_upload_failure (e : event) : bool :=
  match e with pl_upload_plane (PlaneSlot _) _ _ _ false => true | _ => false end.

Definition is_realloc (e : event) : bool :=
  match e with realloc_overlays _ _ | realloc_overlay_tex _ _ => true | _ => false end.

Definition is_realloc_failure (e : event) : bool :=
  match e with
  | realloc_overlays _ false | realloc_overlay_tex _ false => true
  | _ => false
  end.

Definition is_render (e : event) : bool :=
  match e with pl_render_image _ _ _ => true | _ => false end.

Definition is_render_failure (e : event) : bool :=
  match e with pl_render_image _ _ false => true | _ => false end.

Definition is_submit (e : event) : bool :=
  match e with pl_swapchain_submit_frame _ => true | _ => false end.


Definition is_red_clear (e : event) : bool :=
  match e with
  | pl_tex_clear (mk_rgba 1 0 0 1) => true
  | _ => false
  end.

(** [p] holds of some call of [t]. *)
Definition occurs (p : event -> bool) (t : trace) : bool := existsb p t.

(** The source and target of the first [pl_render_image] of [t]. *)
Fixpoint rendered (t : trace) : option (pl_image * pl_render_target) :=
  match t with
  | [] => None
  | pl_render_image img target _ :: _ => Some (img, target)
  | _ :: t' => rendered t'
  end.

(** The descriptor the region loop writes for region [r] once its upload
    has left texture [tex] in the slot. *)
Definition overlay_of (place : vout_display_place_t) (flip : bool)
    (r : subpicture_region_t) (tex : option pl_tex) : pl_overlay :=
  {| ov_plane := mk_plane tex None;
     rect := overlay_rect place flip r;
     mode := PL_OVERLAY_NORMAL;
     ov_color_repr_of := fmt r |}.

(** What a call made by the region loop looks like, when the loop starts
    at slot [i] on the texture array [texs] and stops before slot [hi]:
    an upload of the picture of [r] into a slot of that range, given the
    texture the array held for that slot when the loop started, or an
    error message. *)
Definition region_call (texs : list (option pl_tex)) (r : subpicture_region_t)
    (i hi : nat) (e : event) : Prop :=
  match e with
  | pl_upload_plane (OverlaySlot j) tex_in data 0 _ =>
      (i <= j < hi)%nat /\ tex_in = mjoin (texs !! j) /\ data = p_picture r
  | msg_Err _ => True
  | _ => False
  end.

(** A call of the plane loop: an upload into a plane slot, a chroma
    offset, or an error message. *)
Definition plane_call (e : event) : Prop :=
  match e with
  | pl_upload_plane (PlaneSlot _) _ _ _ _ | pl_chroma_location_offset _
  | msg_Err _ => True
  | _ => False
  end.

Definition is_region_upload_failure (e : event) : bool :=
  match e with pl_upload_plane (OverlaySlot _) _ _ _ false => true | _ => false end.

(** A call of the overlay stage: a reallocation, an upload into an
    overlay slot, or an error message. *)
Definition overlay_call (e : event) : Prop :=
  match e with
  | realloc_overlays _ _ | realloc_overlay_tex _ _
  | pl_upload_plane (OverlaySlot _) _ _ _ _ | msg_Err _ => True
  | _ => False
  end.

(** The two overlay arrays have room for [num_overlays] entries. *)
Definition overlay_store_ok (sys : vout_display_sys_t) : Prop :=
  (num_overlays sys <= length (default [] (overlays sys)))%nat
  /\ (num_overlays sys <= length (default [] (overlay_tex sys)))%nat.

(** The capacity never goes down, as the specification states it: after
    any frame [num_overlays] is at least what it was before. *)
Definition capacity_never_shrinks : Prop :=
  forall g vd sys pic subpicture,
    (num_overlays sys
     <= num_overlays (PictureRender g vd sys pic subpicture).1.1)%nat.

(** The three ways into the Failed state, read off the calls of a frame. *)
Definition failure_occurs (t : trace) : bool :=
  occurs is_plane_upload_failure t || occurs is_realloc_failure t
  || occurs is_render_failure t.

(** A backend that differs from [g] in the answer of
    [pl_swapchain_submit_frame] only. *)
Definition with_submit (ok : bool) (g : gpu) : gpu :=
  mk_gpu (vlc_obj_calloc_ok g) (vlc_placebo_Create_ok g)
    (vlc_placebo_MakeCurrent_ok g) (pl_renderer_create_ans g)
    (pl_swapchain_start_frame_ans g) (pl_upload_plane_ans g)
    (realloc_overlays_ok g) (realloc_overlay_tex_ok g) (junk_overlay g)
    (junk_tex g) (pl_render_image_ok g) ok (vout_display_PlacePicture g)
    (vlc_placebo_FormatSupported g) (vlc_fourcc_GetFallback g)
    (vlc_fourcc_IsYUV g) (vlc_placebo_ChromaLoc g).

(** ** Sample inputs *)

Module Sample.

(** A swapchain frame of 1920x1080, 8 bits per sample. *)
Definition frame (flip : bool) : pl_swapchain_frame :=
  mk_frame flip 1920 1080 (mk_color 1 1 0 0%Q) (mk_bits 8 8 0).

(** The picture placed on the whole display. *)
Definition place_full (_ : video_format_t) (cfg : vout_display_cfg_t)
  : vout_display_place_t :=
  mk_place 0 0 (display_width cfg) (display_height cfg).

(** The picture letterboxed: 140 lines left free above and below. *)
Definition place_letterbox (_ : video_format_t) (cfg : vout_display_cfg_t)
  : vout_display_place_t :=
  mk_place 0 140 (display_width cfg) (display_height cfg - 280).

(** A backend where every call succeeds; uploads reuse the texture of
    the slot or create texture [100 + i] for slot [i]. *)
Definition upload_ok (slot : upload_slot) (tex_in : option pl_tex)
    (_ : picture_t) (_ : nat) : bool * option pl_tex :=
  (true,
   match tex_in, slot with
   | Some t, _ => Some t
   | None, PlaneSlot i => Some (100 + Z.of_nat i)
   | None, OverlaySlot i => Some (200 + Z.of_nat i)
   end).

Definition junk : pl_overlay :=
  mk_overlay (mk_plane (Some 999) None) (mk_rect 9 9 9 9) PL_OVERLAY_NORMAL
    (mk_fmt 0 0 0 0 0 ORIENT_NORMAL).

Definition gpu_ok (flip : bool) : gpu :=
  {| vlc_obj_calloc_ok := true;
     vlc_placebo_Create_ok := true;
     vlc_placebo_MakeCurrent_ok := true;
     pl_renderer_create_ans := Some 1;
     pl_swapchain_start_frame_ans := Some (frame flip);
     pl_upload_plane_ans := upload_ok;
     realloc_overlays_ok := true;
     realloc_overlay_tex_ok := true;
     junk_overlay := junk;
     junk_tex := Some 998;
     pl_render_image_ok := fun _ _ => true;
     pl_swapchain_submit_frame_ok := true;
     vout_display_PlacePicture := place_full;
     vlc_placebo_FormatSupported := fun _ => true;
     vlc_fourcc_GetFallback := fun _ => [];
     vlc_fourcc_IsYUV := fun _ => false;
     vlc_placebo_ChromaLoc := fun _ => 1 |}.

(** Variations of a backend on one answer. *)
Definition with_renderer (r : option pl_renderer) (g : gpu) : gpu :=
  mk_gpu (vlc_obj_calloc_ok g) (vlc_placebo_Create_ok g)
    (vlc_placebo_MakeCurrent_ok g) r (pl_swapchain_start_frame_ans g)
    (pl_upload_plane_ans g) (realloc_overlays_ok g) (realloc_overlay_tex_ok g)
    (junk_overlay g) (junk_tex g) (pl_render_image_ok g)
    (pl_swapchain_submit_frame_ok g) (vout_display_PlacePicture g)
    (vlc_placebo_FormatSupported g) (vlc_fourcc_GetFallback g)
    (vlc_fourcc_IsYUV g) (vlc_placebo_ChromaLoc g).

Definition with_upload
    (u : upload_slot -> option pl_tex -> picture_t -> nat -> bool * option pl_tex)
    (g : gpu) : gpu :=
  mk_gpu (vlc_obj_calloc_ok g) (vlc_placebo_Create_ok g)
    (vlc_placebo_MakeCurrent_ok g) (pl_renderer_create_ans g)
    (pl_swapchain_start_frame_ans g) u (realloc_overlays_ok g)
    (realloc_overlay_tex_ok g) (junk_overlay g) (junk_tex g)
    (pl_render_image_ok g) (pl_swapchain_submit_frame_ok g)
    (vout_display_PlacePicture g) (vlc_placebo_FormatSupported g)
    (vlc_fourcc_GetFallback g) (vlc_fourcc_IsYUV g) (vlc_placebo_ChromaLoc g).

Definition with_realloc (ovs texs : bool) (g : gpu) : gpu :=
  mk_gpu (vlc_obj_calloc_ok g) (vlc_placebo_Create_ok g)
    (vlc_placebo_MakeCurrent_ok g) (pl_renderer_create_ans g)
    (pl_swapchain_start_frame_ans g) (pl_upload_plane_ans g) ovs texs
    (junk_overlay g) (junk_tex g) (pl_render_image_ok g)
    (pl_swapchain_submit_frame_ok g) (vout_display_PlacePicture g)
    (vlc_placebo_FormatSupported g) (vlc_fourcc_GetFallback g)
    (vlc_fourcc_IsYUV g) (vlc_placebo_ChromaLoc g).

Definition with_place
    (p : video_format_t -> vout_display_cfg_t -> vout_display_place_t)
    (g : gpu) : gpu :=
  mk_gpu (vlc_obj_calloc_ok g) (vlc_placebo_Create_ok g)
    (vlc_placebo_MakeCurrent_ok g) (pl_renderer_create_ans g)
    (pl_swapchain_start_frame_ans g) (pl_upload_plane_ans g)
    (realloc_overlays_ok g) (realloc_overlay_tex_ok g) (junk_overlay g)
    (junk_tex g) (pl_render_image_ok g) (pl_swapchain_submit_frame_ok g) p
    (vlc_placebo_FormatSupported g) (vlc_fourcc_GetFallback g)
    (vlc_fourcc_IsYUV g) (vlc_placebo_ChromaLoc g).

(** An upload that fails on plane 1 (the second of three). *)
Definition upload_fails_plane1 (slot : upload_slot) (tex_in : option pl_tex)
    (p : picture_t) (k : nat) : bool * option pl_tex :=
  match slot with
  | PlaneSlot 1 => (false, tex_in)
  | _ => upload_ok slot tex_in p k
  end.

Definition fmt_rgba (w h : Z) : video_format_t :=
  mk_fmt VLC_CODEC_RGBA 0 0 w h ORIENT_NORMAL.

Definition vd : vout_display_t :=
  mk_vd (mk_cfg true 1920 1080 VLC_VIDEO_ALIGN_CENTER) (fmt_rgba 1920 1080).

Definition pic : picture_t := mk_pic 1 1 (fmt_rgba 1920 1080).
Definition pic_yuv : picture_t := mk_pic 2 3 (fmt_rgba 1920 1080).

(** Two subtitle regions with their own pictures, offsets and sizes. *)
Definition region0 : subpicture_region_t :=
  mk_region (fmt_rgba 100 20) (mk_pic 10 1 (fmt_rgba 100 20)) 30 40.
Definition region1 : subpicture_region_t :=
  mk_region (fmt_rgba 300 50) (mk_pic 11 1 (fmt_rgba 300 50)) 500 900.

Definition regions (n : nat) : list subpicture_region_t := replicate n region0.

(** Module state after [Open] with no LUT and no shader configured. *)
Definition sys : vout_display_sys_t :=
  mk_sys [None; None; None; None] (Some 1) None None 0
    (mk_color 0 0 0 0%Q) PL_CHROMA_UNKNOWN 0 None None LUT_DISABLED None None.

(** The same with a LUT and a shader loaded. *)
Definition sys_loaded : vout_display_sys_t :=
  mk_sys [None; None; None; None] (Some 1) None None 0
    (mk_color 0 0 0 0%Q) PL_CHROMA_UNKNOWN 0 (Some 7) (Some "a.cube")
    LUT_NATIVE (Some 8) (Some "a.hook").

(** A file system where no file can be opened; [fseek] on a null stream
    reports an error. *)
Definition libc_no_file : libc :=
  mk_libc (fun _ => true) (fun _ => None) (fun _ => -1) (fun _ => -1)
    (fun _ => None) (fun _ _ _ => 0) (fun _ _ => None) (fun _ _ => None).

(** A file of 16 bytes that reads and parses. *)
Definition libc_ok : libc :=
  mk_libc (fun _ => true) (fun _ => Some 3) (fun _ => 0) (fun _ => 16)
    (fun _ => Some 9) (fun _ _ _ => 1) (fun _ _ => Some 11) (fun _ _ => Some 12).

(** A file that reads and does not parse. *)
Definition libc_bad_syntax : libc :=
  mk_libc (fun _ => true) (fun _ => Some 3) (fun _ => 0) (fun _ => 16)
    (fun _ => Some 9) (fun _ _ _ => 1) (fun _ _ => None) (fun _ _ => None).

Definition config_none : config :=
  mk_config 0 0 0 0%Q LUT_DISABLED None None.

End Sample.

(** ** Further readings of a trace *)

Definition is_fclose (e : event) : bool :=
  match e with fclose _ => true | _ => false end.

Definition is_fopen_ok (e : event) : bool :=
  match e with vlc_fopen _ (Some _) => true | _ => false end.

(** A backend resource is released: [pl_lut_free] or
    [pl_mpv_user_shader_destroy] on a non-null pointer. *)
Definition is_resource_free (e : event) : bool :=
  match e with
  | pl_lut_free (Some _) | pl_mpv_user_shader_destroy (Some _) => true
  | _ => false
  end.

(** A call on a file, a read buffer or a parser. *)
Definition is_file_call (e : event) : bool :=
  match e with
  | vlc_fopen _ _ | fseek _ _ | ftell _ _ | rewind _ | vlc_alloc _ _
  | fread _ _ _ _ | fclose _ | free_buffer _
  | pl_lut_parse_cube _ _ _ | pl_mpv_user_shader_parse _ _ _ => true
  | _ => false
  end.



Definition is_upload (e : event) : bool :=
  match e with pl_upload_plane _ _ _ _ _ => true | _ => false end.

Definition is_clear (e : event) : bool :=
  match e with pl_tex_clear _ => true | _ => false end.

Definition is_msg_Err (e : event) : bool :=
  match e with msg_Err _ => true | _ => false end.

(** How many calls of [t] satisfy [p]. *)
Definition count (p : event -> bool) (t : trace) : nat :=
  length (List.filter p t).

(** A call made between the [fseek] and the [fread] of a loader. *)
Definition stream_call (e : event) : Prop :=
  match e with
  | fseek _ _ | ftell _ _ | rewind _ | vlc_alloc _ _ | fread _ _ _ _ => True
  | _ => False
  end.

(** The fields of the state that hold configuration and loaded
    resources: all but the plane textures and the overlay store. *)
Definition same_configuration (s s' : vout_display_sys_t) : Prop :=
  renderer s' = renderer s /\ target s' = target s
  /\ yuv_chroma_loc s' = yuv_chroma_loc s /\ dither_depth s' = dither_depth s
  /\ lut s' = lut s /\ lut_path s' = lut_path s /\ lut_mode s' = lut_mode s
  /\ hook s' = hook s /\ hook_path s' = hook_path s.

(** A call a loader may make: on a file, a buffer, a path string, a parser
    or the resource it caches. *)
Definition loader_call (e : event) : Prop :=
  match e with
  | vlc_fopen _ _ | fseek _ _ | ftell _ _ | rewind _ | vlc_alloc _ _
  | fread _ _ _ _ | fclose _ | free_buffer _ | free_string _ | strdup _ _
  | pl_lut_parse_cube _ _ _ | pl_mpv_user_shader_parse _ _ _
  | pl_lut_free _ | pl_mpv_user_shader_destroy _ => True
  | _ => False
  end.

(** A call only the plane loop makes. *)
Definition is_plane_loop_call (e : event) : bool :=
  match e with
  | pl_upload_plane (PlaneSlot _) _ _ _ _ | pl_chroma_location_offset _ => true
  | _ => false
  end.

(** The source description of a frame once its planes are filled in and
    its orientation applied (lines 234-320). *)
Definition oriented_image (vd : vout_display_t) (pic : picture_t)
    (filled : list pl_plane) : pl_image :=
  let img := source_image vd pic in
  orient (orientation (vd_fmt vd))
    (mk_image (num_planes img) filled (img_color_repr_of img) (src_rect img)
       (rotation img) (img_lut_type img) (img_lut img)).

(** The five ways through [PictureRender], each with the state, the calls
    and the final [failed] it returns: no context; no swapchain frame; a
    plane upload failed; the overlay arrays could not grow; the frame was
    dispatched. *)
Inductive frame_path (g : gpu) (vd : vout_display_t) (sys : vout_display_sys_t)
    (pic : picture_t) (subpicture : subpicture_t)
  : vout_display_sys_t * trace * bool -> Prop :=
  | path_no_context :
      vlc_placebo_MakeCurrent_ok g = false ->
      frame_path g vd sys pic subpicture
        (sys, [vlc_placebo_MakeCurrent false], false)
  | path_no_frame :
      vlc_placebo_MakeCurrent_ok g = true ->
      pl_swapchain_start_frame_ans g = None ->
      frame_path g vd sys pic subpicture
        (sys, [vlc_placebo_MakeCurrent true; pl_swapchain_start_frame false;
               vlc_placebo_ReleaseCurrent], false)
  | path_plane_failed frame texs filled t1 :
      vlc_placebo_MakeCurrent_ok g = true ->
      pl_swapchain_start_frame_ans g = Some frame ->
      upload_planes g (yuv_chroma_loc sys) pic (i_planes pic) 0 (plane_tex sys) []
      = (false, texs, filled, t1) ->
      frame_path g vd sys pic subpicture
        (set_plane_tex texs sys,
         [vlc_placebo_MakeCurrent true; pl_swapchain_start_frame true]
         ++ t1 ++ done_label g true,
         true)
  | path_alloc_failed frame texs filled t1 sys2 tgt t2 :
      vlc_placebo_MakeCurrent_ok g = true ->
      pl_swapchain_start_frame_ans g = Some frame ->
      upload_planes g (yuv_chroma_loc sys) pic (i_planes pic) 0 (plane_tex sys) []
      = (true, texs, filled, t1) ->
      composite_overlays g (frame_place g vd frame) (flipped frame) subpicture
        (set_plane_tex texs sys)
        (frame_target (set_plane_tex texs sys) frame (frame_place g vd frame))
      = (false, sys2, tgt, t2) ->
      frame_path g vd sys pic subpicture
        (sys2,
         [vlc_placebo_MakeCurrent true; pl_swapchain_start_frame true]
         ++ (t1 ++ t2) ++ done_label g true,
         true)
  | path_dispatched frame texs filled t1 sys2 tgt t2 img tgt' :
      vlc_placebo_MakeCurrent_ok g = true ->
      pl_swapchain_start_frame_ans g = Some frame ->
      upload_planes g (yuv_chroma_loc sys) pic (i_planes pic) 0 (plane_tex sys) []
      = (true, texs, filled, t1) ->
      composite_overlays g (frame_place g vd frame) (flipped frame) subpicture
        (set_plane_tex texs sys)
        (frame_target (set_plane_tex texs sys) frame (frame_place g vd frame))
      = (true, sys2, tgt, t2) ->
      attach_lut sys2 (oriented_image vd pic filled) tgt = (img, tgt') ->
      frame_path g vd sys pic subpicture
        (sys2,
         [vlc_placebo_MakeCurrent true; pl_swapchain_start_frame true]
         ++ (t1 ++ t2 ++ clear_if_partial frame (frame_place g vd frame)
             ++ pl_render_image img tgt' (pl_render_image_ok g img tgt')
                :: (if pl_render_image_ok g img tgt' then []
                    else [msg_Err "Failed rendering frame!"]))
         ++ done_label g (negb (pl_render_image_ok g img tgt')),
         negb (pl_render_image_ok g img tgt')).

Definition is_region_upload_ok (e : event) : bool :=
  match e with pl_upload_plane (OverlaySlot _) _ _ _ true => true | _ => false end.

(** Whether [PictureRender] gets a swapchain frame to draw on (lines
    223-232). *)
Definition frame_acquired (g : gpu) : bool :=
  vlc_placebo_MakeCurrent_ok g
  && match pl_swapchain_start_frame_ans g with Some _ => true | None => false end.

(** ** The context and the calls that need it *)

(** A recorded call that is handed the GPU, the swapchain or the renderer
    of the instance: those of lines 131, 181, 194-197, 229, 259, 394, 412,
    429, 438, 440, 451, 481 and 583.  The format queries of lines 138 and
    143, which [Open] makes on the GPU after it released the context, are
    not recorded (see [pick_chroma]); no callback other than [Open] makes
    them. *)
Definition is_gpu_call (e : event) : bool :=
  match e with
  | pl_renderer_create _ | pl_renderer_destroy _ | pl_tex_destroy _
  | pl_swapchain_start_frame _ | pl_upload_plane _ _ _ _ _ | pl_tex_clear _
  | pl_render_image _ _ _ | pl_swapchain_submit_frame _
  | pl_swapchain_swap_buffers | pl_swapchain_resize _ _
  | pl_mpv_user_shader_parse _ _ _ => true
  | _ => false
  end.

(** Every call of [t] that is handed the GPU, the swapchain or the
    renderer is made while the thread holds the context, given whether it
    held it before [t]. *)
Fixpoint gpu_calls_guarded (held : bool) (t : trace) : bool :=
  match t with
  | [] => true
  | e :: t' =>
      (held || negb (is_gpu_call e))
      && gpu_calls_guarded (current_after held [e]) t'
  end.

(** Calls made while the context is held and that leave it held. *)
Definition held_segment (t : trace) : Prop :=
  gpu_calls_guarded true t = true /\ current_after true t = true.

(** ** The clearing rule of the specification *)


(** An upload into a slot of the overlay texture array. *)
Definition is_overlay_upload (e : event) : bool :=
  match e with pl_upload_plane (OverlaySlot _) _ _ _ _ => true | _ => false end.

(** * Properties *)

Section F32_facts.

Lemma ulp_small (z : Z) : Z.abs z < 2 ^ 24 -> F32.ulp z = 1.
Proof.
  intros Hz. unfold F32.ulp.
  assert (Z.log2 (Z.abs z) < 24) as Hl.
  { destruct (Z.eq_dec (Z.abs z) 0) as [E|E].
    - rewrite E. simpl. lia.
    - apply Z.log2_lt_pow2; lia. }
  rewrite Z.max_l by lia. reflexivity.
Qed.

(** Integers below 2^24 in magnitude are floats already. *)
Lemma round_exact (z : Z) : Z.abs z < 2 ^ 24 -> F32.round z = z.
Proof.
  intros Hz. unfold F32.round. rewrite (ulp_small z Hz).
  rewrite Z.div_1_r, Z.mod_1_r.
  change (2 * 0 <? 1) with true. cbv iota.
  rewrite Z.mul_1_r. lia.
Qed.

End F32_facts.

Section Dither_depth.

(** X11: When the sample depth divides the colour depth the override is the
    exact proportional rescaling. *)
Lemma override_dither_depth_divisible (d k s : Z) :
  0 < s -> 0 <= k < 2 ^ 12 -> 0 < d < 2 ^ 12 ->
  override_dither_depth d (mk_bits s (k * s) 0) = mk_bits d (k * d) 0.
Proof.
  intros Hs Hk Hd. unfold override_dither_depth.
  replace (0 <? d) with true by (symmetry; apply Z.ltb_lt; lia).
  cbn [color_depth sample_depth bit_shift].
  unfold CInt.div. rewrite Z.quot_mul by lia.
  unfold F32.of_int, F32.mul, F32.to_int.
  assert (k * d < 2 ^ 24) by (change (2 ^ 24) with (2 ^ 12 * 2 ^ 12); nia).
  rewrite (round_exact k), (round_exact d), (round_exact (k * d)); try reflexivity.
  all: rewrite Z.abs_eq; lia.
Qed.

(** X12: Whenever the colour depth is below the sample depth the quotient is 0
    and the override leaves colour depth 0, whatever the new depth. *)
Lemma override_dither_depth_below_sample (d c s b : Z) :
  0 <= c < s -> 0 < d ->
  override_dither_depth d (mk_bits s c b) = mk_bits d 0 b.
Proof.
  intros Hc Hd. unfold override_dither_depth.
  replace (0 <? d) with true by (symmetry; apply Z.ltb_lt; lia).
  cbn [color_depth sample_depth bit_shift].
  unfold CInt.div. rewrite Z.quot_small by lia.
  unfold F32.of_int, F32.mul, F32.to_int.
  rewrite (round_exact 0) by (simpl; lia).
  rewrite Z.mul_0_l, (round_exact 0) by (simpl; lia). reflexivity.
Qed.

(** C5: a target whose 10 colour bits are stored in 16-bit samples, with
    the dither depth overridden to 8, is left with colour depth 0: the
    quotient 10/16 is taken on integers.  The proportional value,
    10 * 8 / 16, is 5. *)
Theorem override_dither_depth_truncates :
  override_dither_depth 8 (mk_bits 16 10 0) = mk_bits 8 0 0
  /\ color_depth (override_dither_depth 8 (mk_bits 16 10 0)) * 16 <> 10 * 8.
Proof. split; [reflexivity | vm_compute; discriminate]. Qed.

End Dither_depth.

(** ** GPU session: the context is released before an entry point returns *)

Section Session.

Lemma current_after_app (held : bool) (t1 t2 : trace) :
  current_after held (t1 ++ t2) = current_after (current_after held t1) t2.
Proof.
  revert held. induction t1 as [|e t1 IH]; intros held; [reflexivity|].
  destruct e; try destruct ok; simpl; apply IH.
Qed.

Lemma current_after_release (held : bool) (t : trace) :
  current_after held (t ++ [vlc_placebo_ReleaseCurrent]) = false.
Proof. rewrite current_after_app. reflexivity. Qed.

Lemma done_label_releases (g : gpu) (failed held : bool) :
  current_after held (done_label g failed) = false.
Proof.
  unfold done_label. rewrite !app_assoc. apply current_after_release.
Qed.

(** [PictureRender] leaves the context released on each of its three
    ways out. *)
Lemma PictureRender_releases g vd sys pic subpicture :
  current_after false (PictureRender g vd sys pic subpicture).1.2 = false.
Proof.
  unfold PictureRender.
  destruct (vlc_placebo_MakeCurrent_ok g); simpl; [|reflexivity].
  destruct (pl_swapchain_start_frame_ans g) as [frame|]; [|reflexivity].
  destruct (render_frame g vd sys pic subpicture frame) as [[failed sys'] t].
  simpl. rewrite current_after_app. apply done_label_releases.
Qed.

Lemma PictureDisplay_releases g :
  current_after false (PictureDisplay g) = false.
Proof. unfold PictureDisplay. destruct (vlc_placebo_MakeCurrent_ok g); reflexivity. Qed.

Lemma Control_releases g vd query :
  current_after false (Control g vd query).2 = false.
Proof.
  destruct query; simpl; try reflexivity.
  destruct (vlc_placebo_MakeCurrent_ok g); reflexivity.
Qed.

Lemma current_after_neutral (held : bool) (t : trace) :
  no_context_call t -> current_after held t = held.
Proof.
  induction 1 as [|e t He _ IH]; [reflexivity|].
  destruct e; simpl; try exact IH; contradiction.
Qed.

Lemma no_context_call_app (t1 t2 : trace) :
  no_context_call t1 -> no_context_call t2 -> no_context_call (t1 ++ t2).
Proof. intros H1 H2. apply List.Forall_app. split; assumption. Qed.

Lemma destroy_textures_neutral (held : bool) n texs :
  current_after held (destroy_textures n texs).2 = held.
Proof.
  apply current_after_neutral. unfold destroy_textures. simpl.
  apply List.Forall_forall. intros e He. apply in_map_iff in He.
  destruct He as [i [<- _]]. exact I.
Qed.

Lemma Close_releases g sys :
  current_after false (Close g sys).2 = false.
Proof.
  unfold Close.
  destruct (vlc_placebo_MakeCurrent_ok g).
  - pose proof (destroy_textures_neutral true 4 (plane_tex sys)) as Hp.
    destruct (destroy_textures 4 (plane_tex sys)) as [ptex tp].
    destruct (overlay_tex sys) as [texs|].
    + pose proof (destroy_textures_neutral true (num_overlays sys) texs) as Ho.
      destruct (destroy_textures (num_overlays sys) texs) as [texs' to].
      simpl in *. rewrite !current_after_app, Hp, Ho. simpl.
      destruct (overlays sys); reflexivity.
    + assert (current_after true
                (map (fun _ : nat => pl_tex_destroy None)
                   (seq 0 (num_overlays sys))) = true) as Ho.
      { apply current_after_neutral, List.Forall_forall.
        intros e He. apply in_map_iff in He.
        destruct He as [i [<- _]]. exact I. }
      simpl in *. rewrite !current_after_app, Hp, Ho. simpl.
      destruct (overlays sys); reflexivity.
  - simpl. destruct (overlays sys); reflexivity.
Qed.

Lemma load_error_neutral buf fs : no_context_call (load_error buf fs).
Proof. unfold load_error. destruct fs; repeat constructor. Qed.

Lemma read_file_neutral w fs : no_context_call (read_file w fs).1.
Proof.
  unfold read_file.
  destruct (_ =? -1); [repeat constructor|].
  destruct (_ <? 0); [repeat constructor|].
  destruct (vlc_alloc_ans w _); repeat constructor.
Qed.

Lemma LoadCustomLUT_no_context w sys path (held : bool) :
  current_after held (LoadCustomLUT w sys path).1.2 = held.
Proof.
  apply current_after_neutral. unfold LoadCustomLUT.
  destruct path as [[|a p]|]; try (repeat constructor).
  destruct (same_path _ _); [constructor|].
  destruct (vlc_fopen_ans w _) as [f|] eqn:Hf; [|repeat constructor].
  pose proof (read_file_neutral w (Some f)) as Hr.
  destruct (read_file w (Some f)) as [t1 [buf|[b len]]]; simpl in Hr |- *.
  - repeat constructor. apply no_context_call_app; [exact Hr|].
    apply load_error_neutral.
  - destruct (pl_lut_parse_cube_ans w b len); simpl;
      repeat constructor; apply no_context_call_app; try exact Hr;
      repeat constructor.
Qed.

Lemma LoadUserShader_no_context w sys path (held : bool) :
  current_after held (LoadUserShader w sys path).1.2 = held.
Proof.
  apply current_after_neutral. unfold LoadUserShader.
  destruct path as [[|a p]|]; try (repeat constructor).
  destruct (same_path _ _); [constructor|].
  pose proof (read_file_neutral w (vlc_fopen_ans w (String a p))) as Hr.
  destruct (read_file w _) as [t1 [buf|[b len]]]; simpl in Hr |- *.
  - repeat constructor. apply no_context_call_app; [exact Hr|].
    apply load_error_neutral.
  - destruct (pl_mpv_user_shader_parse_ans w b len); simpl;
      repeat constructor; apply no_context_call_app; try exact Hr;
      (constructor; [exact I|]);
      first [apply load_error_neutral | repeat constructor].
Qed.

Lemma UpdateParams_no_context w cfg sys (held : bool) :
  current_after held (UpdateParams w cfg sys).2 = held.
Proof.
  unfold UpdateParams.
  match goal with |- context [LoadCustomLUT w ?s ?p] =>
    pose proof (LoadCustomLUT_no_context w s p) as H1;
    destruct (LoadCustomLUT w s p) as [[s2 t1] r1] end.
  match goal with |- context [LoadUserShader w ?s ?p] =>
    pose proof (LoadUserShader_no_context w s p) as H2;
    destruct (LoadUserShader w s p) as [[s3 t2] r2] end.
  simpl in *. rewrite current_after_app, H1. simpl.
  rewrite current_after_app, H2. reflexivity.
Qed.

(** [Open] returns with the context released whenever the renderer was
    created, and whenever the context was never acquired. *)
Lemma Open_releases_unless_renderer_fails g w cfg vd fmt_in :
  (vlc_placebo_MakeCurrent_ok g = true -> pl_renderer_create_ans g <> None) ->
  current_after false (Open g w cfg vd fmt_in).2 = false.
Proof.
  intros Hr. unfold Open.
  destruct (vlc_obj_calloc_ok g); simpl; [|reflexivity].
  destruct (window (vd_cfg vd)); simpl; [|reflexivity].
  destruct (vlc_placebo_Create_ok g); simpl; [|reflexivity].
  destruct (vlc_placebo_MakeCurrent_ok g); simpl; [|reflexivity].
  destruct (pl_renderer_create_ans g) as [r|]; [|exfalso; now apply Hr].
  destruct (pick_chroma g vd (i_chroma fmt_in)) as [chroma t4] eqn:Hc.
  match goal with |- context [UpdateParams w cfg ?s] =>
    pose proof (UpdateParams_no_context w cfg s false) as Hu;
    destruct (UpdateParams w cfg s) as [sys' t5] end.
  simpl in *. rewrite current_after_app. 
  assert (current_after false t4 = false) as ->.
  { unfold pick_chroma in Hc.
    destruct (vlc_placebo_FormatSupported g _); [now inversion Hc|].
    destruct (_ =? 0); inversion Hc; reflexivity. }
  exact Hu.
Qed.

(** Whenever [pl_renderer_create] fails after the context was acquired,
    [Open] returns [VLC_EGENERIC] with the context still held. *)
Lemma Open_renderer_failure_holds_context g w cfg vd fmt_in :
  vlc_obj_calloc_ok g = true -> window (vd_cfg vd) = true ->
  vlc_placebo_Create_ok g = true -> vlc_placebo_MakeCurrent_ok g = true ->
  pl_renderer_create_ans g = None ->
  (Open g w cfg vd fmt_in).1.1.1 = VLC_EGENERIC
  /\ current_after false (Open g w cfg vd fmt_in).2 = true.
Proof.
  intros Hc Hw Hp Hm Hr. unfold Open. rewrite Hc, Hw, Hp, Hm, Hr.
  split; reflexivity.
Qed.

(** C1: [Open] on a display with a window, where the backend is created
    and made current and [pl_renderer_create] then fails, returns
    [VLC_EGENERIC] through the [error] label, which destroys the renderer
    and releases the instance; [vlc_placebo_ReleaseCurrent] is not
    called, and the context is still held at the return. *)
Theorem Open_renderer_failure_keeps_context :
  let '(ret, _, _, t) :=
    Open (Sample.with_renderer None (Sample.gpu_ok false)) Sample.libc_ok
      Sample.config_none Sample.vd (Sample.fmt_rgba 1920 1080) in
  ret = VLC_EGENERIC
  /\ t = [vlc_placebo_Create true; vlc_placebo_MakeCurrent true;
          pl_renderer_create None; pl_renderer_destroy None;
          vlc_placebo_Release]
  /\ acquired t = true
  /\ ~ In vlc_placebo_ReleaseCurrent t
  /\ current_after false t = true.
Proof.
  vm_compute. repeat split; try reflexivity.
  intros H. repeat (destruct H as [H|H]; [discriminate H|]). exact H.
Qed.

End Session.

(** ** Resource loaders *)

Section Loaders.

Lemma same_path_true p cached : same_path p cached = true <-> cached = Some p.
Proof.
  unfold same_path. destruct cached as [q|]; [|split; discriminate].
  rewrite String.eqb_eq. split; [intros ->; reflexivity|congruence].
Qed.


Lemma read_file_no_parser w fs : parser_not_reached (read_file w fs).1.
Proof.
  unfold read_file, parser_not_reached.
  destruct (_ =? -1); [|destruct (_ <? 0); [|destruct (vlc_alloc_ans w _)]];
    simpl; intros e He;
    repeat (destruct He as [<-|He]; [exact I|]); destruct He.
Qed.

(** [read_file] hands the stream it was given, and no other, to libc. *)
Lemma read_file_seeks_given w fs fs' ret :
  In (fseek fs' ret) (read_file w fs).1 -> fs' = fs.
Proof.
  unfold read_file.
  destruct (_ =? -1); [|destruct (_ <? 0); [|destruct (vlc_alloc_ans w _)]];
    simpl; intros He;
    repeat (destruct He as [He|He]; [now inversion He|]); destruct He.
Qed.





(** A request for the cached path does nothing, whatever the resource
    slot holds. *)
Lemma LoadCustomLUT_same w sys p :
  p <> EmptyString -> lut_path sys = Some p ->
  LoadCustomLUT w sys (Some p) = (sys, [], ret_same).
Proof.
  intros Hp Hc. unfold LoadCustomLUT. destruct p as [|a p]; [congruence|].
  now rewrite (proj2 (same_path_true _ _) Hc).
Qed.

(** X6: After a load of the empty path, a load of the path that was cached is
    skipped and leaves the slot empty, whatever the file holds. *)
Lemma reload_after_clear_is_skipped w w' sys p :
  p <> EmptyString -> lut_path sys = Some p ->
  let sys1 := (LoadCustomLUT w sys (Some EmptyString)).1.1 in
  LoadCustomLUT w' sys1 (Some p) = (sys1, [], ret_same) /\ lut sys1 = None.
Proof.
  intros Hp Hc sys1. split; [|reflexivity].
  apply (LoadCustomLUT_same w' sys1 p Hp Hc).
Qed.


(** A load that fails in the parser leaves the resource slot empty. *)
Lemma failed_parse_empties_slot :
  LoadCustomLUT Sample.libc_bad_syntax Sample.sys_loaded (Some "b.cube")
  = (set_lut None (set_lut_path (Some "b.cube") Sample.sys_loaded),
     [free_string (Some "a.cube"); strdup "b.cube" (Some "b.cube");
      vlc_fopen "b.cube" (Some 3); fseek (Some 3) 0; ftell (Some 3) 16;
      rewind (Some 3); vlc_alloc 16 (Some 9); fread 9 16 (Some 3) 1;
      pl_lut_parse_cube 9 16 None; free_buffer (Some 9); fclose (Some 3)],
     ret_error).
Proof. reflexivity. Qed.

(** C10: on a non-empty path that is not the cached one, the call that
    follows [vlc_fopen] in the shader loader is [fseek] on the stream
    [vlc_fopen] returned, whatever it is; so when the file cannot be
    opened [fseek] is called on the null stream, and if that call
    answers -1 the loader leaves through [error], where the null test
    skips [fclose].  The LUT loader never calls [fseek] on the null
    stream. *)
Theorem shader_loader_seeks_unchecked_stream w sys p :
  (p <> EmptyString -> same_path p (hook_path sys) = false ->
   let fs := vlc_fopen_ans w p in
   let copy := if strdup_ok w p then Some p else None in
   (exists rest,
       (LoadUserShader w sys (Some p)).1.2
       = [free_string (hook_path sys); strdup p copy; vlc_fopen p fs;
          fseek fs (fseek_ans w fs)] ++ rest)
   /\ (fs = None ->
       In (fseek None (fseek_ans w None)) (LoadUserShader w sys (Some p)).1.2)
   /\ (fs = None -> fseek_ans w None = -1 ->
       LoadUserShader w sys (Some p)
       = (set_hook_path copy sys,
          [free_string (hook_path sys); strdup p copy; vlc_fopen p None;
           fseek None (-1); free_buffer None],
          ret_error)))
  /\ (forall path ret, ~ In (fseek None ret) (LoadCustomLUT w sys path).1.2).
Proof.
  split.
  - intros Hp Hn fs copy.
    assert (exists rest,
               (LoadUserShader w sys (Some p)).1.2
               = [free_string (hook_path sys); strdup p copy; vlc_fopen p fs;
                  fseek fs (fseek_ans w fs)] ++ rest) as Hhead.
    { destruct p as [|a p]; [congruence|].
      unfold LoadUserShader. rewrite Hn. fold fs. fold copy.
      unfold read_file.
      destruct (_ =? -1); [eexists; reflexivity|].
      destruct (_ <? 0); [eexists; reflexivity|].
      destruct (vlc_alloc_ans w _) as [b|]; [|eexists; reflexivity].
      destruct (negb _); [eexists; reflexivity|].
      destruct (pl_mpv_user_shader_parse_ans w b _); eexists; reflexivity. }
    split; [exact Hhead|]. split.
    + intros Hfs. destruct Hhead as [rest ->]. rewrite Hfs.
      right. right. right. left. reflexivity.
    + intros Hfs Hret. destruct p as [|a p]; [congruence|].
      unfold LoadUserShader. rewrite Hn. fold fs. fold copy.
      rewrite Hfs. unfold read_file. rewrite Hret. reflexivity.
  - intros path ret. unfold LoadCustomLUT.
    destruct path as [[|a q]|]; try (simpl; intuition discriminate).
    destruct (same_path _ _); [simpl; tauto|].
    destruct (vlc_fopen_ans w _) as [f|] eqn:Hf;
      [|simpl; intuition discriminate].
    pose proof (read_file_seeks_given w (Some f) None ret) as Hs.
    destruct (read_file w (Some f)) as [t1 [buf|[b len]]]; simpl in Hs.
    + simpl. intros [H|[H|[H|H]]]; try discriminate H.
      apply in_app_iff in H. destruct H as [H|H]; [now apply Hs in H|].
      simpl in H. intuition discriminate.
    + destruct (pl_lut_parse_cube_ans w b len); simpl;
        intros [H|[H|[H|H]]]; try discriminate H;
        (apply in_app_iff in H; destruct H as [H|H]; [now apply Hs in H|]);
        simpl in H; intuition discriminate.
Qed.

Lemma shader_loader_seeks_unchecked_stream_witness :
  In (fseek None (-1))
    (LoadUserShader Sample.libc_no_file Sample.sys_loaded (Some "b.hook")).1.2
  /\ LoadUserShader Sample.libc_no_file Sample.sys_loaded (Some "b.hook")
     = (set_hook_path (Some "b.hook") Sample.sys_loaded,
        [free_string (Some "a.hook"); strdup "b.hook" (Some "b.hook");
         vlc_fopen "b.hook" None; fseek None (-1); free_buffer None],
        ret_error).
Proof.
  destruct (shader_loader_seeks_unchecked_stream
              Sample.libc_no_file Sample.sys_loaded "b.hook") as [H _].
  destruct H as (_ & Hseek & Herr); [discriminate | reflexivity |].
  split; [apply Hseek; reflexivity | apply Herr; reflexivity].
Defined.

End Loaders.

(** ** Integer arithmetic of the overlay geometry *)

Section CInt_facts.

Lemma modulus_pos : 0 < CInt.modulus.
Proof. reflexivity. Qed.

Lemma to_int_id (z : Z) : CInt.in_int z -> CInt.to_int z = z.
Proof.
  unfold CInt.in_int, CInt.int_min, CInt.int_max, CInt.to_int, CInt.modulus,
    CInt.width.
  intros Hz. rewrite Z.mod_small; lia.
Qed.

Lemma to_uint_id (z : Z) : CInt.in_uint z -> CInt.to_uint z = z.
Proof. unfold CInt.in_uint, CInt.to_uint. intros Hz. now apply Z.mod_small. Qed.

(** [to_int] sees its argument modulo 2^32 only. *)
Lemma to_int_congr (a b : Z) :
  a mod CInt.modulus = b mod CInt.modulus -> CInt.to_int a = CInt.to_int b.
Proof.
  intros H. unfold CInt.to_int.
  rewrite <- (Zplus_mod_idemp_l a), H, Zplus_mod_idemp_l. reflexivity.
Qed.

Lemma to_int_to_uint (a : Z) : CInt.to_int (CInt.to_uint a) = CInt.to_int a.
Proof. apply to_int_congr. unfold CInt.to_uint. apply Z.mod_mod. discriminate. Qed.

Lemma uint_add_spec (a b : Z) : uint_add a b = CInt.to_uint (a + b).
Proof. unfold uint_add, CInt.to_uint. symmetry. apply Zplus_mod. Qed.

Lemma uint_mul_spec (a b : Z) : uint_mul a b = CInt.to_uint (a * b).
Proof. unfold uint_mul, CInt.to_uint. symmetry. apply Zmult_mod. Qed.

(** An [int] plus an [unsigned] product, stored in an [int]. *)
Lemma to_int_uint_add_mul (a b c s : Z) :
  CInt.to_int (uint_add a (uint_mul (uint_add b c) s))
  = CInt.to_int (a + (b + c) * s).
Proof.
  rewrite uint_add_spec, to_int_to_uint. apply to_int_congr.
  rewrite uint_mul_spec, uint_add_spec. unfold CInt.to_uint.
  rewrite Zplus_mod_idemp_r.
  rewrite <- Zplus_mod_idemp_r, Zmult_mod_idemp_l, Zplus_mod_idemp_r.
  reflexivity.
Qed.

Lemma to_int_uint_add (a b : Z) :
  CInt.to_int (uint_add a b) = CInt.to_int (a + b).
Proof. rewrite uint_add_spec. apply to_int_to_uint. Qed.

End CInt_facts.

(** ** Overlay descriptors *)

Section Overlay_geometry.

Variable place : vout_display_place_t.
Variable r : subpicture_region_t.

Let y := place_y place.
Let off := i_y r.
Let h := i_visible_height (fmt r).

(** The vertical corners as integers modulo 2^32, for any operands. *)
Lemma overlay_rect_y1 (flip : bool) :
  y1 (overlay_rect place flip r)
  = CInt.to_int (y + (off + h) * (if flip then -1 else 1)).
Proof. unfold overlay_rect. cbn [y1]. apply to_int_uint_add_mul. Qed.

(** The vertical corners of the descriptor built from a region [r].  On a
    flipped surface they are [place.y - i_y] and [place.y - (i_y + height)];
    on an unflipped one [place.y + i_y] and [place.y + (i_y + height)].
    The hypotheses say that these values, and the negated offset, are
    representable in an [int]. *)
Lemma overlay_rect_vertical :
  (CInt.in_int (- off) -> CInt.in_int (y - off) ->
   CInt.in_int (y - (off + h)) ->
   y0 (overlay_rect place true r) = y - off
   /\ y1 (overlay_rect place true r) = y - (off + h))
  /\
  (CInt.in_int off -> CInt.in_int (y + off) ->
   CInt.in_int (y + (off + h)) ->
   y0 (overlay_rect place false r) = y + off
   /\ y1 (overlay_rect place false r) = y + (off + h)).
Proof.
  split; intros Ho H0 H1; (split; [|rewrite overlay_rect_y1]).
  - unfold overlay_rect. cbn [y0]. unfold int_add, int_mul. fold y off.
    replace (off * -1) with (- off) by lia.
    rewrite (to_int_id (- off) Ho).
    replace (y + - off) with (y - off) by lia. now apply to_int_id.
  - replace (y + (off + h) * -1) with (y - (off + h)) by lia.
    now apply to_int_id.
  - unfold overlay_rect. cbn [y0]. unfold int_add, int_mul. fold y off.
    rewrite Z.mul_1_r, (to_int_id off Ho). now apply to_int_id.
  - rewrite Z.mul_1_r. now apply to_int_id.
Qed.

End Overlay_geometry.

(** ** Traces *)

Section Traces.

Lemma occurs_app p (t1 t2 : trace) :
  occurs p (t1 ++ t2) = occurs p t1 || occurs p t2.
Proof. apply existsb_app. Qed.

Lemma occurs_cons p e (t : trace) : occurs p (e :: t) = p e || occurs p t.
Proof. reflexivity. Qed.

Lemma occurs_none (Q : event -> Prop) p (t : trace) :
  (forall e, Q e -> p e = false) -> List.Forall Q t -> occurs p t = false.
Proof.
  intros Hq. induction 1 as [|e t He _ IH]; [reflexivity|].
  rewrite occurs_cons, (Hq e He), IH. reflexivity.
Qed.

Lemma occurs_In p (t : trace) :
  occurs p t = true <-> exists e, In e t /\ p e = true.
Proof. apply existsb_exists. Qed.

End Traces.

(** ** The region loop *)

Section Region_loop.

Variable g : gpu.
Variable place : vout_display_place_t.
Variable flip : bool.
Variable r : subpicture_region_t.

Lemma region_call_weaken texs texs' i i' hi e :
  (i' <= i)%nat ->
  (forall j, (i <= j)%nat -> texs !! j = texs' !! j) ->
  region_call texs r i hi e -> region_call texs' r i' hi e.
Proof.
  intros Hi Ht. destruct e; simpl; try tauto.
  destruct slot as [j|j]; [tauto|]. destruct plane; [|tauto].
  intros (Hj & -> & ->). repeat split; try lia.
  rewrite (Ht j); [reflexivity|lia].
Qed.

(** The loop stops at the first failed upload.  It returns the number of
    regions uploaded so far; the slots below that number hold
    descriptors built from [r]; the arrays keep their length and the
    slots below the start are untouched. *)
Lemma upload_regions_spec todo : forall i ovs texs,
  let '(ovs', texs', n, t) := upload_regions g place flip r todo i ovs texs in
  (i <= n <= i + todo)%nat
  /\ length ovs' = length ovs /\ length texs' = length texs
  /\ (forall j, (j < i)%nat -> ovs' !! j = ovs !! j)
  /\ (forall j, (i <= j < n)%nat -> (j < length ovs)%nat ->
        exists tex, ovs' !! j = Some (overlay_of place flip r tex))
  /\ List.Forall (region_call texs r i (i + todo)) t
  /\ occurs is_region_upload_failure t = negb (Nat.eqb n (i + todo)).
Proof.
  induction todo as [|todo IH]; intros i ovs texs.
  - simpl. rewrite Nat.add_0_r, Nat.eqb_refl.
    repeat split; try lia; try constructor.
  - simpl.
    destruct (pl_upload_plane_ans g (OverlaySlot i) (mjoin (texs !! i))
                (p_picture r) 0) as [ok tex_out] eqn:Hu.
    destruct ok.
    + specialize (IH (S i)
                    (<[i := overlay_of place flip r tex_out]> ovs)
                    (<[i := tex_out]> texs)).
      unfold overlay_of in IH.
      destruct (upload_regions g place flip r todo (S i) _ _)
        as [[[ovs' texs'] n] t].
      destruct IH as (Hn & Hlo & Hlt & Hkeep & Hbuilt & Hcalls & Hfail).
      rewrite length_insert in Hlo. rewrite length_insert in Hlt.
      repeat split; try lia; try assumption.
      * intros j Hj. rewrite Hkeep by lia.
        apply list_lookup_insert_ne. lia.
      * intros j Hj Hlen. destruct (Nat.eq_dec j i) as [->|Hne].
        -- exists tex_out. rewrite Hkeep by lia.
           now apply list_lookup_insert_eq.
        -- apply Hbuilt; [lia|]. now rewrite length_insert.
      * constructor; [simpl; repeat split; lia|].
        replace (i + S todo)%nat with (S i + todo)%nat by lia.
        eapply List.Forall_impl; [|exact Hcalls].
        intros e. apply region_call_weaken; [lia|].
        intros j Hj. apply list_lookup_insert_ne. lia.
      * rewrite occurs_cons, Hfail. simpl.
        replace (i + S todo)%nat with (S i + todo)%nat by lia. reflexivity.
    + repeat split; try lia; try (now rewrite length_insert).
      * intros j Hj. apply list_lookup_insert_ne. lia.
      * repeat constructor; lia.
      * simpl. symmetry. apply negb_true_iff, Nat.eqb_neq. lia.
Qed.

End Region_loop.

(** ** Overlay storage *)

Section Overlay_storage.

Lemma realloc_length {A} (junk : A) p n l :
  realloc true junk p n = Some l -> length l = n.
Proof.
  unfold realloc. intros [= <-].
  rewrite length_app, length_take, length_replicate. lia.
Qed.

Lemma clear_from_lookup_below k : forall a (l : list (option pl_tex)) j,
  (j < a)%nat ->
  fold_left (fun t i => <[i := None]> t) (seq a k) l !! j = l !! j.
Proof.
  induction k as [|k IH]; intros a l j Hj; [reflexivity|].
  simpl. rewrite IH by lia. apply list_lookup_insert_ne. lia.
Qed.

Lemma clear_from_length k : forall a (l : list (option pl_tex)),
  length (fold_left (fun t i => <[i := None]> t) (seq a k) l) = length l.
Proof.
  induction k as [|k IH]; intros a l; [reflexivity|].
  simpl. rewrite IH. apply length_insert.
Qed.

Lemma clear_from_lookup k : forall a (l : list (option pl_tex)) j,
  (a <= j < a + k)%nat -> (j < length l)%nat ->
  fold_left (fun t i => <[i := None]> t) (seq a k) l !! j = Some None.
Proof.
  induction k as [|k IH]; intros a l j Hj Hl; [lia|].
  simpl. destruct (Nat.eq_dec j a) as [->|Hne].
  - rewrite clear_from_lookup_below by lia.
    now apply list_lookup_insert_eq.
  - apply IH; [lia|]. now rewrite length_insert.
Qed.

Lemma clear_slots_length a b l : length (clear_slots a b l) = length l.
Proof. apply clear_from_length. Qed.

(** The slots added by a growth hold null. *)
Lemma clear_slots_lookup a b l j :
  (a <= j < b)%nat -> (j < length l)%nat -> clear_slots a b l !! j = Some None.
Proof. intros Hj Hl. apply clear_from_lookup; [lia|exact Hl]. Qed.

Variable g : gpu.

(** Growth, when both reallocations succeed. *)
Lemma grow_overlays_ok n sys :
  realloc_overlays_ok g = true -> realloc_overlay_tex_ok g = true ->
  let '(ok, sys', t) := grow_overlays g n sys in
  ok = true
  /\ num_overlays sys' = Nat.max (num_overlays sys) n
  /\ ((num_overlays sys < n)%nat ->
      length (default [] (overlays sys')) = n
      /\ length (default [] (overlay_tex sys')) = n
      /\ forall j, (num_overlays sys <= j < n)%nat ->
           default [] (overlay_tex sys') !! j = Some None)
  /\ ((n <= num_overlays sys)%nat -> sys' = sys /\ t = []).
Proof.
  intros Ho Ht. unfold grow_overlays. rewrite Ho, Ht.
  destruct (Nat.ltb_spec (num_overlays sys) n) as [Hlt|Hge].
  - destruct (realloc true (junk_overlay g) (overlays sys) n) as [ovs|] eqn:Eo;
      [|discriminate].
    destruct (realloc true (junk_tex g) (overlay_tex sys) n) as [texs|] eqn:Et;
      [|discriminate].
    apply realloc_length in Eo. apply realloc_length in Et.
    simpl. repeat split; try lia.
    + now rewrite clear_slots_length.
    + intros j Hj. apply clear_slots_lookup; lia.
  - repeat split; try lia.
Qed.

(** Growth reallocates only when the request exceeds the capacity, and
    fails exactly when a reallocation fails, leaving capacity 0. *)
Lemma grow_overlays_calls n sys :
  let '(ok, sys', t) := grow_overlays g n sys in
  (occurs is_realloc t = true -> (num_overlays sys < n)%nat)
  /\ ok = negb (occurs is_realloc_failure t)
  /\ (ok = false -> num_overlays sys' = 0%nat)
  /\ List.Forall (fun e => is_realloc e = true) t.
Proof.
  unfold grow_overlays.
  destruct (Nat.ltb_spec (num_overlays sys) n) as [Hlt|Hge].
  - unfold realloc.
    destruct (realloc_overlays_ok g), (realloc_overlay_tex_ok g); simpl;
      repeat split; try discriminate; auto; repeat constructor.
  - simpl. repeat split; try discriminate; constructor.
Qed.

Lemma grow_overlays_store_ok n sys :
  overlay_store_ok sys -> overlay_store_ok (grow_overlays g n sys).1.2.
Proof.
  intros [Ho Ht]. unfold grow_overlays, overlay_store_ok.
  destruct (Nat.ltb_spec (num_overlays sys) n) as [Hlt|Hge]; [|now split].
  unfold realloc.
  destruct (realloc_overlays_ok g), (realloc_overlay_tex_ok g); simpl;
    try (split; lia).
  rewrite clear_slots_length, !length_app, !length_take, !length_replicate.
  lia.
Qed.

End Overlay_storage.

(** ** Stages of a frame *)

Section Frame_stages.

Variable g : gpu.

(** The plane loop reports failure exactly when an upload failed. *)
Lemma upload_planes_calls loc pic todo : forall i texs filled,
  let '(ok, _, _, t) := upload_planes g loc pic todo i texs filled in
  List.Forall plane_call t /\ occurs is_plane_upload_failure t = negb ok.
Proof.
  induction todo as [|todo IH]; intros i texs filled; [split; [constructor|reflexivity]|].
  simpl.
  destruct (pl_upload_plane_ans g (PlaneSlot i) (mjoin (texs !! i)) pic i)
    as [ok tex_out].
  destruct ok; [|split; [repeat constructor|reflexivity]].
  match goal with |- context [upload_planes g loc pic todo ?a ?b ?c] =>
    specialize (IH a b c); destruct (upload_planes g loc pic todo a b c)
      as [[[ok' texs''] filled'] t] end.
  destruct IH as [Hc Hf]. split.
  - constructor; [exact I|]. apply List.Forall_app. split; [|exact Hc].
    destruct (_ && _); repeat constructor.
  - rewrite occurs_cons, occurs_app, Hf. simpl.
    destruct (_ && _); reflexivity.
Qed.

(** The overlay stage fails exactly when a reallocation failed. *)
Lemma composite_overlays_calls place flip subpicture sys target :
  let '(ok, _, _, t) := composite_overlays g place flip subpicture sys target in
  List.Forall overlay_call t /\ ok = negb (occurs is_realloc_failure t).
Proof.
  unfold composite_overlays. destruct subpicture as [regions|];
    [|split; [constructor|reflexivity]].
  pose proof (grow_overlays_calls g (length regions) sys) as Hg.
  destruct (grow_overlays g (length regions) sys) as [[ok sys1] t1].
  destruct Hg as (_ & Hok & _ & Hre).
  assert (List.Forall overlay_call t1) as Hc1.
  { eapply List.Forall_impl; [|exact Hre].
    intros e. destruct e; simpl; try discriminate; tauto. }
  destruct ok; [|split; [exact Hc1|exact Hok]].
  destruct regions as [|r regions].
  - simpl. rewrite app_nil_r. split; [exact Hc1|exact Hok].
  - pose proof (upload_regions_spec g place flip r (length (r :: regions)) 0
                  (default [] (overlays sys1)) (default [] (overlay_tex sys1)))
      as Hu.
    destruct (upload_regions g place flip r _ 0 _ _) as [[[ovs texs] n] t2].
    destruct Hu as (_ & _ & _ & _ & _ & Hc2 & _).
    assert (List.Forall overlay_call t2) as Hc2'.
    { eapply List.Forall_impl; [|exact Hc2].
      intros e. destruct e; simpl; try tauto.
      destruct slot; tauto. }
    split; [apply List.Forall_app; split; assumption|].
    rewrite occurs_app.
    rewrite (occurs_none (region_call _ r 0 _) is_realloc_failure t2 ltac:(
      intros e; destruct e; simpl; tauto) Hc2).
    rewrite orb_false_r. exact Hok.
Qed.

(** The three ways through [render_frame]: a plane upload fails; the
    overlay arrays cannot grow; or the frame is dispatched, after the
    clear of a partly covered surface. *)
Lemma render_frame_cases vd sys pic subpicture frame :
  let place := frame_place g vd frame in
  let '(ok1, texs, _, t1) :=
    upload_planes g (yuv_chroma_loc sys) pic (i_planes pic) 0 (plane_tex sys) [] in
  let sys1 := set_plane_tex texs sys in
  let '(ok2, sys2, tgt, t2) :=
    composite_overlays g place (flipped frame) subpicture sys1
      (frame_target sys1 frame place) in
  let '(failed, sys', t) := render_frame g vd sys pic subpicture frame in
  (ok1 = false /\ failed = true /\ sys' = sys1 /\ t = t1)
  \/ (ok1 = true /\ ok2 = false /\ failed = true /\ sys' = sys2
      /\ t = t1 ++ t2)
  \/ (ok1 = true /\ ok2 = true /\ sys' = sys2
      /\ exists img tgt' ok3,
          tgt_overlays tgt' = tgt_overlays tgt /\ failed = negb ok3
          /\ t = t1 ++ t2 ++ clear_if_partial frame place
                 ++ pl_render_image img tgt' ok3
                    :: (if ok3 then [] else [msg_Err "Failed rendering frame!"])).
Proof.
  intros place. unfold render_frame. fold place.
  destruct (upload_planes g _ pic _ 0 _ []) as [[[ok1 texs] filled] t1].
  destruct ok1; simpl negb; cbv iota.
  2:{ destruct (composite_overlays g place _ subpicture _ _) as [[[ok2 sys2] tgt] t2].
      left. repeat split; reflexivity. }
  destruct (composite_overlays g place _ subpicture _ _) as [[[ok2 sys2] tgt] t2].
  destruct ok2.
  2:{ right. left. repeat split; reflexivity. }
  match goal with |- context [attach_lut sys2 ?i tgt] =>
    assert (tgt_overlays (attach_lut sys2 i tgt).2 = tgt_overlays tgt) as Hov
      by (unfold attach_lut; destruct (lut_mode sys2); reflexivity);
    destruct (attach_lut sys2 i tgt) as [img tgt'] end.
  simpl in Hov.
  destruct (pl_render_image_ok g img tgt') eqn:Hr; right; right.
  - repeat split. exists img, tgt', true.
    split; [exact Hov|]. split; reflexivity.
  - repeat split. exists img, tgt', false.
    split; [exact Hov|]. split; reflexivity.
Qed.

End Frame_stages.

(** ** A frame from acquisition to submission *)

Section Frame.

Variable g : gpu.
Variable vd : vout_display_t.
Variable sys : vout_display_sys_t.
Variable pic : picture_t.
Variable subpicture : subpicture_t.

(** Settles [Q e -> p e = false] by cases on the call. *)
Ltac by_call :=
  let e := fresh "e" in
  intros e; destruct e; simpl; try tauto;
  repeat match goal with
         | |- context [match ?x with _ => _ end] => destruct x; simpl; try tauto
         end.

Lemma clear_if_partial_occurs frame place p :
  p (pl_tex_clear transparent_black) = false ->
  occurs p (clear_if_partial frame place) = false.
Proof.
  intros Hp. unfold clear_if_partial.
  destruct (negb _); [simpl; now rewrite Hp|reflexivity].
Qed.

(** The local [failed] is set exactly when one of the three failures
    occurred; nothing before the [done] label submits, or clears to
    red. *)
Lemma render_frame_failed frame :
  let '(failed, _, t) := render_frame g vd sys pic subpicture frame in
  failed = failure_occurs t
  /\ occurs is_submit t = false
  /\ occurs is_red_clear t = false.
Proof.
  pose proof (render_frame_cases g vd sys pic subpicture frame) as Hc.
  cbv zeta in Hc.
  pose proof (upload_planes_calls g (yuv_chroma_loc sys) pic (i_planes pic) 0
                (plane_tex sys) []) as Hp.
  destruct (upload_planes g _ pic _ 0 _ []) as [[[ok1 texs] filled] t1].
  destruct Hp as [Hp1 Hp2].
  match type of Hc with context [composite_overlays g ?a ?b ?c ?d ?e] =>
    pose proof (composite_overlays_calls g a b c d e) as Ho;
    destruct (composite_overlays g a b c d e) as [[[ok2 sys2] tgt] t2] end.
  destruct Ho as [Ho1 Ho2].
  destruct (render_frame g vd sys pic subpicture frame) as [[failed sys'] t].
  assert (forall p, (forall e, plane_call e -> p e = false) ->
                    occurs p t1 = false) as P1
    by (intros p Hq; exact (occurs_none plane_call p t1 Hq Hp1)).
  assert (forall p, (forall e, overlay_call e -> p e = false) ->
                    occurs p t2 = false) as P2
    by (intros p Hq; exact (occurs_none overlay_call p t2 Hq Ho1)).
  unfold failure_occurs.
  destruct Hc as [(-> & -> & _ & ->) | [(-> & -> & -> & _ & ->) |
                  (-> & -> & _ & img & tgt' & ok3 & _ & -> & ->)]].
  - rewrite Hp2, (P1 is_submit), (P1 is_red_clear) by by_call.
    repeat split.
  - rewrite !occurs_app, Hp2.
    rewrite (P1 is_submit), (P1 is_red_clear), (P1 is_realloc_failure),
      (P1 is_render_failure) by by_call.
    rewrite (P2 is_submit), (P2 is_red_clear), (P2 is_plane_upload_failure),
      (P2 is_render_failure) by by_call.
    simpl in Ho2. apply (f_equal negb) in Ho2.
    rewrite negb_involutive in Ho2. simpl in Ho2. rewrite <- Ho2.
    repeat split.
  - rewrite !occurs_app, !occurs_cons, Hp2.
    rewrite (P1 is_submit), (P1 is_red_clear), (P1 is_realloc_failure),
      (P1 is_render_failure) by by_call.
    rewrite (P2 is_submit), (P2 is_red_clear), (P2 is_plane_upload_failure),
      (P2 is_render_failure) by by_call.
    rewrite !clear_if_partial_occurs by reflexivity.
    simpl in Ho2. apply (f_equal negb) in Ho2.
    rewrite negb_involutive in Ho2. simpl in Ho2. rewrite <- Ho2.
    destruct ok3; repeat split.
Qed.

Lemma done_label_failure failed : failure_occurs (done_label g failed) = false.
Proof.
  unfold done_label. destruct failed, (pl_swapchain_submit_frame_ok g); reflexivity.
Qed.

Lemma failure_occurs_app t1 t2 :
  failure_occurs (t1 ++ t2) = failure_occurs t1 || failure_occurs t2.
Proof.
  unfold failure_occurs. rewrite !occurs_app.
  destruct (occurs _ t1), (occurs _ t1), (occurs _ t1),
    (occurs _ t2), (occurs _ t2), (occurs _ t2); reflexivity.
Qed.

(** Nothing before the [done] label depends on what
    [pl_swapchain_submit_frame] will answer. *)
Lemma upload_planes_with_submit b loc todo : forall i texs filled,
  upload_planes (with_submit b g) loc pic todo i texs filled
  = upload_planes g loc pic todo i texs filled.
Proof.
  induction todo as [|todo IH]; intros i texs filled; [reflexivity|].
  simpl. destruct (pl_upload_plane_ans g _ _ pic i) as [ok tex_out].
  destruct ok; [|reflexivity]. rewrite IH. reflexivity.
Qed.

Lemma upload_regions_with_submit b place flip r todo : forall i ovs texs,
  upload_regions (with_submit b g) place flip r todo i ovs texs
  = upload_regions g place flip r todo i ovs texs.
Proof.
  induction todo as [|todo IH]; intros i ovs texs; [reflexivity|].
  simpl. destruct (pl_upload_plane_ans g _ _ (p_picture r) 0) as [ok tex_out].
  destruct ok; [|reflexivity]. rewrite IH. reflexivity.
Qed.

Lemma render_frame_with_submit b frame :
  render_frame (with_submit b g) vd sys pic subpicture frame
  = render_frame g vd sys pic subpicture frame.
Proof.
  unfold render_frame. rewrite upload_planes_with_submit.
  destruct (upload_planes g _ pic _ 0 _ []) as [[[ok1 texs] filled] t1].
  destruct ok1; [|reflexivity]. simpl negb. cbv iota.
  change (frame_place (with_submit b g) vd frame) with (frame_place g vd frame).
  assert (forall place flip s tgt,
             composite_overlays (with_submit b g) place flip subpicture s tgt
             = composite_overlays g place flip subpicture s tgt) as ->.
  { intros place flip s tgt. unfold composite_overlays.
    destruct subpicture as [regions|]; [|reflexivity].
    change (grow_overlays (with_submit b g)) with (grow_overlays g).
    destruct (grow_overlays g (length regions) s) as [[ok sys1] t].
    destruct ok; [|reflexivity].
    destruct regions as [|r regions]; [reflexivity|].
    rewrite upload_regions_with_submit. reflexivity. }
  reflexivity.
Qed.

(** C7: when a plane upload, a reallocation of the overlay arrays or
    the render dispatch fails, the frame ends with the clear to opaque
    red, one submission, the report of the submission if it failed, and
    the release of the context; nothing before that submits.  What the
    submission answers changes neither the state the frame leaves nor
    the calls made up to it. *)
Theorem failed_frame_red_clear_then_submit :
  failure_occurs (PictureRender g vd sys pic subpicture).1.2 = true ->
  (PictureRender g vd sys pic subpicture).2 = true
  /\ (exists pre,
         (PictureRender g vd sys pic subpicture).1.2
         = pre ++ [pl_tex_clear opaque_red;
                   pl_swapchain_submit_frame (pl_swapchain_submit_frame_ok g)]
               ++ (if pl_swapchain_submit_frame_ok g then []
                   else [msg_Err "Failed rendering frame!"])
               ++ [vlc_placebo_ReleaseCurrent]
         /\ occurs is_submit pre = false
         /\ forall b, exists rest,
               (PictureRender (with_submit b g) vd sys pic subpicture).1.2
               = pre ++ rest)
  /\ (forall b,
         (PictureRender (with_submit b g) vd sys pic subpicture).1.1
         = (PictureRender g vd sys pic subpicture).1.1).
Proof.
  unfold PictureRender.
  change (vlc_placebo_MakeCurrent_ok (with_submit _ g))
    with (vlc_placebo_MakeCurrent_ok g).
  change (pl_swapchain_start_frame_ans (with_submit _ g))
    with (pl_swapchain_start_frame_ans g).
  destruct (vlc_placebo_MakeCurrent_ok g); simpl negb; cbv iota;
    [|simpl; discriminate].
  destruct (pl_swapchain_start_frame_ans g) as [frame|]; [|simpl; discriminate].
  pose proof (render_frame_failed frame) as Hf.
  assert (forall b, render_frame (with_submit b g) vd sys pic subpicture frame
                    = render_frame g vd sys pic subpicture frame) as Hb
    by (intros b; apply render_frame_with_submit).
  destruct (render_frame g vd sys pic subpicture frame) as [[failed sys'] t].
  destruct Hf as (Hfail & Hsub & Hred).
  cbn [fst snd]. intros Hocc.
  rewrite !failure_occurs_app, done_label_failure, orb_false_r in Hocc.
  simpl in Hocc. rewrite Hocc in Hfail. subst failed.
  split; [reflexivity|]. split.
  - exists ([vlc_placebo_MakeCurrent true; pl_swapchain_start_frame true] ++ t).
    split; [|split].
    + unfold done_label. rewrite <- !app_assoc. reflexivity.
    + rewrite occurs_app. simpl. exact Hsub.
    + intros b. rewrite Hb. eexists. rewrite <- app_assoc. reflexivity.
  - intros b. rewrite Hb. reflexivity.
Qed.

(** X20: The local [failed] at the return tells whether a failure occurred. *)
Lemma PictureRender_failed :
  (PictureRender g vd sys pic subpicture).2
  = failure_occurs (PictureRender g vd sys pic subpicture).1.2.
Proof.
  unfold PictureRender.
  destruct (vlc_placebo_MakeCurrent_ok g); [|reflexivity].
  destruct (pl_swapchain_start_frame_ans g) as [frame|]; [|reflexivity].
  pose proof (render_frame_failed frame) as Hf.
  destruct (render_frame g vd sys pic subpicture frame) as [[failed sys'] t].
  destruct Hf as (Hfail & _). cbn [fst snd negb].
  rewrite !failure_occurs_app, done_label_failure, orb_false_r.
  exact Hfail.
Qed.



End Frame.


Lemma failed_frame_red_clear_then_submit_witness :
  (PictureRender (Sample.with_upload Sample.upload_fails_plane1 (Sample.gpu_ok false))
     Sample.vd Sample.sys Sample.pic_yuv None).2 = true.
Proof.
  apply (failed_frame_red_clear_then_submit
           (Sample.with_upload Sample.upload_fails_plane1 (Sample.gpu_ok false))
           Sample.vd Sample.sys Sample.pic_yuv None).
  reflexivity.
Defined.

(** The scenario of the specification: the upload of plane 2 of 3 fails. *)
Lemma upload_failure_on_plane_2_of_3 :
  PictureRender (Sample.with_upload Sample.upload_fails_plane1 (Sample.gpu_ok false))
    Sample.vd Sample.sys Sample.pic_yuv None
  = (set_plane_tex [Some 100; None; None; None] Sample.sys,
     [vlc_placebo_MakeCurrent true; pl_swapchain_start_frame true;
      pl_upload_plane (PlaneSlot 0) None Sample.pic_yuv 0 true;
      pl_upload_plane (PlaneSlot 1) None Sample.pic_yuv 1 false;
      msg_Err "Failed uploading image data!";
      pl_tex_clear opaque_red; pl_swapchain_submit_frame true;
      vlc_placebo_ReleaseCurrent],
     true).
Proof. reflexivity. Qed.

(** ** Overlay capacity across frames *)

(** The scenario of the specification: frames with 3, 1 and 5 regions
    leave capacities 3, 3 and 5. *)
Lemma capacity_after_3_1_5 :
  let g := Sample.gpu_ok false in
  let frame s n :=
    (PictureRender g Sample.vd s Sample.pic (Some (Sample.regions n))).1.1 in
  let s1 := frame Sample.sys 3%nat in
  let s2 := frame s1 1%nat in
  let s3 := frame s2 5%nat in
  (num_overlays s1, num_overlays s2, num_overlays s3) = (3, 3, 5)%nat.
Proof. vm_compute. reflexivity. Qed.

(** C8 fails as stated: after a frame with 3 regions the capacity is 3;
    a frame with 5 regions in which [realloc] of the descriptor array
    fails leaves capacity 0. *)
Lemma alloc_failure_resets_capacity :
  let s3 :=
    (PictureRender (Sample.gpu_ok false) Sample.vd Sample.sys Sample.pic
       (Some (Sample.regions 3))).1.1 in
  let oom := Sample.with_realloc false true (Sample.gpu_ok false) in
  num_overlays s3 = 3%nat
  /\ PictureRender oom Sample.vd s3 Sample.pic (Some (Sample.regions 5))
     = (set_overlay_store None
          (Some [Some 200; Some 201; Some 202; Some 998; Some 998]) 0
          (set_plane_tex [Some 100; None; None; None] s3),
        [vlc_placebo_MakeCurrent true; pl_swapchain_start_frame true;
         pl_upload_plane (PlaneSlot 0) (Some 100) Sample.pic 0 true;
         realloc_overlays 5 false; realloc_overlay_tex 5 true;
         pl_tex_clear opaque_red; pl_swapchain_submit_frame true;
         vlc_placebo_ReleaseCurrent],
        true)
  /\ ~ capacity_never_shrinks.
Proof.
  cbv zeta. split; [reflexivity|]. split; [reflexivity|].
  intros H.
  specialize (H (Sample.with_realloc false true (Sample.gpu_ok false)) Sample.vd
                (PictureRender (Sample.gpu_ok false) Sample.vd Sample.sys
                   Sample.pic (Some (Sample.regions 3))).1.1
                Sample.pic (Some (Sample.regions 5))).
  vm_compute in H. lia.
Qed.

(** ** The overlay arrays keep room for their capacity *)

Section Store_invariant.

Variable g : gpu.

Lemma sys_zero_store_ok : overlay_store_ok sys_zero.
Proof. split; simpl; lia. Qed.

Lemma composite_overlays_store_ok place flip subpicture sys target :
  overlay_store_ok sys ->
  overlay_store_ok (composite_overlays g place flip subpicture sys target).1.1.2.
Proof.
  intros Hs. unfold composite_overlays.
  destruct subpicture as [regions|]; [|exact Hs].
  pose proof (grow_overlays_store_ok g (length regions) sys Hs) as Hg.
  destruct (grow_overlays g (length regions) sys) as [[ok sys1] t1].
  cbn [fst snd] in Hg. destruct ok; [|exact Hg].
  destruct Hg as [Ho Ht].
  destruct regions as [|r regions].
  - split; cbn [fst snd]; simpl.
    + destruct (overlays sys1); simpl in *; lia.
    + destruct (overlay_tex sys1); simpl in *; lia.
  - pose proof (upload_regions_spec g place flip r (length (r :: regions)) 0
                  (default [] (overlays sys1)) (default [] (overlay_tex sys1)))
      as Hu.
    destruct (upload_regions g place flip r _ 0 _ _) as [[[ovs texs] n] t2].
    destruct Hu as (_ & Hlo & Hlt & _).
    split; cbn [fst snd]; simpl.
    + destruct (overlays sys1); simpl in *; lia.
    + destruct (overlay_tex sys1); simpl in *; lia.
Qed.

(** X26: Every frame, failed or not, leaves the arrays at least as long as the
    capacity it leaves. *)
Lemma PictureRender_store_ok vd sys pic subpicture :
  overlay_store_ok sys ->
  overlay_store_ok (PictureRender g vd sys pic subpicture).1.1.
Proof.
  intros Hs. unfold PictureRender.
  destruct (vlc_placebo_MakeCurrent_ok g); [|exact Hs].
  destruct (pl_swapchain_start_frame_ans g) as [frame|]; [|exact Hs].
  pose proof (render_frame_cases g vd sys pic subpicture frame) as Hc.
  cbv zeta in Hc.
  destruct (upload_planes g _ pic _ 0 _ []) as [[[ok1 texs] filled] t1].
  match type of Hc with context [composite_overlays g ?a ?b ?c ?d ?e] =>
    pose proof (composite_overlays_store_ok a b c d e) as Ho;
    destruct (composite_overlays g a b c d e) as [[[ok2 sys2] tgt] t2] end.
  cbn [fst snd] in Ho. specialize (Ho Hs).
  destruct (render_frame g vd sys pic subpicture frame) as [[failed sys'] t].
  cbn [fst snd].
  destruct Hc as [(_ & _ & -> & _) | [(_ & _ & _ & -> & _) | (_ & _ & -> & _)]];
    [exact Hs | exact Ho | exact Ho].
Qed.

End Store_invariant.

(** ** Which region an overlay is built from *)

Section Overlay_source.

(** X24: What the loop composites: on a store with room for its capacity,
    every descriptor handed to the renderer is built from the first
    region of the chain; their number is the number of uploads before
    the first failed one, and an upload failure does not fail the
    stage. *)
Lemma composited_overlays_from_head g place flip r regions sys target :
  overlay_store_ok sys ->
  let '(ok, _, tgt, t) :=
    composite_overlays g place flip (Some (r :: regions)) sys target in
  ok = true ->
  (length (tgt_overlays tgt) <= length (r :: regions))%nat
  /\ List.Forall (fun o => exists tex, o = overlay_of place flip r tex)
       (tgt_overlays tgt)
  /\ occurs is_region_upload_failure t
     = negb (Nat.eqb (length (tgt_overlays tgt)) (length (r :: regions))).
Proof.
  intros Hstore. unfold composite_overlays.
  pose proof (grow_overlays_store_ok g (length (r :: regions)) sys Hstore) as Hs.
  pose proof (grow_overlays_calls g (length (r :: regions)) sys) as Hc.
  assert ((grow_overlays g (length (r :: regions)) sys).1.1 = true ->
          (length (r :: regions)
           <= num_overlays (grow_overlays g (length (r :: regions)) sys).1.2)%nat)
    as Hroom.
  { unfold grow_overlays.
    destruct (Nat.ltb_spec (num_overlays sys) (length (r :: regions)))
      as [Hlt|Hge]; [|intros _; exact Hge].
    unfold realloc.
    destruct (realloc_overlays_ok g), (realloc_overlay_tex_ok g); simpl;
      try discriminate. intros _. lia. }
  destruct (grow_overlays g (length (r :: regions)) sys) as [[ok sys1] t1].
  cbn [fst snd] in *. destruct Hc as (_ & _ & _ & Hall).
  destruct ok; [|discriminate]. specialize (Hroom eq_refl).
  destruct Hs as [Hso _].
  pose proof (upload_regions_spec g place flip r (length (r :: regions)) 0
                (default [] (overlays sys1)) (default [] (overlay_tex sys1)))
    as Hu.
  destruct (upload_regions g place flip r _ 0 _ _) as [[[ovs texs] n] t2].
  destruct Hu as (Hn & Hlo & _ & _ & Hbuilt & _ & Hfail).
  intros _. cbn [tgt_overlays].
  assert (length (take n ovs) = n) as Hlen
    by (rewrite length_take; lia).
  rewrite Hlen. split; [lia|]. split.
  - apply List.Forall_forall. intros o Ho.
    apply list_elem_of_In, list_elem_of_lookup in Ho. destruct Ho as [j Hj].
    assert (j < n)%nat as Hjn
      by (apply lookup_lt_Some in Hj; lia).
    rewrite lookup_take_lt in Hj by exact Hjn.
    destruct (Hbuilt j) as [tex Htex]; [lia|lia|].
    exists tex. congruence.
  - rewrite occurs_app, Hfail.
    rewrite (occurs_none (fun e => is_realloc e = true)
               is_region_upload_failure t1); [reflexivity| |exact Hall].
    intros e. destruct e; simpl; try discriminate; reflexivity.
Qed.

(** C4: a subpicture of two regions, at (30,40) of size 100x20 and at
    (500,900) of size 300x50, on an unflipped surface with every upload
    succeeding.  Both descriptors handed to the renderer carry the
    rectangle and the format of the first region, and the picture
    uploaded into slot 1 is the picture of the first region; the
    rectangle of the second region is (500,900)-(800,950). *)
Theorem second_overlay_built_from_first_region :
  let place := mk_place 0 0 1920 1080 in
  let '(_, t, failed) :=
    PictureRender (Sample.gpu_ok false) Sample.vd Sample.sys Sample.pic
      (Some [Sample.region0; Sample.region1]) in
  failed = false
  /\ (fun r => tgt_overlays r.2) <$> rendered t
     = Some [overlay_of place false Sample.region0 (Some 200);
             overlay_of place false Sample.region0 (Some 201)]
  /\ In (pl_upload_plane (OverlaySlot 1) None (p_picture Sample.region0) 0 true) t
  /\ ~ In (pl_upload_plane (OverlaySlot 1) None (p_picture Sample.region1) 0 true) t
  /\ rect (overlay_of place false Sample.region0 (Some 201)) = mk_rect 30 40 130 60
  /\ rect (overlay_of place false Sample.region1 (Some 201))
     = mk_rect 500 900 800 950.
Proof.
  vm_compute. repeat split; try reflexivity.
  - do 6 right. left. reflexivity.
  - intros H. repeat (destruct H as [H|H]; [discriminate H|]). exact H.
Qed.

(** The upload of the second of three regions fails: one overlay is
    composited and the frame is rendered, not failed. *)
Lemma overlay_upload_failure_keeps_prefix :
  let fails_slot1 slot tex_in p k :=
    match slot with
    | OverlaySlot 1 => (false, tex_in)
    | _ => Sample.upload_ok slot tex_in p k
    end in
  let '(_, t, failed) :=
    PictureRender (Sample.with_upload fails_slot1 (Sample.gpu_ok false))
      Sample.vd Sample.sys Sample.pic (Some (Sample.regions 3)) in
  failed = false
  /\ (fun r => length (tgt_overlays r.2)) <$> rendered t = Some 1%nat
  /\ occurs is_red_clear t = false.
Proof. vm_compute. repeat split; reflexivity. Qed.

End Overlay_source.

(** * Further properties of the module *)

(** ** Counting calls *)

Section Counting.

Lemma count_app p (t1 t2 : trace) : count p (t1 ++ t2) = (count p t1 + count p t2)%nat.
Proof. unfold count. rewrite List.filter_app. apply length_app. Qed.

Lemma count_cons p e (t : trace) :
  count p (e :: t) = ((if p e then 1 else 0) + count p t)%nat.
Proof. unfold count. simpl. destruct (p e); reflexivity. Qed.

Lemma count_none p (t : trace) : occurs p t = false -> count p t = 0%nat.
Proof.
  induction t as [|e t IH]; [reflexivity|].
  rewrite occurs_cons, count_cons. intros H.
  apply orb_false_elim in H. destruct H as [-> H]. now rewrite IH.
Qed.

Lemma occurs_of_count p (t : trace) : count p t = 0%nat -> occurs p t = false.
Proof.
  induction t as [|e t IH]; [reflexivity|].
  rewrite occurs_cons, count_cons. destruct (p e); [discriminate|].
  simpl. exact IH.
Qed.

End Counting.

(** ** Resource loaders: successful loads, repeated loads, file handles *)

Section Loaders_more.

Variable w : libc.

Lemma read_file_calls fs : List.Forall stream_call (read_file w fs).1.
Proof.
  unfold read_file.
  destruct (_ =? -1); [|destruct (_ <? 0); [|destruct (vlc_alloc_ans w _)]];
    repeat constructor.
Qed.

(** When [read_file] reaches the parser, the stream was sought to its end
    without error, its size was not negative, a buffer of that size was
    allocated, and one object of that size was read into it. *)
Lemma read_file_complete fs b len :
  (read_file w fs).2 = inr (b, len) ->
  fseek_ans w fs <> -1 /\ 0 <= len
  /\ (read_file w fs).1
     = [fseek fs (fseek_ans w fs); ftell fs len; rewind fs;
        vlc_alloc len (Some b); fread b len fs 1].
Proof.
  unfold read_file.
  destruct (Z.eqb_spec (fseek_ans w fs) (-1)) as [E|E]; [discriminate|].
  destruct (Z.ltb_spec (ftell_ans w fs) 0) as [L|L]; [discriminate|].
  destruct (vlc_alloc_ans w _) as [b'|]; [|discriminate].
  cbn [fst snd].
  destruct (Z.eqb_spec (fread_ans w b' (ftell_ans w fs) fs) 1) as [R|R];
    [|discriminate].
  cbn [negb]. intros [= <- <-]. rewrite R. repeat split; assumption.
Qed.

(** X1: A load that returns from the end of [LoadCustomLUT] or
    [LoadUserShader] has installed what the parser returned for the
    buffer that was read in full, has stored the copy of the path, and
    has closed the stream and freed the buffer. *)
Theorem successful_load_installs_parsed_resource sys p :
  ((LoadCustomLUT w sys (Some p)).2 = ret_loaded ->
   exists f b len l,
     vlc_fopen_ans w p = Some f
     /\ pl_lut_parse_cube_ans w b len = Some l
     /\ lut (LoadCustomLUT w sys (Some p)).1.1 = Some l
     /\ lut_path (LoadCustomLUT w sys (Some p)).1.1
        = (if strdup_ok w p then Some p else None)
     /\ (LoadCustomLUT w sys (Some p)).1.2
        = [free_string (lut_path sys);
           strdup p (if strdup_ok w p then Some p else None);
           vlc_fopen p (Some f); fseek (Some f) (fseek_ans w (Some f));
           ftell (Some f) len; rewind (Some f); vlc_alloc len (Some b);
           fread b len (Some f) 1; pl_lut_parse_cube b len (Some l);
           fclose (Some f); free_buffer (Some b)])
  /\
  ((LoadUserShader w sys (Some p)).2 = ret_loaded ->
   exists b len h,
     let fs := vlc_fopen_ans w p in
     pl_mpv_user_shader_parse_ans w b len = Some h
     /\ hook (LoadUserShader w sys (Some p)).1.1 = Some h
     /\ hook_path (LoadUserShader w sys (Some p)).1.1
        = (if strdup_ok w p then Some p else None)
     /\ (LoadUserShader w sys (Some p)).1.2
        = [free_string (hook_path sys);
           strdup p (if strdup_ok w p then Some p else None);
           vlc_fopen p fs; fseek fs (fseek_ans w fs);
           ftell fs len; rewind fs; vlc_alloc len (Some b);
           fread b len fs 1; pl_mpv_user_shader_parse b len (Some h);
           fclose fs; free_buffer (Some b)]).
Proof.
  split.
  - unfold LoadCustomLUT. destruct p as [|a p]; [discriminate|].
    destruct (same_path _ _); [discriminate|].
    destruct (vlc_fopen_ans w _) as [f|] eqn:Hf; [|discriminate].
    pose proof (read_file_complete (Some f)) as Hr.
    destruct (read_file w (Some f)) as [t1 [buf|[b len]]]; [discriminate|].
    destruct (Hr b len eq_refl) as (_ & _ & Ht). cbn [fst] in Ht. subst t1.
    destruct (pl_lut_parse_cube_ans w b len) as [l|] eqn:Hl; [|discriminate].
    intros _. exists f, b, len, l. repeat split; assumption.
  - unfold LoadUserShader. destruct p as [|a p]; [discriminate|].
    destruct (same_path _ _); [discriminate|].
    pose proof (read_file_complete (vlc_fopen_ans w (String a p))) as Hr.
    destruct (read_file w _) as [t1 [buf|[b len]]]; [discriminate|].
    destruct (Hr b len eq_refl) as (_ & _ & Ht). cbn [fst] in Ht. subst t1.
    destruct (pl_mpv_user_shader_parse_ans w b len) as [h|] eqn:Hl; [|discriminate].
    intros _. exists b, len, h. repeat split; assumption.
Qed.

(** X2: Once a non-empty path has been requested and its copy stored, a
    second request for it does nothing, whether the first load succeeded
    or failed and whatever the file holds by then. *)
Theorem repeated_load_is_skipped (w' : libc) sys p :
  p <> EmptyString -> strdup_ok w p = true ->
  (let s1 := (LoadCustomLUT w sys (Some p)).1.1 in
   LoadCustomLUT w' s1 (Some p) = (s1, [], ret_same))
  /\ (let s1 := (LoadUserShader w sys (Some p)).1.1 in
      LoadUserShader w' s1 (Some p) = (s1, [], ret_same)).
Proof.
  intros Hp Hd. destruct p as [|a p]; [congruence|]. split; intros s1.
  - assert (lut_path s1 = Some (String a p)) as Hpath.
    { subst s1. unfold LoadCustomLUT.
      destruct (same_path _ _) eqn:Hs; [now apply same_path_true in Hs|].
      rewrite Hd.
      destruct (vlc_fopen_ans w _) as [f|]; [|reflexivity].
      destruct (read_file w (Some f)) as [t1 [buf|[b len]]]; [reflexivity|].
      destruct (pl_lut_parse_cube_ans w b len); reflexivity. }
    unfold LoadCustomLUT.
    now rewrite (proj2 (same_path_true _ _) Hpath).
  - assert (hook_path s1 = Some (String a p)) as Hpath.
    { subst s1. unfold LoadUserShader.
      destruct (same_path _ _) eqn:Hs; [now apply same_path_true in Hs|].
      rewrite Hd.
      destruct (read_file w _) as [t1 [buf|[b len]]]; [reflexivity|].
      destruct (pl_mpv_user_shader_parse_ans w b len); reflexivity. }
    unfold LoadUserShader.
    now rewrite (proj2 (same_path_true _ _) Hpath).
Qed.

(** X3: A load of a non-empty path never releases a backend resource: when it
    installs a new LUT or hook, or empties the slot after a parse
    failure, the one held before is not freed.  Only the empty path
    releases, and then it releases what the slot holds. *)
Theorem replaced_resource_is_not_released sys path :
  (occurs is_resource_free (LoadCustomLUT w sys path).1.2 = true
   <-> (path = None \/ path = Some EmptyString) /\ lut sys <> None)
  /\ (occurs is_resource_free (LoadUserShader w sys path).1.2 = true
      <-> (path = None \/ path = Some EmptyString) /\ hook sys <> None).
Proof.
  assert (forall fs, occurs is_resource_free (read_file w fs).1 = false) as Hrf.
  { intros fs. apply (occurs_none stream_call); [|apply read_file_calls].
    intros e. destruct e; simpl; tauto. }
  assert (forall buf fs, occurs is_resource_free (load_error buf fs) = false) as Hle.
  { intros buf fs. unfold load_error. destruct fs; reflexivity. }
  split.
  - destruct path as [[|a p]|].
    + simpl. destruct (lut sys); simpl; split; try discriminate; intuition congruence.
    + assert (occurs is_resource_free
                (LoadCustomLUT w sys (Some (String a p))).1.2 = false) as ->.
      { unfold LoadCustomLUT. destruct (same_path _ _); [reflexivity|].
        destruct (vlc_fopen_ans w _) as [f|]; [|reflexivity].
        specialize (Hrf (Some f)).
        destruct (read_file w (Some f)) as [t1 [buf|[b len]]]; cbn [fst] in Hrf.
        - cbn [fst snd]. rewrite !occurs_app, Hrf, Hle. reflexivity.
        - destruct (pl_lut_parse_cube_ans w b len); cbn [fst snd];
            rewrite !occurs_app, Hrf, ?Hle; reflexivity. }
      split; [discriminate|]. intros [[H|H] _]; discriminate H.
    + simpl. destruct (lut sys); simpl; split; try discriminate; intuition congruence.
  - destruct path as [[|a p]|].
    + simpl. destruct (hook sys); simpl; split; try discriminate; intuition congruence.
    + assert (occurs is_resource_free
                (LoadUserShader w sys (Some (String a p))).1.2 = false) as ->.
      { unfold LoadUserShader. destruct (same_path _ _); [reflexivity|].
        specialize (Hrf (vlc_fopen_ans w (String a p))).
        destruct (read_file w _) as [t1 [buf|[b len]]]; cbn [fst] in Hrf.
        - cbn [fst snd]. rewrite !occurs_app, Hrf, Hle. reflexivity.
        - destruct (pl_mpv_user_shader_parse_ans w b len); cbn [fst snd];
            rewrite !occurs_app, Hrf, ?Hle; reflexivity. }
      split; [discriminate|]. intros [[H|H] _]; discriminate H.
    + simpl. destruct (hook sys); simpl; split; try discriminate; intuition congruence.
Qed.

(** X4: [LoadCustomLUT] closes the stream it opened exactly once on every way
    out, and never calls [fclose] or any other stream function without an
    open stream.  [LoadUserShader] closes the stream exactly once when
    [vlc_fopen] gave one. *)
Theorem opened_stream_is_closed_once sys path :
  (count is_fclose (LoadCustomLUT w sys path).1.2
   = count is_fopen_ok (LoadCustomLUT w sys path).1.2
   /\ ~ In (fclose None) (LoadCustomLUT w sys path).1.2)
  /\ (forall p f, path = Some p -> p <> EmptyString ->
        same_path p (hook_path sys) = false -> vlc_fopen_ans w p = Some f ->
        count is_fclose (LoadUserShader w sys path).1.2 = 1%nat
        /\ In (fclose (Some f)) (LoadUserShader w sys path).1.2).
Proof.
  assert (forall p fs, (forall e, stream_call e -> p e = false) ->
                       count p (read_file w fs).1 = 0%nat) as Hrf.
  { intros p fs Hp. apply count_none, (occurs_none stream_call);
      [exact Hp|apply read_file_calls]. }
  assert (forall fs, ~ In (fclose None) (read_file w fs).1) as Hin.
  { intros fs H. apply (proj1 (List.Forall_forall _ _) (read_file_calls fs)) in H.
    exact H. }
  split.
  - unfold LoadCustomLUT. destruct path as [[|a p]|]; try (split; [reflexivity|]);
      try (simpl; intuition discriminate).
    destruct (same_path _ _); [split; [reflexivity|simpl; tauto]|].
    destruct (vlc_fopen_ans w _) as [f|];
      [|split; [reflexivity|simpl; intuition discriminate]].
    pose proof (Hrf is_fclose (Some f) ltac:(intros e; destruct e; simpl; tauto)) as H1.
    pose proof (Hrf is_fopen_ok (Some f) ltac:(intros e; destruct e; simpl; tauto)) as H2.
    specialize (Hin (Some f)).
    destruct (read_file w (Some f)) as [t1 [buf|[b len]]]; cbn [fst snd] in *.
    + split.
      * rewrite !count_app, H1, H2. reflexivity.
      * intros [H|[H|[H|H]]]; try discriminate H. cbn [app] in H.
        apply in_app_iff in H. destruct H as [H|H]; [now apply Hin|].
        simpl in H. intuition discriminate.
    + destruct (pl_lut_parse_cube_ans w b len); cbn [fst snd]; split;
        try (rewrite !count_app, H1, H2; reflexivity);
        intros [H|[H|[H|H]]]; try discriminate H; cbn [app] in H;
        (apply in_app_iff in H; destruct H as [H|H]; [now apply Hin|]);
        simpl in H; intuition discriminate.
  - intros p f -> Hp Hs Hf. destruct p as [|a p]; [congruence|].
    unfold LoadUserShader. rewrite Hs, Hf.
    pose proof (Hrf is_fclose (Some f) ltac:(intros e; destruct e; simpl; tauto)) as H1.
    destruct (read_file w (Some f)) as [t1 [buf|[b len]]]; cbn [fst snd] in *.
    + split.
      * rewrite !count_app, H1. reflexivity.
      * cbn [app In]. do 3 right. apply in_app_iff. right. right. left. reflexivity.
    + destruct (pl_mpv_user_shader_parse_ans w b len); cbn [fst snd]; split;
        try (rewrite !count_app, H1; reflexivity);
        cbn [app In]; do 3 right; apply in_app_iff; right; simpl; tauto.
Qed.

(** [LoadCustomLUT] writes [lut] and [lut_path] and nothing else,
    [LoadUserShader] writes [hook] and [hook_path] and nothing else. *)
Lemma loader_fields sys path :
  (let s' := (LoadCustomLUT w sys path).1.1 in
   s' = set_lut (lut s') (set_lut_path (lut_path s') sys))
  /\ (let s' := (LoadUserShader w sys path).1.1 in
      s' = set_hook (hook s') (set_hook_path (hook_path s') sys)).
Proof.
  destruct sys as [ptex rend ovs otex n tgt loc dd l lp lm h hp].
  split; cbv zeta.
  - unfold LoadCustomLUT. destruct path as [[|a p]|]; try reflexivity.
    destruct (same_path _ _); [reflexivity|].
    destruct (vlc_fopen_ans w _) as [f|]; [|reflexivity].
    destruct (read_file w (Some f)) as [t1 [buf|[b len]]]; [reflexivity|].
    destruct (pl_lut_parse_cube_ans w b len); reflexivity.
  - unfold LoadUserShader. destruct path as [[|a p]|]; try reflexivity.
    destruct (same_path _ _); [reflexivity|].
    destruct (read_file w _) as [t1 [buf|[b len]]]; [reflexivity|].
    destruct (pl_mpv_user_shader_parse_ans w b len); reflexivity.
Qed.

Lemma load_error_calls buf fs : List.Forall loader_call (load_error buf fs).
Proof. unfold load_error. destruct fs; repeat constructor. Qed.

Lemma read_file_loader_calls fs : List.Forall loader_call (read_file w fs).1.
Proof.
  eapply List.Forall_impl; [|apply read_file_calls].
  intros e. destruct e; simpl; tauto.
Qed.

(** The loaders call nothing but libc, the parsers and the release of
    their own resource. *)
Lemma LoadCustomLUT_calls sys path :
  List.Forall loader_call (LoadCustomLUT w sys path).1.2.
Proof.
  unfold LoadCustomLUT. destruct path as [[|a p]|]; try (repeat constructor).
  destruct (same_path _ _); [constructor|].
  destruct (vlc_fopen_ans w _) as [f|]; [|repeat constructor].
  pose proof (read_file_loader_calls (Some f)) as Hr.
  destruct (read_file w (Some f)) as [tr [buf|[b len]]]; cbn [fst snd] in *.
  - repeat constructor. apply List.Forall_app. split; [exact Hr|].
    apply load_error_calls.
  - destruct (pl_lut_parse_cube_ans w b len); cbn [fst snd];
      repeat constructor; apply List.Forall_app; (split; [exact Hr|]);
      repeat constructor.
Qed.

Lemma LoadUserShader_calls sys path :
  List.Forall loader_call (LoadUserShader w sys path).1.2.
Proof.
  unfold LoadUserShader. destruct path as [[|a p]|]; try (repeat constructor).
  destruct (same_path _ _); [constructor|].
  pose proof (read_file_loader_calls (vlc_fopen_ans w (String a p))) as Hr.
  destruct (read_file w _) as [tr [buf|[b len]]]; cbn [fst snd] in *.
  - repeat constructor. apply List.Forall_app. split; [exact Hr|].
    apply load_error_calls.
  - destruct (pl_mpv_user_shader_parse_ans w b len); cbn [fst snd];
      repeat constructor; apply List.Forall_app; (split; [exact Hr|]);
      (constructor; [exact I|]);
      first [apply load_error_calls | repeat constructor].
Qed.

(** X5: The two loaders do not share a cache and do not touch the rest of the
    state: putting back the two fields of its own cache after a load gives
    the state before the load, whatever the outcome.  And a loader calls
    nothing but libc, the parsers and the release of its own resource: it
    logs nothing and makes no call on the context, the renderer, the
    swapchain or a texture. *)
Theorem loaders_write_their_own_cache sys path :
  (let '(s', t, _) := LoadCustomLUT w sys path in
   set_lut (lut sys) (set_lut_path (lut_path sys) s') = sys
   /\ List.Forall loader_call t)
  /\ (let '(s', t, _) := LoadUserShader w sys path in
      set_hook (hook sys) (set_hook_path (hook_path sys) s') = sys
      /\ List.Forall loader_call t).
Proof.
  pose proof (loader_fields sys path) as [H1 H2]. cbv zeta in H1, H2.
  pose proof (LoadCustomLUT_calls sys path) as C1.
  pose proof (LoadUserShader_calls sys path) as C2.
  destruct (LoadCustomLUT w sys path) as [[s1 t1] r1].
  destruct (LoadUserShader w sys path) as [[s2 t2] r2].
  cbn [fst snd] in *. split; (split; [|assumption]).
  - rewrite H1. destruct sys; reflexivity.
  - rewrite H2. destruct sys; reflexivity.
Qed.

Lemma UpdateParams_calls cfg sys :
  List.Forall loader_call (UpdateParams w cfg sys).2.
Proof.
  unfold UpdateParams.
  match goal with |- context [LoadCustomLUT w ?s ?p] =>
    pose proof (LoadCustomLUT_calls s p) as H1;
    destruct (LoadCustomLUT w s p) as [[s2 tr1] r1] end.
  match goal with |- context [LoadUserShader w ?s ?p] =>
    pose proof (LoadUserShader_calls s p) as H2;
    destruct (LoadUserShader w s p) as [[s3 tr2] r2] end.
  cbn [fst snd] in *.
  apply List.Forall_app. split; [exact H1|].
  constructor; [exact I|]. apply List.Forall_app. split; [exact H2|].
  repeat constructor.
Qed.

End Loaders_more.

(** ** Session: opening and closing *)

Section Session_more.

Variable g : gpu.


(** What [UpdateParams] leaves in the state: the configured target
    colorimetry (with the light level unset), dither depth and LUT mode;
    the renderer, the textures, the overlay store and the chroma location
    are as before; and neither loader is given the GPU context. *)
Lemma UpdateParams_fields (w : libc) cfg sys :
  let s := (UpdateParams w cfg sys).1 in
  renderer s = renderer sys /\ plane_tex s = plane_tex sys
  /\ overlays s = overlays sys /\ overlay_tex s = overlay_tex sys
  /\ num_overlays s = num_overlays sys
  /\ yuv_chroma_loc s = yuv_chroma_loc sys
  /\ target s = mk_color (pl_target_prim cfg) (pl_target_trc cfg) 0 (pl_target_avg cfg)
  /\ dither_depth s = pl_dither_depth cfg
  /\ lut_mode s = pl_lut_mode cfg.
Proof.
  cbv zeta. unfold UpdateParams.
  match goal with |- context [LoadCustomLUT w ?s ?p] =>
    pose proof (proj1 (loader_fields w s p)) as H1;
    cbv zeta in H1; destruct (LoadCustomLUT w s p) as [[s2 t1] r1] end.
  match goal with |- context [LoadUserShader w ?s ?p] =>
    pose proof (proj2 (loader_fields w s p)) as H2;
    cbv zeta in H2; destruct (LoadUserShader w s p) as [[s3 t2] r2] end.
  cbn [fst snd] in *. rewrite H2, H1. repeat split.
Qed.

(** X7: [Open] succeeds exactly when the state was allocated, the display has
    a window, the instance was created, the context was acquired and the
    renderer was created.  It reports [VLC_ENOMEM] exactly when the
    allocation failed, and then has done nothing.  When it fails it has
    opened no file and left the format as it was, and it has released the
    instance exactly when it had created it.  When it succeeds the state
    holds the renderer and the configured dither depth, colorimetry and
    LUT mode, and the overlay store is empty. *)
Theorem Open_succeeds_iff (w : libc) cfg vd fmt_in :
  let ret := (Open g w cfg vd fmt_in).1.1.1 in
  let sys := (Open g w cfg vd fmt_in).1.1.2 in
  let fmt_out := (Open g w cfg vd fmt_in).1.2 in
  let t := (Open g w cfg vd fmt_in).2 in
  (ret = VLC_SUCCESS
   <-> vlc_obj_calloc_ok g = true /\ window (vd_cfg vd) = true
       /\ vlc_placebo_Create_ok g = true /\ vlc_placebo_MakeCurrent_ok g = true
       /\ pl_renderer_create_ans g <> None)
  /\ (ret = VLC_ENOMEM <-> vlc_obj_calloc_ok g = false)
  /\ (ret = VLC_ENOMEM -> sys = None /\ t = [])
  /\ (ret <> VLC_SUCCESS ->
      occurs is_file_call t = false /\ fmt_out = fmt_in
      /\ (In vlc_placebo_Release t <-> In (vlc_placebo_Create true) t))
  /\ (ret = VLC_SUCCESS ->
      exists s, sys = Some s
        /\ renderer s = pl_renderer_create_ans g
        /\ dither_depth s = pl_dither_depth cfg
        /\ target s = mk_color (pl_target_prim cfg) (pl_target_trc cfg) 0
                        (pl_target_avg cfg)
        /\ lut_mode s = pl_lut_mode cfg
        /\ num_overlays s = 0%nat /\ overlays s = None /\ overlay_tex s = None
        /\ ~ In vlc_placebo_Release t).
Proof.
  cbv zeta. unfold Open.
  destruct (vlc_obj_calloc_ok g); cbn [negb].
  2:{ cbn [fst snd]. repeat split; try discriminate; try tauto;
        try (intros; intuition congruence). }
  destruct (window (vd_cfg vd)); cbn [negb].
  2:{ cbn [fst snd]. repeat split; try discriminate; try tauto;
        try (intros; intuition congruence); simpl; intuition discriminate. }
  destruct (vlc_placebo_Create_ok g); cbn [negb].
  2:{ cbn [fst snd]. repeat split; try discriminate; try tauto;
        try (intros; intuition congruence); simpl; intuition discriminate. }
  destruct (vlc_placebo_MakeCurrent_ok g); cbn [negb].
  2:{ cbn [fst snd]. repeat split; try discriminate; try tauto;
        try (intros; intuition congruence); simpl; intuition discriminate. }
  destruct (pl_renderer_create_ans g) as [r|] eqn:Hr; cbn [renderer set_renderer].
  2:{ cbn [fst snd]. repeat split; try discriminate; try tauto;
        try (intros; intuition congruence); simpl; intuition discriminate. }
  assert (~ In vlc_placebo_Release (pick_chroma g vd (i_chroma fmt_in)).2) as Hpc.
  { unfold pick_chroma. destruct (vlc_placebo_FormatSupported g _); [simpl; tauto|].
    destruct (_ =? 0); simpl; intuition discriminate. }
  destruct (pick_chroma g vd (i_chroma fmt_in)) as [chroma t4].
  match goal with |- context [UpdateParams w cfg ?s] =>
    pose proof (UpdateParams_fields w cfg s) as Hu;
    assert (~ In vlc_placebo_Release (UpdateParams w cfg s).2) as Hur;
    [|destruct (UpdateParams w cfg s) as [sys' t5]] end.
  { intros H. apply (proj1 (List.Forall_forall _ _) (UpdateParams_calls w cfg _)) in H.
    exact H. }
  cbv zeta in Hu. cbn [fst snd] in *.
  destruct Hu as (Hu1 & _ & Hu3 & Hu4 & Hu5 & _ & Hu7 & Hu8 & Hu9).
  split; [split; [intros _; repeat split; discriminate | reflexivity]|].
  split; [split; discriminate|].
  split; [discriminate|].
  split; [intros H; now contradiction H|].
  intros _. exists sys'. repeat split; try assumption.
  intros H. cbn [app In] in H.
  destruct H as [H|[H|[H|H]]]; try discriminate H.
  destruct H as [H|H]; [discriminate H|].
  apply in_app_iff in H. destruct H as [H|H]; [now apply Hpc in H|now apply Hur in H].
Qed.

Lemma find_first {A} (p : A -> bool) l1 x l2 :
  List.Forall (fun y => p y = false) l1 -> p x = true ->
  List.find p (l1 ++ x :: l2) = Some x.
Proof.
  induction 1 as [|y l1 Hy _ IH]; intros Hx; simpl.
  - now rewrite Hx.
  - rewrite Hy. now apply IH.
Qed.

(** The chroma picked for the display: the source chroma when the GPU
    supports it; otherwise the first supported chroma of the fallback
    list; when no fallback is supported, the chroma the caller left in the
    format, unsupported as it may be, and RGBA only if that one is zero.
    It is never zero unless the source chroma is zero and supported. *)
Lemma pick_chroma_spec vd chroma :
  let c := (pick_chroma g vd chroma).1 in
  let v := i_chroma (vd_fmt vd) in
  (vlc_placebo_FormatSupported g v = true -> c = v)
  /\ (vlc_placebo_FormatSupported g v = false ->
      c <> 0
      /\ (forall l1 f l2,
             vlc_fourcc_GetFallback g v = l1 ++ f :: l2 ->
             List.Forall (fun y => vlc_placebo_FormatSupported g y = false) l1 ->
             vlc_placebo_FormatSupported g f = true -> f <> 0 -> c = f)
      /\ ((forall f, In f (vlc_fourcc_GetFallback g v) ->
                     vlc_placebo_FormatSupported g f = false) ->
          c = (if chroma =? 0 then VLC_CODEC_RGBA else chroma))).
Proof.
  cbv zeta. unfold pick_chroma.
  destruct (vlc_placebo_FormatSupported g (i_chroma (vd_fmt vd))) eqn:Hs.
  - split; [reflexivity|discriminate].
  - split; [discriminate|]. intros _. split; [|split].
    + destruct (Z.eqb_spec
                  match List.find (vlc_placebo_FormatSupported g)
                          (vlc_fourcc_GetFallback g (i_chroma (vd_fmt vd))) with
                  | Some fcc => fcc
                  | None => chroma
                  end 0) as [E|E]; [discriminate|exact E].
    + intros l1 f l2 Hl Hl1 Hf Hf0. rewrite Hl, (find_first _ l1 f l2 Hl1 Hf).
      destruct (Z.eqb_spec f 0); [contradiction|reflexivity].
    + intros Hnone.
      destruct (List.find _ _) as [f|] eqn:Hfind.
      * apply List.find_some in Hfind. destruct Hfind as [Hin Hf].
        rewrite (Hnone f Hin) in Hf. discriminate.
      * destruct (chroma =? 0); reflexivity.
Qed.

(** X8: The format [Open] leaves on success: the picked chroma in the
    caller's format, nothing else of it changed; the chroma location kept
    in the state is the one of that format when the chroma is YUV and
    unknown when it is not. *)
Theorem Open_display_format (w : libc) cfg vd fmt_in :
  (Open g w cfg vd fmt_in).1.1.1 = VLC_SUCCESS ->
  let fmt_out := (Open g w cfg vd fmt_in).1.2 in
  let c := (pick_chroma g vd (i_chroma fmt_in)).1 in
  let v := i_chroma (vd_fmt vd) in
  fmt_out = mk_fmt c (i_x_offset fmt_in) (i_y_offset fmt_in)
              (i_visible_width fmt_in) (i_visible_height fmt_in)
              (orientation fmt_in)
  /\ (vlc_placebo_FormatSupported g v = true -> c = v)
  /\ (vlc_placebo_FormatSupported g v = false ->
      c <> 0
      /\ (forall l1 f l2,
             vlc_fourcc_GetFallback g v = l1 ++ f :: l2 ->
             List.Forall (fun y => vlc_placebo_FormatSupported g y = false) l1 ->
             vlc_placebo_FormatSupported g f = true -> f <> 0 -> c = f)
      /\ ((forall f, In f (vlc_fourcc_GetFallback g v) ->
                     vlc_placebo_FormatSupported g f = false) ->
          c = (if i_chroma fmt_in =? 0 then VLC_CODEC_RGBA else i_chroma fmt_in)))
  /\ (exists s, (Open g w cfg vd fmt_in).1.1.2 = Some s
        /\ yuv_chroma_loc s
           = (if vlc_fourcc_IsYUV g c then vlc_placebo_ChromaLoc g fmt_out
              else PL_CHROMA_UNKNOWN)).
Proof.
  intros Hret. cbv zeta.
  pose proof (pick_chroma_spec vd (i_chroma fmt_in)) as Hc. cbv zeta in Hc.
  destruct Hc as [Hc1 Hc2].
  revert Hret. unfold Open.
  destruct (vlc_obj_calloc_ok g); cbn [negb]; [|discriminate].
  destruct (window (vd_cfg vd)); cbn [negb]; [|discriminate].
  destruct (vlc_placebo_Create_ok g); cbn [negb]; [|discriminate].
  destruct (vlc_placebo_MakeCurrent_ok g); cbn [negb]; [|discriminate].
  destruct (pl_renderer_create_ans g) as [r|]; cbn [renderer set_renderer];
    [|discriminate].
  destruct (pick_chroma g vd (i_chroma fmt_in)) as [chroma t4]. cbn [fst] in *.
  match goal with |- context [UpdateParams w cfg ?s] =>
    pose proof (UpdateParams_fields w cfg s) as Hu;
    destruct (UpdateParams w cfg s) as [sys' t5] end.
  cbv zeta in Hu. cbn [fst snd] in *.
  destruct Hu as (_ & _ & _ & _ & _ & Hloc & _).
  intros _. split; [reflexivity|]. split; [exact Hc1|]. split; [exact Hc2|].
  exists sys'. split; [reflexivity|]. exact Hloc.
Qed.

End Session_more.

(** ** Orientation and placement *)

Section Geometry_more.

(** X13: The source orientation step.  A horizontal flip exchanges the
    left and right edges of the crop, a vertical flip the top and bottom
    edges, and neither touches the rotation; the three rotations set the
    rotation and leave the crop; a transposition sets a quarter turn and
    exchanges top and bottom, an anti-transposition sets a quarter turn
    and exchanges left and right; the normal orientation changes nothing.
    So each flip is its own inverse, the flips commute, a transposition is
    the quarter turn followed by the vertical flip, and applying a rotation
    twice is applying it once.  No orientation touches the planes, the
    colour description or the LUT. *)
Theorem orient_flips_and_turns img :
  (forall o,
      (rotation (orient o img), src_rect (orient o img))
      = let r := src_rect img in
        match o with
        | ORIENT_NORMAL => (rotation img, r)
        | ORIENT_HFLIPPED => (rotation img, mk_rect (x1 r) (y0 r) (x0 r) (y1 r))
        | ORIENT_VFLIPPED => (rotation img, mk_rect (x0 r) (y1 r) (x1 r) (y0 r))
        | ORIENT_ROTATED_90 => (PL_ROTATION_90, r)
        | ORIENT_ROTATED_180 => (PL_ROTATION_180, r)
        | ORIENT_ROTATED_270 => (PL_ROTATION_270, r)
        | ORIENT_TRANSPOSED =>
            (PL_ROTATION_90, mk_rect (x0 r) (y1 r) (x1 r) (y0 r))
        | ORIENT_ANTI_TRANSPOSED =>
            (PL_ROTATION_90, mk_rect (x1 r) (y0 r) (x0 r) (y1 r))
        end)
  /\ orient ORIENT_HFLIPPED (orient ORIENT_HFLIPPED img) = img
  /\ orient ORIENT_VFLIPPED (orient ORIENT_VFLIPPED img) = img
  /\ orient ORIENT_TRANSPOSED img
     = orient ORIENT_VFLIPPED (orient ORIENT_ROTATED_90 img)
  /\ orient ORIENT_ANTI_TRANSPOSED img
     = orient ORIENT_HFLIPPED (orient ORIENT_ROTATED_90 img)
  /\ orient ORIENT_HFLIPPED (orient ORIENT_VFLIPPED img)
     = orient ORIENT_VFLIPPED (orient ORIENT_HFLIPPED img)
  /\ (forall o, In o [ORIENT_ROTATED_90; ORIENT_ROTATED_180; ORIENT_ROTATED_270] ->
                orient o (orient o img) = orient o img
                /\ src_rect (orient o img) = src_rect img)
  /\ (forall o, planes (orient o img) = planes img
                /\ num_planes (orient o img) = num_planes img
                /\ img_color_repr_of (orient o img) = img_color_repr_of img
                /\ img_lut (orient o img) = img_lut img
                /\ img_lut_type (orient o img) = img_lut_type img).
Proof.
  destruct img as [n pl c [a b a' b'] rot lt l].
  split; [intros o; destruct o; reflexivity|].
  repeat split; try reflexivity;
    try (destruct H as [<-|[<-|[<-|[]]]]; reflexivity);
    destruct o; reflexivity.
Qed.

Lemma to_int_uint_add_neg (a b : Z) :
  CInt.to_int (uint_add a (uint_neg b)) = CInt.to_int (a - b).
Proof.
  rewrite to_int_uint_add. apply to_int_congr.
  unfold uint_neg, CInt.to_uint.
  rewrite Zplus_mod_idemp_r.
  replace (a + - (b mod CInt.modulus)) with (a - b mod CInt.modulus) by lia.
  apply Zminus_mod_idemp_r.
Qed.

Variable g : gpu.
Variable vd : vout_display_t.

(** X14: On a flipped swapchain the core is asked to place the picture with top
    and bottom alignment exchanged, and the rectangle compared with the
    surface is the vertical mirror image of the placement it answers: it
    spans from [h - (y + height)] to [h - y].  It covers the surface, so
    that nothing is cleared, exactly when the placement answered is the
    whole surface. *)
Theorem flipped_placement_is_mirrored frame :
  flipped frame = true ->
  let p := vout_display_PlacePicture g (vd_fmt vd) (frame_cfg vd frame) in
  0 <= place_width p -> 0 <= place_height p ->
  CInt.in_int (place_x p + place_width p) ->
  CInt.in_int (fbo_h frame - place_y p) ->
  CInt.in_int (fbo_h frame - place_y p - place_height p) ->
  align_vertical (frame_cfg vd frame)
  = flip_vertical_align (align_vertical (vd_cfg vd))
  /\ norm_rect (frame_place g vd frame)
     = mk_rect (place_x p) (fbo_h frame - (place_y p + place_height p))
         (place_x p + place_width p) (fbo_h frame - place_y p)
  /\ (covers_output frame (frame_place g vd frame) = true
      <-> place_x p = 0 /\ place_y p = 0
          /\ place_width p = fbo_w frame /\ place_height p = fbo_h frame).
Proof.
  intros Hflip p Hw Hh Hxw Hy Hyh.
  assert (norm_rect (frame_place g vd frame)
          = mk_rect (place_x p) (fbo_h frame - (place_y p + place_height p))
              (place_x p + place_width p) (fbo_h frame - place_y p)) as Hn.
  { unfold norm_rect, frame_place. fold p. rewrite Hflip.
    cbn [place_x place_y place_width place_height].
    rewrite to_int_uint_add, to_int_uint_add_neg.
    unfold int_sub. rewrite (to_int_id _ Hy), (to_int_id _ Hxw), (to_int_id _ Hyh).
    unfold pl_rect2d_normalize. cbn [x0 y0 x1 y1]. f_equal; lia. }
  split; [unfold frame_cfg; now rewrite Hflip|]. split; [exact Hn|].
  unfold covers_output. rewrite Hn. unfold pl_rect2d_eq, full_rect.
  cbn [x0 y0 x1 y1]. rewrite !andb_true_iff, !Z.eqb_eq. lia.
Qed.

(** X15: On an unflipped swapchain the alignment is passed on as it is and the
    rectangle compared with the surface is the placement itself. *)
Theorem unflipped_placement_is_kept frame :
  flipped frame = false ->
  let p := vout_display_PlacePicture g (vd_fmt vd) (frame_cfg vd frame) in
  0 <= place_width p -> 0 <= place_height p ->
  CInt.in_int (place_x p + place_width p) ->
  CInt.in_int (place_y p + place_height p) ->
  align_vertical (frame_cfg vd frame) = align_vertical (vd_cfg vd)
  /\ frame_place g vd frame = p
  /\ norm_rect (frame_place g vd frame)
     = mk_rect (place_x p) (place_y p)
         (place_x p + place_width p) (place_y p + place_height p)
  /\ (covers_output frame (frame_place g vd frame) = true
      <-> place_x p = 0 /\ place_y p = 0
          /\ place_width p = fbo_w frame /\ place_height p = fbo_h frame).
Proof.
  intros Hflip p Hw Hh Hxw Hyh.
  assert (frame_place g vd frame = p) as Hp
    by (unfold frame_place; fold p; now rewrite Hflip).
  assert (norm_rect p
          = mk_rect (place_x p) (place_y p)
              (place_x p + place_width p) (place_y p + place_height p)) as Hn.
  { unfold norm_rect. rewrite !to_int_uint_add.
    rewrite (to_int_id _ Hxw), (to_int_id _ Hyh).
    unfold pl_rect2d_normalize. cbn [x0 y0 x1 y1]. f_equal; lia. }
  split; [unfold frame_cfg; now rewrite Hflip|]. split; [exact Hp|].
  rewrite Hp. split; [exact Hn|].
  unfold covers_output. rewrite Hn. unfold pl_rect2d_eq, full_rect.
  cbn [x0 y0 x1 y1]. rewrite !andb_true_iff, !Z.eqb_eq. lia.
Qed.

End Geometry_more.

(** ** The paths of a frame *)

Section Frame_paths.

Variable g : gpu.
Variable vd : vout_display_t.
Variable sys : vout_display_sys_t.
Variable pic : picture_t.
Variable subpicture : subpicture_t.

(** [PictureRender] takes one of the five paths. *)
Lemma PictureRender_path :
  frame_path g vd sys pic subpicture (PictureRender g vd sys pic subpicture).
Proof.
  unfold PictureRender.
  destruct (vlc_placebo_MakeCurrent_ok g) eqn:Hm; cbn [negb];
    [|now apply path_no_context].
  destruct (pl_swapchain_start_frame_ans g) as [frame|] eqn:Hf;
    [|now apply path_no_frame].
  unfold render_frame.
  destruct (upload_planes g _ pic _ 0 _ []) as [[[ok1 texs] filled] t1] eqn:Hu.
  destruct ok1; cbn [negb].
  2:{ eapply path_plane_failed; eassumption. }
  destruct (composite_overlays g _ _ subpicture _ _) as [[[ok2 sys2] tgt] t2] eqn:Hc.
  destruct ok2.
  2:{ eapply path_alloc_failed; eassumption. }
  fold (oriented_image vd pic filled).
  destruct (attach_lut sys2 (oriented_image vd pic filled) tgt) as [img tgt'] eqn:Ha.
  pose proof (path_dispatched g vd sys pic subpicture frame texs filled t1 sys2
                tgt t2 img tgt' Hm Hf Hu Hc Ha) as Hp.
  destruct (pl_render_image_ok g img tgt'); cbn [negb] in *.
  - exact Hp.
  - replace (t1 ++ t2 ++ clear_if_partial frame (frame_place g vd frame) ++
             [pl_render_image img tgt' false] ++ [msg_Err "Failed rendering frame!"])
      with (t1 ++ t2 ++ clear_if_partial frame (frame_place g vd frame) ++
            pl_render_image img tgt' false :: [msg_Err "Failed rendering frame!"])
      by reflexivity.
    exact Hp.
Qed.

End Frame_paths.

(** ** The plane loop *)

Section Plane_loop.

Variable g : gpu.
Variable loc : Z.
Variable pic : picture_t.

(** The plane loop uploads plane [k] of the picture into slot [k], handing
    in the texture the slot held; it keeps the length of the texture
    array; when every upload succeeds it fills in one plane per upload;
    the chroma offset is applied to plane [k] exactly when the chroma
    location is known, [k] is neither 0 nor 3 and the upload of plane [k]
    succeeded; and no plane is uploaded after a failed one. *)
Lemma upload_planes_spec todo : forall i texs filled,
  let '(ok, texs', filled', t) := upload_planes g loc pic todo i texs filled in
  length texs' = length texs
  /\ (ok = true -> length filled' = (length filled + todo)%nat)
  /\ (forall k tex d j okk,
         In (pl_upload_plane (PlaneSlot k) tex d j okk) t ->
         d = pic /\ j = k /\ (i <= k < i + todo)%nat /\ tex = mjoin (texs !! k))
  /\ (forall k,
         In (pl_chroma_location_offset k) t
         <-> loc <> PL_CHROMA_UNKNOWN /\ k <> 0%nat /\ k <> 3%nat
             /\ exists tex, In (pl_upload_plane (PlaneSlot k) tex pic k true) t)
  /\ (forall k tex,
         In (pl_upload_plane (PlaneSlot k) tex pic k false) t ->
         ok = false
         /\ forall k' tex' okk,
              In (pl_upload_plane (PlaneSlot k') tex' pic k' okk) t -> (k' <= k)%nat).
Proof.
  induction todo as [|todo IH]; intros i texs filled.
  - simpl. repeat split; try tauto; try lia; intros; try contradiction.
    destruct H as (_ & _ & _ & [tex []]).
  - simpl.
    destruct (pl_upload_plane_ans g (PlaneSlot i) (mjoin (texs !! i)) pic i)
      as [ok tex_out] eqn:Hu.
    destruct ok.
    + set (shifted := negb (loc =? PL_CHROMA_UNKNOWN) && negb (i =? 0)%nat
                      && negb (i =? 3)%nat).
      specialize (IH (S i) (<[i := tex_out]> texs)
                    (filled ++ [mk_plane tex_out (if shifted then Some loc else None)])).
      destruct (upload_planes g loc pic todo (S i) _ _) as [[[ok' texs''] filled'] t].
      destruct IH as (Hlen & Hfill & Hup & Hoff & Hstop).
      assert (shifted = true
              <-> loc <> PL_CHROMA_UNKNOWN /\ i <> 0%nat /\ i <> 3%nat) as Hsh.
      { subst shifted. rewrite !andb_true_iff, !negb_true_iff.
        rewrite Z.eqb_neq, !Nat.eqb_neq. tauto. }
      assert (forall e, In e (if shifted then [pl_chroma_location_offset i] else [])
                        -> e = pl_chroma_location_offset i /\ shifted = true) as Hin.
      { intros e He. destruct shifted; simpl in He; [|contradiction].
        destruct He as [<-|[]]. split; reflexivity. }
      split; [now rewrite Hlen, length_insert|].
      split; [intros Hok; rewrite (Hfill Hok), length_app; simpl; lia|].
      split; [|split].
      * intros k tex d j okk [H|H].
        -- inversion H; subst. repeat split; lia.
        -- apply in_app_iff in H. destruct H as [H|H];
             [apply Hin in H; destruct H as [H _]; discriminate H|].
           destruct (Hup _ _ _ _ _ H) as (-> & -> & Hk & ->).
           repeat split; try lia.
           rewrite list_lookup_insert_ne by lia. reflexivity.
      * intros k. split.
        -- intros [H|H]; [discriminate H|].
           apply in_app_iff in H. destruct H as [H|H].
           ++ apply Hin in H. destruct H as [H Hs]. inversion H; subst k.
              apply Hsh in Hs. destruct Hs as (H1 & H2 & H3).
              repeat split; try assumption.
              exists (mjoin (texs !! i)). left. reflexivity.
           ++ apply Hoff in H. destruct H as (H1 & H2 & H3 & tex & H4).
              repeat split; try assumption. exists tex. right.
              apply in_app_iff. right. exact H4.
        -- intros (H1 & H2 & H3 & tex & [H|H]).
           ++ inversion H; subst k. right. apply in_app_iff. left.
              replace shifted with true by (symmetry; apply Hsh; tauto).
              left. reflexivity.
           ++ apply in_app_iff in H. destruct H as [H|H];
                [apply Hin in H; destruct H as [H _]; discriminate H|].
              right. apply in_app_iff. right. apply Hoff.
              repeat split; try assumption. exists tex. exact H.
      * intros k tex [H|H]; [discriminate H|].
        apply in_app_iff in H. destruct H as [H|H];
          [apply Hin in H; destruct H as [H _]; discriminate H|].
        destruct (Hstop _ _ H) as [Hok' Hle]. split; [exact Hok'|].
        destruct (Hup _ _ _ _ _ H) as (_ & _ & Hk & _).
        intros k' tex' okk [H'|H'].
        -- inversion H'; subst. lia.
        -- apply in_app_iff in H'. destruct H' as [H'|H'];
             [apply Hin in H'; destruct H' as [H' _]; discriminate H'|].
           now apply (Hle k' tex' okk).
    + split; [now rewrite length_insert|]. split; [discriminate|].
      split; [|split].
      * intros k tex d j okk [H|[H|[]]]; [|discriminate H].
        inversion H; subst. repeat split; lia.
      * intros k. split.
        -- intros [H|[H|[]]]; discriminate H.
        -- intros (_ & _ & _ & tex & [H|[H|[]]]); discriminate H.
      * intros k tex [H|[H|[]]]; [|discriminate H].
        inversion H; subst. split; [reflexivity|].
        intros k' tex' okk [H'|[H'|[]]]; [|discriminate H'].
        inversion H'; subst. lia.
Qed.

End Plane_loop.

(** ** Whole frames *)

Section Frame_more.

Variable g : gpu.
Variable vd : vout_display_t.
Variable sys : vout_display_sys_t.
Variable pic : picture_t.
Variable subpicture : subpicture_t.

(** Settles [Q e -> p e = false] by cases on the call. *)
Ltac call_cases :=
  let e := fresh "e" in
  intros e; destruct e; simpl; try tauto;
  repeat match goal with
         | |- context [match ?x with _ => _ end] => destruct x; simpl; try tauto
         end.

Lemma plane_stage_occurs p loc todo i texs filled ok texs' filled' t1 :
  upload_planes g loc pic todo i texs filled = (ok, texs', filled', t1) ->
  (forall e, plane_call e -> p e = false) ->
  occurs p t1 = false.
Proof.
  intros Hu Hp. pose proof (upload_planes_calls g loc pic todo i texs filled) as Hc.
  rewrite Hu in Hc. destruct Hc as [Hc _]. exact (occurs_none _ _ _ Hp Hc).
Qed.

Lemma overlay_stage_occurs p place flip s target ok s2 tgt t2 :
  composite_overlays g place flip subpicture s target = (ok, s2, tgt, t2) ->
  (forall e, overlay_call e -> p e = false) ->
  occurs p t2 = false.
Proof.
  intros Hu Hp. pose proof (composite_overlays_calls g place flip subpicture s target) as Hc.
  rewrite Hu in Hc. destruct Hc as [Hc _]. exact (occurs_none _ _ _ Hp Hc).
Qed.

Lemma done_label_submit failed : count is_submit (done_label g failed) = 1%nat.
Proof.
  unfold done_label. destruct failed, (pl_swapchain_submit_frame_ok g); reflexivity.
Qed.

Lemma done_label_red failed :
  count is_red_clear (done_label g failed) = (if failed then 1 else 0)%nat.
Proof.
  unfold done_label. destruct failed, (pl_swapchain_submit_frame_ok g); reflexivity.
Qed.

(** X16: a frame is submitted exactly once when [PictureRender] acquired a
    swapchain frame and never otherwise; the surface is cleared to red
    exactly once when the frame failed and never otherwise; and when no
    frame could be acquired the state is untouched, nothing is uploaded,
    cleared or rendered, no error is logged and no failure is recorded. *)
Theorem frame_submitted_once_iff_acquired :
  let '(sys', t, failed) := PictureRender g vd sys pic subpicture in
  count is_submit t = (if frame_acquired g then 1 else 0)%nat
  /\ count is_red_clear t = (if failed then 1 else 0)%nat
  /\ (frame_acquired g = false ->
      sys' = sys /\ failed = false
      /\ occurs is_upload t = false /\ occurs is_clear t = false
      /\ occurs is_render t = false /\ occurs is_msg_Err t = false).
Proof.
  pose proof (PictureRender_path g vd sys pic subpicture) as Hp.
  remember (PictureRender g vd sys pic subpicture) as res eqn:Hres. clear Hres.
  unfold frame_acquired.
  destruct Hp as [Hm | Hm Hf | frame texs filled t1 Hm Hf Hu
                 | frame texs filled t1 sys2 tgt t2 Hm Hf Hu Hc
                 | frame texs filled t1 sys2 tgt t2 img tgt' Hm Hf Hu Hc Ha];
    rewrite Hm; try rewrite Hf; cbn [andb].
  - repeat split; reflexivity.
  - repeat split; reflexivity.
  - rewrite !count_app, done_label_submit, done_label_red.
    rewrite (count_none is_submit t1), (count_none is_red_clear t1)
      by (eapply plane_stage_occurs; [exact Hu|call_cases]).
    repeat split; try reflexivity; discriminate.
  - rewrite !count_app, done_label_submit, done_label_red.
    rewrite (count_none is_submit t1), (count_none is_red_clear t1)
      by (eapply plane_stage_occurs; [exact Hu|call_cases]).
    rewrite (count_none is_submit t2), (count_none is_red_clear t2)
      by (eapply overlay_stage_occurs; [exact Hc|call_cases]).
    repeat split; try reflexivity; discriminate.
  - rewrite !count_app, !count_cons, done_label_submit, done_label_red.
    rewrite (count_none is_submit t1), (count_none is_red_clear t1)
      by (eapply plane_stage_occurs; [exact Hu|call_cases]).
    rewrite (count_none is_submit t2), (count_none is_red_clear t2)
      by (eapply overlay_stage_occurs; [exact Hc|call_cases]).
    rewrite (count_none is_submit (clear_if_partial _ _)),
      (count_none is_red_clear (clear_if_partial _ _))
      by (apply clear_if_partial_occurs; reflexivity).
    cbn [is_submit is_red_clear].
    destruct (pl_render_image_ok g img tgt'); cbn [negb];
      repeat split; try reflexivity; discriminate.
Qed.

Lemma upload_planes_untouched loc todo : forall i texs filled j,
  (j < i \/ i + todo <= j)%nat ->
  (upload_planes g loc pic todo i texs filled).1.1.2 !! j = texs !! j.
Proof.
  induction todo as [|todo IH]; intros i texs filled j Hj; [reflexivity|].
  simpl.
  destruct (pl_upload_plane_ans g (PlaneSlot i) (mjoin (texs !! i)) pic i)
    as [ok tex_out].
  destruct ok.
  - match goal with |- context [upload_planes g loc pic todo ?a ?b ?c] =>
      specialize (IH a b c j);
      destruct (upload_planes g loc pic todo a b c) as [[[ok' texs''] filled'] t]
    end.
    cbn [fst snd] in *. rewrite IH by lia.
    apply list_lookup_insert_ne. lia.
  - cbn [fst snd]. apply list_lookup_insert_ne. lia.
Qed.

Lemma composite_overlays_configuration place flip s target ok s2 tgt t2 :
  composite_overlays g place flip subpicture s target = (ok, s2, tgt, t2) ->
  same_configuration s s2 /\ plane_tex s2 = plane_tex s
  /\ (subpicture = None -> s2 = s).
Proof.
  unfold composite_overlays. destruct subpicture as [regions|].
  2:{ intros H; inversion H; subst. repeat split; reflexivity. }
  destruct (grow_overlays g (length regions) s) as [[ok1 s1] t1] eqn:Hg.
  assert (same_configuration s s1 /\ plane_tex s1 = plane_tex s) as [Hc Hp].
  { unfold grow_overlays in Hg.
    destruct (num_overlays s <? length regions)%nat.
    - destruct (realloc (realloc_overlays_ok g) _ _ _),
        (realloc (realloc_overlay_tex_ok g) _ _ _);
        inversion Hg; subst; repeat split; reflexivity.
    - inversion Hg; subst. repeat split; reflexivity. }
  destruct ok1.
  - destruct (match regions with [] => _ | r :: _ => _ end) as [[[ovs texs] n] t2'].
    intros H; inversion H; subst. split; [|split]; [| |discriminate].
    + unfold same_configuration in *. simpl. tauto.
    + simpl. exact Hp.
  - intros H; inversion H; subst. split; [|split]; [exact Hc|exact Hp|discriminate].
Qed.

(** X17: rendering a frame never changes the renderer, the target colour
    space, the chroma location, the dither depth, the LUT, the shader hook,
    their cached paths or the LUT mode; the plane texture array keeps its
    length and the slots past the planes of the picture; and without a
    subpicture the overlay store is untouched. *)
Theorem frame_keeps_configuration :
  let sys' := (PictureRender g vd sys pic subpicture).1.1 in
  same_configuration sys sys'
  /\ length (plane_tex sys') = length (plane_tex sys)
  /\ (forall k, (i_planes pic <= k)%nat -> plane_tex sys' !! k = plane_tex sys !! k)
  /\ (subpicture = None ->
      overlays sys' = overlays sys /\ overlay_tex sys' = overlay_tex sys
      /\ num_overlays sys' = num_overlays sys).
Proof.
  pose proof (PictureRender_path g vd sys pic subpicture) as Hp.
  remember (PictureRender g vd sys pic subpicture) as res eqn:Hres. clear Hres.
  assert (forall ok texs filled t1,
             upload_planes g (yuv_chroma_loc sys) pic (i_planes pic) 0
               (plane_tex sys) [] = (ok, texs, filled, t1) ->
             length texs = length (plane_tex sys)
             /\ forall k, (i_planes pic <= k)%nat -> texs !! k = plane_tex sys !! k)
    as Hplanes.
  { intros ok texs filled t1 Hu. split.
    - pose proof (upload_planes_spec g (yuv_chroma_loc sys) pic (i_planes pic) 0
                    (plane_tex sys) []) as Hs.
      rewrite Hu in Hs. tauto.
    - intros k Hk.
      pose proof (upload_planes_untouched (yuv_chroma_loc sys) (i_planes pic) 0
                    (plane_tex sys) [] k) as Hs.
      rewrite Hu in Hs. apply Hs. lia. }
  destruct Hp as [Hm | Hm Hf | frame texs filled t1 Hm Hf Hu
                 | frame texs filled t1 sys2 tgt t2 Hm Hf Hu Hc
                 | frame texs filled t1 sys2 tgt t2 img tgt' Hm Hf Hu Hc Ha];
    cbn [fst snd].
  - repeat split; reflexivity.
  - repeat split; reflexivity.
  - destruct (Hplanes _ _ _ _ Hu) as [Hl Hk].
    repeat split; try reflexivity; assumption.
  - destruct (Hplanes _ _ _ _ Hu) as [Hl Hk].
    destruct (composite_overlays_configuration _ _ _ _ _ _ _ _ Hc) as (Hs & Hpt & Hn).
    split; [exact Hs|]. rewrite Hpt. cbn [plane_tex set_plane_tex].
    split; [exact Hl|]. split; [exact Hk|].
    intros Hnone. rewrite (Hn Hnone). repeat split; reflexivity.
  - destruct (Hplanes _ _ _ _ Hu) as [Hl Hk].
    destruct (composite_overlays_configuration _ _ _ _ _ _ _ _ Hc) as (Hs & Hpt & Hn).
    split; [exact Hs|]. rewrite Hpt. cbn [plane_tex set_plane_tex].
    split; [exact Hl|]. split; [exact Hk|].
    intros Hnone. rewrite (Hn Hnone). repeat split; reflexivity.
Qed.

Lemma not_In_of_occurs p e (t : trace) :
  p e = true -> occurs p t = false -> ~ In e t.
Proof.
  intros He Ho Hin. assert (occurs p t = true) as Ht by (apply occurs_In; eauto).
  congruence.
Qed.

Lemma In_middle p e (pre t1 post : trace) :
  p e = true -> occurs p pre = false -> occurs p post = false ->
  (In e (pre ++ t1 ++ post) <-> In e t1).
Proof.
  intros He Hpre Hpost. rewrite !in_app_iff.
  pose proof (not_In_of_occurs p e pre He Hpre).
  pose proof (not_In_of_occurs p e post He Hpost). tauto.
Qed.

Lemma done_label_occurs p failed :
  p (pl_tex_clear opaque_red) = false ->
  (forall ok, p (pl_swapchain_submit_frame ok) = false) ->
  (forall s, p (msg_Err s) = false) ->
  p vlc_placebo_ReleaseCurrent = false ->
  occurs p (done_label g failed) = false.
Proof.
  intros H1 H2 H3 H4. unfold done_label.
  destruct failed, (pl_swapchain_submit_frame_ok g); simpl;
    rewrite ?H1, ?H2, ?H3, ?H4; reflexivity.
Qed.

Lemma plane_stage_failure loc todo i texs filled ok texs' filled' t1 :
  upload_planes g loc pic todo i texs filled = (ok, texs', filled', t1) ->
  occurs is_plane_upload_failure t1 = negb ok.
Proof.
  intros Hu. pose proof (upload_planes_calls g loc pic todo i texs filled) as Hc.
  rewrite Hu in Hc. tauto.
Qed.

Lemma overlay_stage_failure place flip s target ok s2 tgt t2 :
  composite_overlays g place flip subpicture s target = (ok, s2, tgt, t2) ->
  occurs is_realloc_failure t2 = negb ok.
Proof.
  intros Hu. pose proof (composite_overlays_calls g place flip subpicture s target) as Hc.
  rewrite Hu in Hc. destruct Hc as [_ ->]. now rewrite negb_involutive.
Qed.

(** How the calls of the plane loop sit in the calls of a frame. *)
Lemma frame_path_planes res :
  frame_path g vd sys pic subpicture res ->
  let '(ok, _, _, t1) :=
    upload_planes g (yuv_chroma_loc sys) pic (i_planes pic) 0 (plane_tex sys) [] in
  (forall e, is_plane_loop_call e = true -> In e res.1.2 ->
             In e t1 /\ frame_acquired g = true)
  /\ (frame_acquired g = true -> forall e, In e t1 -> In e res.1.2)
  /\ (frame_acquired g = true -> ok = false ->
      res.2 = true /\ occurs is_render res.1.2 = false).
Proof.
  unfold frame_acquired.
  intros [Hm | Hm Hf | frame texs filled t1 Hm Hf Hu
         | frame texs filled t1 sys2 tgt t2 Hm Hf Hu Hc
         | frame texs filled t1 sys2 tgt t2 img tgt' Hm Hf Hu Hc Ha];
    rewrite Hm; try rewrite Hf; try rewrite Hu; cbn [andb fst snd].
  - destruct (upload_planes g _ pic _ 0 _ []) as [[[ok texs] filled] t1].
    split; [|split]; try discriminate.
    intros e He [<-|[]]. discriminate He.
  - destruct (upload_planes g _ pic _ 0 _ []) as [[[ok texs] filled] t1].
    split; [|split]; try discriminate.
    intros e He [<-|[<-|[<-|[]]]]; discriminate He.
  - split; [|split].
    + intros e He H. split; [|reflexivity].
      apply (In_middle is_plane_loop_call) in H; try assumption; try reflexivity.
      apply done_label_occurs; reflexivity.
    + intros _ e H. apply in_app_iff. right. apply in_app_iff. now left.
    + intros _ _. split; [reflexivity|].
      rewrite !occurs_app.
      rewrite (plane_stage_occurs is_render _ _ _ _ _ _ _ _ _ Hu) by call_cases.
      rewrite done_label_occurs by reflexivity. reflexivity.
  - split; [|split]; [| |discriminate].
    + intros e He H. split; [|reflexivity]. rewrite <- app_assoc in H.
      apply (In_middle is_plane_loop_call) in H; try assumption; try reflexivity.
      rewrite occurs_app.
      rewrite (overlay_stage_occurs is_plane_loop_call _ _ _ _ _ _ _ _ Hc) by call_cases.
      apply done_label_occurs; reflexivity.
    + intros _ e H. apply in_app_iff. right. rewrite !in_app_iff. tauto.
  - split; [|split]; [| |discriminate].
    + intros e He H. split; [|reflexivity]. rewrite <- app_assoc in H.
      apply (In_middle is_plane_loop_call) in H; try assumption; try reflexivity.
      rewrite !occurs_app, occurs_cons.
      rewrite (overlay_stage_occurs is_plane_loop_call _ _ _ _ _ _ _ _ Hc) by call_cases.
      rewrite clear_if_partial_occurs by reflexivity.
      rewrite done_label_occurs by reflexivity.
      destruct (pl_render_image_ok g img tgt'); reflexivity.
    + intros _ e H. apply in_app_iff. right. rewrite !in_app_iff. tauto.
Qed.

(** X18: plane [k] of the picture is uploaded into slot [k], from the
    picture being rendered and onto the texture the slot held before the
    frame, for [k] below the number of planes only; the chroma offset is
    applied to plane [k] exactly when the chroma location is known, [k] is
    neither 0 nor 3 and plane [k] was uploaded successfully; and a failed
    upload is the last one of the frame, which then fails without being
    rendered. *)
Theorem planes_uploaded_in_order_with_chroma_offset :
  let '(_, t, failed) := PictureRender g vd sys pic subpicture in
  (forall k tex d j ok,
      In (pl_upload_plane (PlaneSlot k) tex d j ok) t ->
      d = pic /\ j = k /\ (k < i_planes pic)%nat
      /\ tex = mjoin (plane_tex sys !! k))
  /\ (forall k,
        In (pl_chroma_location_offset k) t
        <-> yuv_chroma_loc sys <> PL_CHROMA_UNKNOWN /\ k <> 0%nat /\ k <> 3%nat
            /\ exists tex, In (pl_upload_plane (PlaneSlot k) tex pic k true) t)
  /\ (forall k tex,
        In (pl_upload_plane (PlaneSlot k) tex pic k false) t ->
        failed = true /\ occurs is_render t = false
        /\ forall k' tex' ok,
             In (pl_upload_plane (PlaneSlot k') tex' pic k' ok) t -> (k' <= k)%nat).
Proof.
  pose proof (frame_path_planes _ (PictureRender_path g vd sys pic subpicture)) as Hp.
  pose proof (upload_planes_spec g (yuv_chroma_loc sys) pic (i_planes pic) 0
                (plane_tex sys) []) as Hs.
  destruct (upload_planes g _ pic _ 0 _ []) as [[[ok1 texs] filled] t1].
  destruct (PictureRender g vd sys pic subpicture) as [[sys' t] failed].
  cbn [fst snd] in Hp. destruct Hp as (Hin & Hout & Hfail).
  destruct Hs as (_ & _ & Hup & Hoff & Hstop).
  split; [|split].
  - intros k tex d j ok H. apply Hin in H; [|reflexivity]. destruct H as [H _].
    destruct (Hup _ _ _ _ _ H) as (-> & -> & Hk & ->). repeat split. lia.
  - intros k. split.
    + intros H. apply Hin in H; [|reflexivity]. destruct H as [H Ha].
      apply Hoff in H. destruct H as (H1 & H2 & H3 & tex & H4).
      repeat split; try assumption. exists tex. now apply Hout.
    + intros (H1 & H2 & H3 & tex & H4).
      apply Hin in H4; [|reflexivity]. destruct H4 as [H4 Ha].
      apply (Hout Ha). apply Hoff. repeat split; try assumption. now exists tex.
  - intros k tex H. apply Hin in H; [|reflexivity]. destruct H as [H Ha].
    destruct (Hstop _ _ H) as [Hok Hle].
    destruct (Hfail Ha Hok) as [-> Hr]. repeat split; [exact Hr|].
    intros k' tex' ok H'. apply Hin in H'; [|reflexivity]. destruct H' as [H' _].
    now apply (Hle k' tex' ok).
Qed.

(** X19: [pl_render_image] is called at most once per frame, and exactly
    when a swapchain frame was acquired, no plane upload failed and no
    reallocation of the overlay arrays failed (a failed overlay upload does
    not stop it); every upload and reallocation of the frame comes before
    it, and the frame fails exactly when the call does. *)
Theorem frame_rendered_iff_stages_succeed :
  let '(_, t, failed) := PictureRender g vd sys pic subpicture in
  count is_render t
  = (if frame_acquired g && negb (occurs is_plane_upload_failure t)
        && negb (occurs is_realloc_failure t) then 1 else 0)%nat
  /\ (occurs is_render t = true ->
      exists pre img tgt ok post,
        t = pre ++ pl_render_image img tgt ok :: post
        /\ occurs is_upload post = false /\ occurs is_realloc post = false
        /\ failed = negb ok).
Proof.
  pose proof (PictureRender_path g vd sys pic subpicture) as Hp.
  remember (PictureRender g vd sys pic subpicture) as res eqn:Hres. clear Hres.
  unfold frame_acquired.
  destruct Hp as [Hm | Hm Hf | frame texs filled t1 Hm Hf Hu
                 | frame texs filled t1 sys2 tgt t2 Hm Hf Hu Hc
                 | frame texs filled t1 sys2 tgt t2 img tgt' Hm Hf Hu Hc Ha];
    rewrite Hm; try rewrite Hf; cbn [andb].
  - split; [reflexivity|discriminate].
  - split; [reflexivity|discriminate].
  - rewrite !count_app, !occurs_app.
    rewrite (plane_stage_failure _ _ _ _ _ _ _ _ _ Hu).
    rewrite (count_none is_render t1)
      by (eapply plane_stage_occurs; [exact Hu|call_cases]).
    rewrite (plane_stage_occurs is_render _ _ _ _ _ _ _ _ _ Hu) by call_cases.
    rewrite (count_none is_render (done_label g true)),
      (done_label_occurs is_render) by (try apply done_label_occurs; reflexivity).
    cbn [negb orb andb]. rewrite orb_true_r. split; [reflexivity|discriminate].
  - rewrite !count_app, !occurs_app.
    rewrite (overlay_stage_failure _ _ _ _ _ _ _ _ Hc).
    rewrite (count_none is_render t1)
      by (eapply plane_stage_occurs; [exact Hu|call_cases]).
    rewrite (plane_stage_occurs is_render _ _ _ _ _ _ _ _ _ Hu) by call_cases.
    rewrite (count_none is_render t2)
      by (eapply overlay_stage_occurs; [exact Hc|call_cases]).
    rewrite (overlay_stage_occurs is_render _ _ _ _ _ _ _ _ Hc) by call_cases.
    rewrite (count_none is_render (done_label g true)),
      (done_label_occurs is_render) by (try apply done_label_occurs; reflexivity).
    cbn [negb orb andb]. rewrite !orb_true_r, andb_false_r.
    split; [reflexivity|discriminate].
  - split.
    + rewrite !count_app, !count_cons, !occurs_app, !occurs_cons.
      rewrite (plane_stage_failure _ _ _ _ _ _ _ _ _ Hu).
      rewrite (overlay_stage_failure _ _ _ _ _ _ _ _ Hc).
      rewrite (count_none is_render t1)
        by (eapply plane_stage_occurs; [exact Hu|call_cases]).
      rewrite (count_none is_render t2)
        by (eapply overlay_stage_occurs; [exact Hc|call_cases]).
      rewrite (plane_stage_occurs is_realloc_failure _ _ _ _ _ _ _ _ _ Hu) by call_cases.
      rewrite (overlay_stage_occurs is_plane_upload_failure _ _ _ _ _ _ _ _ Hc)
        by call_cases.
      rewrite (count_none is_render (clear_if_partial _ _)),
        (clear_if_partial_occurs _ _ is_plane_upload_failure),
        (clear_if_partial_occurs _ _ is_realloc_failure)
        by (try apply clear_if_partial_occurs; reflexivity).
      rewrite (count_none is_render (done_label g _)),
        (done_label_occurs is_plane_upload_failure),
        (done_label_occurs is_realloc_failure)
        by (try apply done_label_occurs; reflexivity).
      destruct (pl_render_image_ok g img tgt'); reflexivity.
    + intros _.
      exists ([vlc_placebo_MakeCurrent true; pl_swapchain_start_frame true]
              ++ t1 ++ t2 ++ clear_if_partial frame (frame_place g vd frame)),
        img, tgt', (pl_render_image_ok g img tgt'),
        ((if pl_render_image_ok g img tgt' then []
          else [msg_Err "Failed rendering frame!"])
         ++ done_label g (negb (pl_render_image_ok g img tgt'))).
      split; [|split; [|split]].
      * rewrite <- !app_assoc. reflexivity.
      * rewrite occurs_app, done_label_occurs by reflexivity.
        destruct (pl_render_image_ok g img tgt'); reflexivity.
      * rewrite occurs_app, done_label_occurs by reflexivity.
        destruct (pl_render_image_ok g img tgt'); reflexivity.
      * reflexivity.
Qed.

Lemma upload_planes_filled loc todo : forall i texs filled,
  (i + todo <= length texs)%nat ->
  let '(ok, texs', filled', _) := upload_planes g loc pic todo i texs filled in
  ok = true ->
  exists news,
    filled' = filled ++ news /\ length news = todo
    /\ forall k, (k < todo)%nat ->
         exists pl, news !! k = Some pl
           /\ texs' !! (i + k)%nat = Some (texture pl)
           /\ shift pl
              = if negb (loc =? PL_CHROMA_UNKNOWN) && negb (i + k =? 0)%nat
                   && negb (i + k =? 3)%nat
                then Some loc else None.
Proof.
  induction todo as [|todo IH]; intros i texs filled Hlen.
  - simpl. intros _. exists []. rewrite app_nil_r.
    repeat split. intros k Hk. lia.
  - simpl.
    destruct (pl_upload_plane_ans g (PlaneSlot i) (mjoin (texs !! i)) pic i)
      as [ok tex_out].
    destruct ok; [|discriminate].
    set (shifted := negb (loc =? PL_CHROMA_UNKNOWN) && negb (i =? 0)%nat
                    && negb (i =? 3)%nat).
    set (plane := mk_plane tex_out (if shifted then Some loc else None)).
    specialize (IH (S i) (<[i := tex_out]> texs) (filled ++ [plane])).
    pose proof (upload_planes_untouched loc todo (S i) (<[i := tex_out]> texs)
                  (filled ++ [plane]) i) as Hkeep.
    destruct (upload_planes g loc pic todo (S i) _ _) as [[[ok' texs''] filled'] t].
    cbn [fst snd] in Hkeep.
    intros Hok. destruct IH as (news & Hf & Hn & Hk);
      [rewrite length_insert; lia|exact Hok|].
    exists (plane :: news). split; [now rewrite Hf, <- app_assoc|].
    split; [simpl; now rewrite Hn|].
    intros [|k] Hlt.
    + exists plane. rewrite Nat.add_0_r. split; [reflexivity|]. split.
      * rewrite Hkeep by lia. apply list_lookup_insert_eq. lia.
      * reflexivity.
    + destruct (Hk k) as (pl & H1 & H2 & H3); [lia|].
      exists pl. rewrite Nat.add_succ_r. repeat split; assumption.
Qed.

Lemma rendered_app (pre t : trace) :
  occurs is_render pre = false -> rendered (pre ++ t) = rendered t.
Proof.
  induction pre as [|e pre IH]; [reflexivity|].
  rewrite occurs_cons. intros H. apply orb_false_elim in H. destruct H as [He H].
  destruct e; try discriminate He; simpl; auto.
Qed.

Lemma rendered_none (t : trace) : occurs is_render t = false -> rendered t = None.
Proof.
  intros H. rewrite <- (app_nil_r t). now rewrite rendered_app.
Qed.

Lemma occurs_weaken (p q : event -> bool) (t : trace) :
  (forall e, p e = true -> q e = true) ->
  occurs q t = false -> occurs p t = false.
Proof.
  intros Hpq Hq. destruct (occurs p t) eqn:Hp; [|reflexivity].
  apply occurs_In in Hp. destruct Hp as (e & Hin & He).
  assert (occurs q t = true) by (apply occurs_In; eauto). congruence.
Qed.

(** What a frame that reached [pl_render_image] went through. *)
Lemma frame_path_rendered res img tgt :
  frame_path g vd sys pic subpicture res ->
  rendered res.1.2 = Some (img, tgt) ->
  exists frame texs filled t1 sys2 tgt0 t2 post,
    pl_swapchain_start_frame_ans g = Some frame
    /\ upload_planes g (yuv_chroma_loc sys) pic (i_planes pic) 0 (plane_tex sys) []
       = (true, texs, filled, t1)
    /\ composite_overlays g (frame_place g vd frame) (flipped frame) subpicture
         (set_plane_tex texs sys)
         (frame_target (set_plane_tex texs sys) frame (frame_place g vd frame))
       = (true, sys2, tgt0, t2)
    /\ attach_lut sys2 (oriented_image vd pic filled) tgt0 = (img, tgt)
    /\ res.1.1 = sys2
    /\ res.1.2 = [vlc_placebo_MakeCurrent true; pl_swapchain_start_frame true]
                 ++ t1 ++ t2 ++ post
    /\ occurs is_upload post = false.
Proof.
  intros [Hm | Hm Hf | frame texs filled t1 Hm Hf Hu
         | frame texs filled t1 sys2 tgt0 t2 Hm Hf Hu Hc
         | frame texs filled t1 sys2 tgt0 t2 img' tgt' Hm Hf Hu Hc Ha];
    cbn [fst snd]; intros Hr.
  - discriminate Hr.
  - discriminate Hr.
  - rewrite rendered_none in Hr; [discriminate Hr|].
    rewrite !occurs_app.
    rewrite (plane_stage_occurs is_render _ _ _ _ _ _ _ _ _ Hu) by call_cases.
    rewrite done_label_occurs by reflexivity. reflexivity.
  - rewrite rendered_none in Hr; [discriminate Hr|].
    rewrite !occurs_app.
    rewrite (plane_stage_occurs is_render _ _ _ _ _ _ _ _ _ Hu) by call_cases.
    rewrite (overlay_stage_occurs is_render _ _ _ _ _ _ _ _ Hc) by call_cases.
    rewrite done_label_occurs by reflexivity. reflexivity.
  - rewrite <- !app_assoc in Hr.
    rewrite (rendered_app [_; _]) in Hr by reflexivity.
    rewrite (rendered_app t1) in Hr
      by (eapply plane_stage_occurs; [exact Hu|call_cases]).
    rewrite (rendered_app t2) in Hr
      by (eapply overlay_stage_occurs; [exact Hc|call_cases]).
    rewrite (rendered_app (clear_if_partial _ _)) in Hr
      by (apply clear_if_partial_occurs; reflexivity).
    simpl in Hr. inversion Hr; subst img' tgt'.
    exists frame, texs, filled, t1, sys2, tgt0, t2,
      (clear_if_partial frame (frame_place g vd frame)
       ++ pl_render_image img tgt (pl_render_image_ok g img tgt)
          :: (if pl_render_image_ok g img tgt then []
              else [msg_Err "Failed rendering frame!"])
       ++ done_label g (negb (pl_render_image_ok g img tgt))).
    repeat split; try assumption.
    + rewrite <- !app_assoc. reflexivity.
    + rewrite !occurs_app, occurs_cons, occurs_app.
      rewrite clear_if_partial_occurs, done_label_occurs by reflexivity.
      destruct (pl_render_image_ok g img tgt); reflexivity.
Qed.

Lemma orient_keeps o img :
  num_planes (orient o img) = num_planes img
  /\ planes (orient o img) = planes img
  /\ img_color_repr_of (orient o img) = img_color_repr_of img
  /\ img_lut_type (orient o img) = img_lut_type img
  /\ img_lut (orient o img) = img_lut img.
Proof. destruct o; repeat split; reflexivity. Qed.

Lemma composite_overlays_target place flip s target ok s2 tgt t2 :
  composite_overlays g place flip subpicture s target = (ok, s2, tgt, t2) ->
  dst_rect tgt = dst_rect target /\ color tgt = color target
  /\ bits tgt = bits target /\ tgt_lut_type tgt = tgt_lut_type target
  /\ tgt_lut tgt = tgt_lut target.
Proof.
  unfold composite_overlays. destruct subpicture as [regions|].
  2:{ intros H; inversion H; subst. repeat split; reflexivity. }
  destruct (grow_overlays g (length regions) s) as [[[] s1] t1].
  - destruct (match regions with [] => _ | r :: _ => _ end) as [[[ovs texs] n] t2'].
    intros H; inversion H; subst. repeat split; reflexivity.
  - intros H; inversion H; subst. repeat split; reflexivity.
Qed.

(** X21: what a frame hands to [pl_render_image], in the build without
    the DoVi metadata (PL_API_VER below 185).  The image has the number
    of planes of the picture and the colour description of the display
    format; its crop is the visible rectangle of the picture, from the
    offsets to the offsets plus the visible sizes, with the edges exchanged
    and the rotation set as the orientation of the display format asks;
    plane [k] is the texture now cached in slot [k] and carries the chroma
    location exactly when the location is known and [k] is neither 0 nor
    3.  The rectangle of the target goes from the corner of the placement
    to that corner plus its size. *)
Theorem rendered_frame_description img tgt :
  (i_planes pic <= length (plane_tex sys))%nat ->
  rendered (PictureRender g vd sys pic subpicture).1.2 = Some (img, tgt) ->
  let sys' := (PictureRender g vd sys pic subpicture).1.1 in
  let loc := yuv_chroma_loc sys in
  let f := format pic in
  let left := F32.of_int (i_x_offset f) in
  let top := F32.of_int (i_y_offset f) in
  let right := F32.of_int (uint_add (i_x_offset f) (i_visible_width f)) in
  let bottom := F32.of_int (uint_add (i_y_offset f) (i_visible_height f)) in
  num_planes img = i_planes pic
  /\ img_color_repr_of img = vd_fmt vd
  /\ (rotation img, src_rect img)
     = match orientation (vd_fmt vd) with
       | ORIENT_NORMAL => (PL_ROTATION_0, mk_rect left top right bottom)
       | ORIENT_HFLIPPED => (PL_ROTATION_0, mk_rect right top left bottom)
       | ORIENT_VFLIPPED => (PL_ROTATION_0, mk_rect left bottom right top)
       | ORIENT_ROTATED_90 => (PL_ROTATION_90, mk_rect left top right bottom)
       | ORIENT_ROTATED_180 => (PL_ROTATION_180, mk_rect left top right bottom)
       | ORIENT_ROTATED_270 => (PL_ROTATION_270, mk_rect left top right bottom)
       | ORIENT_TRANSPOSED => (PL_ROTATION_90, mk_rect left bottom right top)
       | ORIENT_ANTI_TRANSPOSED =>
           (PL_ROTATION_90, mk_rect right top left bottom)
       end
  /\ length (planes img) = i_planes pic
  /\ (forall k, (k < i_planes pic)%nat ->
        exists pl, planes img !! k = Some pl
          /\ plane_tex sys' !! k = Some (texture pl)
          /\ shift pl
             = if negb (loc =? PL_CHROMA_UNKNOWN) && negb (k =? 0)%nat
                  && negb (k =? 3)%nat
               then Some loc else None)
  /\ (exists frame,
        pl_swapchain_start_frame_ans g = Some frame
        /\ let place := frame_place g vd frame in
           dst_rect tgt
           = mk_rect (F32.of_int (place_x place)) (F32.of_int (place_y place))
               (F32.of_int (uint_add (place_x place) (place_width place)))
               (F32.of_int (uint_add (place_y place) (place_height place)))).
Proof.
  intros Hlen Hr sys' loc f left top right bottom.
  subst sys' loc f left top right bottom.
  destruct (frame_path_rendered _ img tgt (PictureRender_path g vd sys pic subpicture) Hr)
    as (frame & texs & filled & t1 & sys2 & tgt0 & t2 & post
        & Hf & Hu & Hc & Ha & Hsys & _ & _).
  rewrite Hsys. clear Hr Hsys.
  pose proof (upload_planes_filled (yuv_chroma_loc sys) (i_planes pic) 0
                (plane_tex sys) [] Hlen) as Hfill.
  rewrite Hu in Hfill. destruct (Hfill eq_refl) as (news & Hnews & Hn & Hk).
  simpl in Hnews. subst news. clear Hfill.
  destruct (composite_overlays_configuration _ _ _ _ _ _ _ _ Hc) as (_ & Hpt & _).
  destruct (composite_overlays_target _ _ _ _ _ _ _ _ Hc) as (Hd & _).
  cbn [plane_tex set_plane_tex] in Hpt.
  cbn [dst_rect frame_target] in Hd.
  assert (num_planes img = num_planes (oriented_image vd pic filled)
          /\ img_color_repr_of img = img_color_repr_of (oriented_image vd pic filled)
          /\ rotation img = rotation (oriented_image vd pic filled)
          /\ src_rect img = src_rect (oriented_image vd pic filled)
          /\ planes img = planes (oriented_image vd pic filled)
          /\ dst_rect tgt = dst_rect tgt0) as (-> & -> & -> & -> & -> & ->)
    by (unfold attach_lut in Ha; destruct (lut_mode sys2); inversion Ha;
        repeat split; reflexivity).
  rewrite Hd, Hpt.
  assert (planes (oriented_image vd pic filled) = filled) as ->
    by (unfold oriented_image; destruct (orientation (vd_fmt vd)); reflexivity).
  split; [unfold oriented_image; destruct (orientation (vd_fmt vd)); reflexivity|].
  split; [unfold oriented_image; destruct (orientation (vd_fmt vd)); reflexivity|].
  split; [unfold oriented_image; destruct (orientation (vd_fmt vd)); reflexivity|].
  split; [exact Hn|]. split; [exact Hk|].
  exists frame. split; [exact Hf|reflexivity].
Qed.

Lemma upload_regions_count place flip r todo : forall i ovs texs,
  let '(_, _, n, t) := upload_regions g place flip r todo i ovs texs in
  (i <= n <= i + todo)%nat
  /\ count is_region_upload_ok t = (n - i)%nat
  /\ count is_region_upload_failure t
     = (if (n =? i + todo)%nat then 0 else 1)%nat.
Proof.
  induction todo as [|todo IH]; intros i ovs texs.
  - simpl. rewrite Nat.add_0_r, Nat.eqb_refl, Nat.sub_diag.
    repeat split; lia.
  - simpl.
    destruct (pl_upload_plane_ans g (OverlaySlot i) (mjoin (texs !! i))
                (p_picture r) 0) as [ok tex_out].
    destruct ok.
    + match goal with |- context [upload_regions g place flip r todo ?a ?b ?c] =>
        specialize (IH a b c);
        destruct (upload_regions g place flip r todo a b c) as [[[ovs' texs'] n] t]
      end.
      destruct IH as (Hn & Hok & Hfail).
      rewrite !count_cons, Hok, Hfail. cbn [is_region_upload_ok is_region_upload_failure].
      rewrite Nat.add_succ_r. repeat split; lia.
    + rewrite !count_cons. cbn [is_region_upload_ok is_region_upload_failure count
                                 List.filter length].
      rewrite Nat.sub_diag.
      destruct (Nat.eqb_spec i (i + S todo)) as [He|_]; [lia|].
      repeat split; lia.
Qed.

Lemma composite_overlays_count place flip s target ok s2 tgt t2 :
  overlay_store_ok s ->
  composite_overlays g place flip subpicture s target = (ok, s2, tgt, t2) ->
  ok = true -> tgt_overlays target = [] ->
  length (tgt_overlays tgt) = count is_region_upload_ok t2
  /\ (length (tgt_overlays tgt) <= length (default [] subpicture))%nat
  /\ count is_region_upload_failure t2
     = (if (length (tgt_overlays tgt) =? length (default [] subpicture))%nat
        then 0 else 1)%nat.
Proof.
  intros Hstore. unfold composite_overlays. destruct subpicture as [regions|].
  2:{ intros H _ Hnil; inversion H; subst. rewrite Hnil. repeat split.
      simpl. lia. }
  pose proof (grow_overlays_store_ok g (length regions) s Hstore) as Hs.
  pose proof (grow_overlays_calls g (length regions) s) as Hcalls.
  assert ((grow_overlays g (length regions) s).1.1 = true ->
          (length regions
           <= num_overlays (grow_overlays g (length regions) s).1.2)%nat)
    as Hroom.
  { unfold grow_overlays.
    destruct (Nat.ltb_spec (num_overlays s) (length regions))
      as [Hlt|Hge]; [|intros _; exact Hge].
    unfold realloc.
    destruct (realloc_overlays_ok g), (realloc_overlay_tex_ok g); simpl;
      try discriminate. intros _. lia. }
  destruct (grow_overlays g (length regions) s) as [[ok1 sys1] t1].
  cbn [fst snd] in *. destruct Hcalls as (_ & _ & _ & Hall).
  destruct ok1; [|intros H Hok; rewrite Hok in H; discriminate H].
  specialize (Hroom eq_refl). destruct Hs as [Hso _].
  assert (forall p, (forall e, is_realloc e = true -> p e = false) ->
                    count p t1 = 0%nat) as Hnone.
  { intros p Hp. apply count_none.
    exact (occurs_none (fun e => is_realloc e = true) p t1 Hp Hall). }
  destruct regions as [|r regions].
  - intros H _ _; inversion H; subst. cbn [tgt_overlays default length].
    rewrite take_0, app_nil_r, !Hnone
      by (intros e; destruct e; simpl; try discriminate; reflexivity).
    repeat split. simpl. lia.
  - pose proof (upload_regions_count place flip r (length (r :: regions)) 0
                  (default [] (overlays sys1)) (default [] (overlay_tex sys1)))
      as Hcount.
    pose proof (upload_regions_spec g place flip r (length (r :: regions)) 0
                  (default [] (overlays sys1)) (default [] (overlay_tex sys1)))
      as Hspec.
    destruct (upload_regions g place flip r _ 0 _ _) as [[[ovs texs] n] t2'].
    destruct Hcount as (Hn & Hok & Hfail).
    destruct Hspec as (_ & Hlo & _).
    intros H _ _; inversion H; subst. cbn [tgt_overlays default].
    assert (length (take n ovs) = n) as Hlen
      by (rewrite length_take; lia).
    rewrite Hlen, !count_app, Hok, Hfail, !Hnone
      by (intros e; destruct e; simpl; try discriminate; reflexivity).
    rewrite Nat.sub_0_r. repeat split. simpl in Hn |- *. lia.
Qed.

(** X23: on an overlay store with room for its capacity, the number of
    overlays handed to [pl_render_image] is the number of region uploads
    of the frame that succeeded; it never exceeds the number of regions of
    the subpicture (none without a subpicture); and at most one region
    upload fails per frame, exactly when fewer overlays than regions are
    composited. *)
Theorem overlays_composited_are_uploads_that_succeeded img tgt :
  overlay_store_ok sys ->
  rendered (PictureRender g vd sys pic subpicture).1.2 = Some (img, tgt) ->
  let t := (PictureRender g vd sys pic subpicture).1.2 in
  length (tgt_overlays tgt) = count is_region_upload_ok t
  /\ (length (tgt_overlays tgt) <= length (default [] subpicture))%nat
  /\ count is_region_upload_failure t
     = (if (length (tgt_overlays tgt) =? length (default [] subpicture))%nat
        then 0 else 1)%nat.
Proof.
  intros Hstore Hr t. subst t.
  destruct (frame_path_rendered _ img tgt (PictureRender_path g vd sys pic subpicture) Hr)
    as (frame & texs & filled & t1 & sys2 & tgt0 & t2 & post
        & Hf & Hu & Hc & Ha & _ & Ht & Hpost).
  rewrite Ht. clear Hr Ht.
  assert (tgt_overlays tgt = tgt_overlays tgt0) as ->
    by (unfold attach_lut in Ha; destruct (lut_mode sys2); inversion Ha; reflexivity).
  assert (overlay_store_ok (set_plane_tex texs sys)) as Hstore' by exact Hstore.
  destruct (composite_overlays_count _ _ _ _ _ _ _ _ Hstore' Hc eq_refl eq_refl)
    as (Hlen & Hle & Hfail).
  assert (forall p, (forall e, p e = true -> is_upload e = true) ->
                    (forall e, plane_call e -> p e = false) ->
                    count p ([vlc_placebo_MakeCurrent true;
                              pl_swapchain_start_frame true] ++ t1 ++ t2 ++ post)
                    = count p t2) as Hmid.
  { intros p Hup Hplane. rewrite !count_app.
    rewrite (count_none p t1)
      by (eapply plane_stage_occurs; [exact Hu|exact Hplane]).
    rewrite (count_none p post) by (eapply occurs_weaken; [exact Hup|exact Hpost]).
    rewrite (count_none p [_; _]); [lia|].
    destruct (occurs p [_; _]) eqn:Ho; [|reflexivity].
    apply occurs_In in Ho. destruct Ho as (e & [<-|[<-|[]]] & He);
      apply Hup in He; discriminate He. }
  rewrite !Hmid by (intros e; destruct e; simpl; try tauto; try discriminate;
                    repeat match goal with
                           | |- context [match ?x with _ => _ end] =>
                               destruct x; simpl; try tauto; try discriminate
                           end).
  repeat split; assumption.
Qed.

(** Where a frame that is rendered carries the LUT of the state. *)
Lemma rendered_luts img tgt :
  rendered (PictureRender g vd sys pic subpicture).1.2 = Some (img, tgt) ->
  (img_lut img, img_lut_type img, (tgt_lut tgt, tgt_lut_type tgt))
  = match lut_mode sys with
    | LUT_DECODING => (lut sys, PL_LUT_CONVERSION, (None, PL_LUT_UNKNOWN))
    | LUT_ENCODING => (None, PL_LUT_UNKNOWN, (lut sys, PL_LUT_CONVERSION))
    | _ => (None, PL_LUT_UNKNOWN, (None, PL_LUT_UNKNOWN))
    end.
Proof.
  intros Hr.
  destruct (frame_path_rendered _ img tgt (PictureRender_path g vd sys pic subpicture) Hr)
    as (frame & texs & filled & t1 & sys2 & tgt0 & t2 & post
        & Hf & Hu & Hc & Ha & _ & _ & _).
  destruct (composite_overlays_configuration _ _ _ _ _ _ _ _ Hc) as (Hcfg & _ & _).
  destruct (composite_overlays_target _ _ _ _ _ _ _ _ Hc)
    as (_ & _ & _ & Hlt & Hl).
  destruct Hcfg as (_ & _ & _ & _ & Hlut & _ & Hmode & _).
  cbn [lut lut_mode set_plane_tex] in Hlut, Hmode.
  cbn [tgt_lut_type tgt_lut frame_target] in Hlt, Hl.
  assert (img_lut_type (oriented_image vd pic filled) = PL_LUT_UNKNOWN
          /\ img_lut (oriented_image vd pic filled) = None) as [Hity Hil]
    by (unfold oriented_image; destruct (orientation (vd_fmt vd)); split; reflexivity).
  unfold attach_lut in Ha. rewrite Hmode, Hlut in Ha.
  destruct (lut_mode sys); inversion Ha; subst img tgt;
    cbn [img_lut_type img_lut tgt_lut_type tgt_lut];
    rewrite ?Hity, ?Hil, ?Hlt, ?Hl; reflexivity.
Qed.

(** X22: where a rendered frame carries a loaded LUT.  In the decoding
    mode the image handed to [pl_render_image] carries it, as a conversion
    LUT, and the target carries none; in the encoding mode the target
    carries it, as a conversion LUT, and the image carries none; in every
    other mode neither the image nor the target carries a LUT. *)
Theorem lut_attached_by_mode l img tgt :
  lut sys = Some l ->
  rendered (PictureRender g vd sys pic subpicture).1.2 = Some (img, tgt) ->
  ((img_lut img, img_lut_type img), (tgt_lut tgt, tgt_lut_type tgt))
  = match lut_mode sys with
    | LUT_DECODING => ((Some l, PL_LUT_CONVERSION), (None, PL_LUT_UNKNOWN))
    | LUT_ENCODING => ((None, PL_LUT_UNKNOWN), (Some l, PL_LUT_CONVERSION))
    | LUT_DISABLED | LUT_NATIVE | LUT_LINEAR | LUT_CONVERSION =>
        ((None, PL_LUT_UNKNOWN), (None, PL_LUT_UNKNOWN))
    end.
Proof.
  intros Hl Hr. pose proof (rendered_luts img tgt Hr) as H.
  rewrite Hl in H.
  destruct (lut_mode sys); inversion H; reflexivity.
Qed.

End Frame_more.

(** ** The context and the calls that need it *)

Section Context_discipline.

Lemma current_after_cons held e (t : trace) :
  current_after held (e :: t) = current_after (current_after held [e]) t.
Proof. destruct e; try destruct ok; reflexivity. Qed.

Lemma gpu_calls_guarded_app held (t1 t2 : trace) :
  gpu_calls_guarded held (t1 ++ t2)
  = gpu_calls_guarded held t1 && gpu_calls_guarded (current_after held t1) t2.
Proof.
  revert held. induction t1 as [|e t1 IH]; intros held; [reflexivity|].
  cbn [app gpu_calls_guarded]. rewrite IH, (current_after_cons held e t1).
  now rewrite andb_assoc.
Qed.

Lemma held_segment_neutral (t : trace) : no_context_call t -> held_segment t.
Proof.
  induction 1 as [|e t He _ [IH1 IH2]]; [split; reflexivity|].
  split.
  - cbn [gpu_calls_guarded orb andb].
    destruct e; try contradiction; exact IH1.
  - destruct e; try contradiction; exact IH2.
Qed.

Lemma held_segment_app (t1 t2 : trace) :
  held_segment t1 -> held_segment t2 -> held_segment (t1 ++ t2).
Proof.
  intros [G1 C1] [G2 C2]. split.
  - now rewrite gpu_calls_guarded_app, G1, C1, G2.
  - now rewrite current_after_app, C1, C2.
Qed.

Lemma no_context_call_of (Q : event -> Prop) (t : trace) :
  (forall e, Q e ->
     match e with
     | vlc_placebo_MakeCurrent _ | vlc_placebo_ReleaseCurrent => False
     | _ => True
     end) ->
  List.Forall Q t -> no_context_call t.
Proof. intros HQ Ht. eapply List.Forall_impl; [exact HQ|exact Ht]. Qed.

Lemma done_label_guarded g failed :
  gpu_calls_guarded true (done_label g failed) = true.
Proof.
  unfold done_label. destruct failed, (pl_swapchain_submit_frame_ok g); reflexivity.
Qed.

Lemma destroy_textures_held n texs : held_segment (destroy_textures n texs).2.
Proof.
  apply held_segment_neutral. unfold destroy_textures. simpl.
  apply List.Forall_forall. intros e He. apply in_map_iff in He.
  destruct He as [i [<- _]]. exact I.
Qed.

Lemma PictureRender_guarded g vd sys pic subpicture :
  gpu_calls_guarded false (PictureRender g vd sys pic subpicture).1.2 = true.
Proof.
  assert (forall loc todo i texs filled ok texs' filled' t1,
             upload_planes g loc pic todo i texs filled = (ok, texs', filled', t1) ->
             held_segment t1) as Hplanes.
  { intros loc todo i texs filled ok texs' filled' t1 Hu.
    pose proof (upload_planes_calls g loc pic todo i texs filled) as Hc.
    rewrite Hu in Hc. destruct Hc as [Hc _].
    apply held_segment_neutral. eapply no_context_call_of; [|exact Hc].
    intros e. destruct e; simpl; tauto. }
  assert (forall place flip s target ok s2 tgt t2,
             composite_overlays g place flip subpicture s target = (ok, s2, tgt, t2) ->
             held_segment t2) as Hoverlays.
  { intros place flip s target ok s2 tgt t2 Hu.
    pose proof (composite_overlays_calls g place flip subpicture s target) as Hc.
    rewrite Hu in Hc. destruct Hc as [Hc _].
    apply held_segment_neutral. eapply no_context_call_of; [|exact Hc].
    intros e. destruct e; simpl; tauto. }
  pose proof (PictureRender_path g vd sys pic subpicture) as Hp.
  remember (PictureRender g vd sys pic subpicture) as res eqn:Hres. clear Hres.
  destruct Hp as [Hm | Hm Hf | frame texs filled t1 Hm Hf Hu
                 | frame texs filled t1 sys2 tgt t2 Hm Hf Hu Hc
                 | frame texs filled t1 sys2 tgt t2 img tgt' Hm Hf Hu Hc Ha];
    cbn [fst snd]; try reflexivity.
  - destruct (Hplanes _ _ _ _ _ _ _ _ _ Hu) as [G1 C1].
    cbn [app gpu_calls_guarded current_after is_gpu_call orb negb andb].
    now rewrite gpu_calls_guarded_app, G1, C1, done_label_guarded.
  - destruct (held_segment_app _ _ (Hplanes _ _ _ _ _ _ _ _ _ Hu)
                (Hoverlays _ _ _ _ _ _ _ _ Hc)) as [G1 C1].
    cbn [app gpu_calls_guarded current_after is_gpu_call orb negb andb].
    now rewrite gpu_calls_guarded_app, G1, C1, done_label_guarded.
  - assert (held_segment
              (clear_if_partial frame (frame_place g vd frame)
               ++ pl_render_image img tgt' (pl_render_image_ok g img tgt')
                  :: (if pl_render_image_ok g img tgt' then []
                      else [msg_Err "Failed rendering frame!"]))) as H3.
    { apply held_segment_neutral, List.Forall_app. split.
      - unfold clear_if_partial. destruct (negb _); repeat constructor.
      - destruct (pl_render_image_ok g img tgt'); repeat constructor. }
    destruct (held_segment_app _ _ (Hplanes _ _ _ _ _ _ _ _ _ Hu)
                (held_segment_app _ _ (Hoverlays _ _ _ _ _ _ _ _ Hc) H3))
      as [G1 C1].
    cbn [app gpu_calls_guarded current_after is_gpu_call orb negb andb].
    now rewrite gpu_calls_guarded_app, G1, C1, done_label_guarded.
Qed.

Lemma Close_guarded g sys : gpu_calls_guarded false (Close g sys).2 = true.
Proof.
  unfold Close.
  destruct (vlc_placebo_MakeCurrent_ok g).
  - pose proof (destroy_textures_held 4 (plane_tex sys)) as Hp.
    destruct (destroy_textures 4 (plane_tex sys)) as [ptex tp].
    cbn [snd] in Hp.
    assert (forall to tail,
               held_segment to ->
               gpu_calls_guarded false tail = true ->
               gpu_calls_guarded false
                 (([vlc_placebo_MakeCurrent true] ++ tp ++ to
                   ++ [pl_renderer_destroy (renderer sys);
                       vlc_placebo_ReleaseCurrent]) ++ tail) = true) as Hall.
    { intros to tail Ho Ht. destruct (held_segment_app _ _ Hp Ho) as [G C].
      rewrite <- !app_assoc.
      cbn [app gpu_calls_guarded current_after is_gpu_call orb negb andb].
      rewrite app_assoc, gpu_calls_guarded_app, G, C.
      cbn [app gpu_calls_guarded current_after orb andb]. exact Ht. }
    destruct (overlay_tex sys) as [texs|].
    + pose proof (destroy_textures_held (num_overlays sys) texs) as Ho.
      destruct (destroy_textures (num_overlays sys) texs) as [texs' to].
      cbn [fst snd] in *. apply Hall; [exact Ho|].
      cbn [overlays set_hook set_lut set_renderer set_overlay_store set_plane_tex].
      destruct (overlays sys); reflexivity.
    + cbn [fst snd] in *. apply Hall.
      * apply held_segment_neutral, List.Forall_forall.
        intros e He. apply in_map_iff in He. destruct He as [i [<- _]]. exact I.
      * cbn [overlays set_hook set_lut set_renderer set_overlay_store set_plane_tex].
        destruct (overlays sys); reflexivity.
  - cbn [fst snd]. destruct (overlays sys); reflexivity.
Qed.

(** X10: the context discipline of the four display callbacks.  In
    [PictureRender], [PictureDisplay], [Control] and [Close] every call
    that is handed the GPU, the swapchain or the renderer is made while the
    thread holds the context, and the function returns with the context
    released. *)
Theorem gpu_calls_hold_the_context :
  (forall g vd sys pic subpicture,
      let t := (PictureRender g vd sys pic subpicture).1.2 in
      gpu_calls_guarded false t = true /\ current_after false t = false)
  /\ (forall g,
        gpu_calls_guarded false (PictureDisplay g) = true
        /\ current_after false (PictureDisplay g) = false)
  /\ (forall g vd query,
        gpu_calls_guarded false (Control g vd query).2 = true
        /\ current_after false (Control g vd query).2 = false)
  /\ (forall g sys,
        gpu_calls_guarded false (Close g sys).2 = true
        /\ current_after false (Close g sys).2 = false).
Proof.
  split; [|split; [|split]].
  - intros g vd sys pic subpicture. split.
    + apply PictureRender_guarded.
    + apply PictureRender_releases.
  - intros g. split; [|apply PictureDisplay_releases].
    unfold PictureDisplay. destruct (vlc_placebo_MakeCurrent_ok g); reflexivity.
  - intros g vd query. split; [|apply Control_releases].
    destruct query; simpl; try reflexivity.
    destruct (vlc_placebo_MakeCurrent_ok g); reflexivity.
  - intros g sys. split; [apply Close_guarded|apply Close_releases].
Qed.

End Context_discipline.

(** ** From the configuration to the render target *)

Section Target_configuration.

Variable g : gpu.
Variable w : libc.
Variable cfg : config.
Variable vd : vout_display_t.
Variable sys0 : vout_display_sys_t.
Variable pic : picture_t.
Variable subpicture : subpicture_t.

Lemma override_dither_depth_fields d b :
  (d <= 0 -> override_dither_depth d b = b)
  /\ (0 < d ->
      sample_depth (override_dither_depth d b) = d
      /\ bit_shift (override_dither_depth d b) = bit_shift b).
Proof.
  unfold override_dither_depth.
  destruct (Z.ltb_spec 0 d); split; intros; try lia; try split; reflexivity.
Qed.

(** X25: The target of a rendered frame, on the state [UpdateParams] leaves:
    each of the primaries, the transfer function and the average signal
    level is the one of the swapchain frame unless the option is set, and
    then it is the option; setting the transfer function also resets the
    light level to unknown.  A dither depth of zero or less leaves the bit
    encoding of the frame as it is; a positive one becomes the sample
    depth and keeps the bit shift. *)
Theorem target_follows_configuration img tgt :
  let sys := (UpdateParams w cfg sys0).1 in
  rendered (PictureRender g vd sys pic subpicture).1.2 = Some (img, tgt) ->
  exists frame,
    pl_swapchain_start_frame_ans g = Some frame
    /\ primaries (color tgt)
       = (if pl_target_prim cfg =? 0 then primaries (frame_color frame)
          else pl_target_prim cfg)
    /\ transfer (color tgt)
       = (if pl_target_trc cfg =? 0 then transfer (frame_color frame)
          else pl_target_trc cfg)
    /\ light (color tgt)
       = (if pl_target_trc cfg =? 0 then light (frame_color frame)
          else PL_COLOR_LIGHT_UNKNOWN)
    /\ sig_avg (color tgt)
       = (if Qle_bool (pl_target_avg cfg) 0 then sig_avg (frame_color frame)
          else pl_target_avg cfg)
    /\ (pl_dither_depth cfg <= 0 -> bits tgt = frame_bits frame)
    /\ (0 < pl_dither_depth cfg ->
        sample_depth (bits tgt) = pl_dither_depth cfg
        /\ bit_shift (bits tgt) = bit_shift (frame_bits frame)).
Proof.
  intros sys Hr.
  destruct (frame_path_rendered g vd sys pic subpicture _ img tgt
              (PictureRender_path g vd sys pic subpicture) Hr)
    as (frame & texs & filled & t1 & sys2 & tgt0 & t2 & post
        & Hf & Hu & Hc & Ha & _ & _ & _).
  destruct (composite_overlays_target g subpicture _ _ _ _ _ _ _ _ Hc)
    as (_ & Hco & Hb & _ & _).
  assert (color tgt = color tgt0 /\ bits tgt = bits tgt0) as [-> ->]
    by (unfold attach_lut in Ha; destruct (lut_mode sys2); inversion Ha;
        split; reflexivity).
  rewrite Hco, Hb. cbn [color bits frame_target target dither_depth set_plane_tex].
  destruct (UpdateParams_fields w cfg sys0) as (_ & _ & _ & _ & _ & _ & Ht & Hd & _).
  fold sys in Ht, Hd. rewrite Ht, Hd.
  exists frame. split; [exact Hf|].
  unfold override_color.
  cbn [primaries transfer light sig_avg].
  destruct (pl_target_prim cfg =? 0), (pl_target_trc cfg =? 0),
    (Qle_bool (pl_target_avg cfg) 0); cbn [primaries transfer light sig_avg];
    (do 4 (split; [reflexivity|])); apply override_dither_depth_fields.
Qed.

End Target_configuration.

(** ** Sample runs *)

Lemma override_dither_depth_divisible_witness :
  override_dither_depth 8 (mk_bits 10 10 0) = mk_bits 8 8 0.
Proof. apply (override_dither_depth_divisible 8 1 10); lia. Defined.

Lemma override_dither_depth_below_sample_witness :
  override_dither_depth 8 (mk_bits 16 12 4) = mk_bits 8 0 4.
Proof. apply (override_dither_depth_below_sample 8 12 16 4); lia. Defined.

Lemma reload_after_clear_is_skipped_witness :
  let sys1 :=
    (LoadCustomLUT Sample.libc_ok Sample.sys_loaded (Some EmptyString)).1.1 in
  LoadCustomLUT Sample.libc_ok sys1 (Some "a.cube") = (sys1, [], ret_same)
  /\ lut sys1 = None.
Proof.
  apply (reload_after_clear_is_skipped Sample.libc_ok Sample.libc_ok
           Sample.sys_loaded "a.cube"); [discriminate|reflexivity].
Defined.

Lemma repeated_load_is_skipped_witness :
  let s1 := (LoadCustomLUT Sample.libc_no_file Sample.sys (Some "a.cube")).1.1 in
  LoadCustomLUT Sample.libc_ok s1 (Some "a.cube") = (s1, [], ret_same).
Proof.
  refine (proj1 (repeated_load_is_skipped Sample.libc_no_file Sample.libc_ok
                   Sample.sys "a.cube" _ _)); [discriminate|reflexivity].
Defined.

Lemma Open_display_format_witness :
  (Open (Sample.gpu_ok false) Sample.libc_ok Sample.config_none Sample.vd
     (mk_fmt 0 8 4 640 480 ORIENT_NORMAL)).1.2
  = mk_fmt VLC_CODEC_RGBA 8 4 640 480 ORIENT_NORMAL.
Proof.
  refine (proj1 (Open_display_format (Sample.gpu_ok false) Sample.libc_ok
                   Sample.config_none Sample.vd
                   (mk_fmt 0 8 4 640 480 ORIENT_NORMAL) _)).
  reflexivity.
Defined.

Lemma flipped_placement_is_mirrored_witness :
  norm_rect
    (frame_place (Sample.with_place Sample.place_letterbox (Sample.gpu_ok true))
       Sample.vd (Sample.frame true))
  = mk_rect 0 140 1920 940.
Proof.
  refine (proj1 (proj2 (flipped_placement_is_mirrored
                          (Sample.with_place Sample.place_letterbox (Sample.gpu_ok true))
                          Sample.vd (Sample.frame true) _ _ _ _ _ _)));
    try reflexivity; vm_compute; try split; discriminate.
Defined.

Lemma unflipped_placement_is_kept_witness :
  norm_rect
    (frame_place (Sample.with_place Sample.place_letterbox (Sample.gpu_ok false))
       Sample.vd (Sample.frame false))
  = mk_rect 0 140 1920 940.
Proof.
  refine (proj1 (proj2 (proj2 (unflipped_placement_is_kept
                          (Sample.with_place Sample.place_letterbox (Sample.gpu_ok false))
                          Sample.vd (Sample.frame false) _ _ _ _ _))));
    try reflexivity; vm_compute; try split; discriminate.
Defined.

Lemma PictureRender_store_ok_witness :
  overlay_store_ok
    (PictureRender (Sample.gpu_ok false) Sample.vd Sample.sys Sample.pic
       (Some (Sample.regions 3))).1.1.
Proof.
  apply (PictureRender_store_ok (Sample.gpu_ok false) Sample.vd Sample.sys
           Sample.pic (Some (Sample.regions 3))).
  split; simpl; lia.
Defined.

Lemma composited_overlays_from_head_witness :
  let place := mk_place 0 0 1920 1080 in
  List.Forall (fun o => exists tex, o = overlay_of place false Sample.region0 tex)
    (tgt_overlays
       (composite_overlays (Sample.gpu_ok false) place false
          (Some [Sample.region0; Sample.region1]) Sample.sys
          (frame_target Sample.sys (Sample.frame false) place)).1.2).
Proof.
  intros place.
  assert (overlay_store_ok Sample.sys) as Hs by (split; simpl; lia).
  pose proof (composited_overlays_from_head (Sample.gpu_ok false) place false
                Sample.region0 [Sample.region1] Sample.sys
                (frame_target Sample.sys (Sample.frame false) place) Hs) as H.
  destruct (composite_overlays _ _ _ _ _ _) as [[[ok s2] tgt] t] eqn:E.
  assert (ok = true) as Hok by (vm_compute in E; congruence).
  exact (proj1 (proj2 (H Hok))).
Defined.

Lemma rendered_frame_description_witness :
  (fun r => length (planes r.1))
    <$> rendered (PictureRender (Sample.gpu_ok false) Sample.vd Sample.sys
                    Sample.pic_yuv None).1.2
  = Some 3%nat.
Proof.
  destruct (rendered (PictureRender (Sample.gpu_ok false) Sample.vd Sample.sys
                        Sample.pic_yuv None).1.2) as [[img tgt]|] eqn:Hr;
    [|vm_compute in Hr; discriminate Hr].
  simpl. f_equal.
  refine (proj1 (proj2 (proj2 (proj2
            (rendered_frame_description (Sample.gpu_ok false) Sample.vd
               Sample.sys Sample.pic_yuv None img tgt _ Hr))))).
  simpl. lia.
Defined.

Lemma overlays_composited_are_uploads_that_succeeded_witness :
  let t := (PictureRender (Sample.gpu_ok false) Sample.vd Sample.sys Sample.pic
              (Some (Sample.regions 2))).1.2 in
  (fun r => length (tgt_overlays r.2)) <$> rendered t
  = Some (count is_region_upload_ok t).
Proof.
  intros t. subst t.
  destruct (rendered (PictureRender (Sample.gpu_ok false) Sample.vd Sample.sys
                        Sample.pic (Some (Sample.regions 2))).1.2)
    as [[img tgt]|] eqn:Hr; [|vm_compute in Hr; discriminate Hr].
  simpl. f_equal.
  refine (proj1 (overlays_composited_are_uploads_that_succeeded
                   (Sample.gpu_ok false) Sample.vd Sample.sys Sample.pic
                   (Some (Sample.regions 2)) img tgt _ Hr)).
  split; simpl; lia.
Defined.

Lemma target_follows_configuration_witness :
  (fun r => (primaries (color r.2), sample_depth (bits r.2)))
    <$> rendered
          (PictureRender (Sample.gpu_ok false) Sample.vd
             (UpdateParams Sample.libc_ok (mk_config 10 9 0 0%Q LUT_DISABLED None None)
                Sample.sys).1
             Sample.pic None).1.2
  = Some (9, 10).
Proof.
  destruct (rendered _) as [[img tgt]|] eqn:Hr; [|vm_compute in Hr; discriminate Hr].
  destruct (target_follows_configuration (Sample.gpu_ok false) Sample.libc_ok
              (mk_config 10 9 0 0%Q LUT_DISABLED None None) Sample.vd Sample.sys
              Sample.pic None img tgt Hr)
    as (frame & Hf & Hp & _ & _ & _ & _ & Hd).
  destruct (Hd ltac:(simpl; lia)) as [Hs _].
  simpl. rewrite Hp, Hs. reflexivity.
Defined.

(** ** The loaders in a run of the program *)

Section Loaders_in_a_run.

Variable g : gpu.
Variable w : libc.
Variable cfg : config.
Variable vd : vout_display_t.
Variable fmt_in : video_format_t.







End Loaders_in_a_run.

(** ** Frames that fail before the dispatch *)


(** ** Descriptors of the regions after the first *)

(** C9: a subpicture of two regions, 20 lines high at vertical offset 40
    and 50 lines high at offset 900, on a surface of 1080 lines with every
    upload succeeding.  On a flipped surface, where the placement starts
    at line 1080, both descriptors handed to the renderer go from line
    1040 to line 1020: these are the corners of the first region,
    [1080 - 40] and [1080 - (40 + 20)]; the corners of the second region
    are [1080 - 900 = 180] and [1080 - (900 + 50) = 130].  On an unflipped
    surface both go from line 40 to line 60, the second region being at
    lines 900 to 950. *)
Theorem second_overlay_vertical_from_first_region :
  let regions := [Sample.region0; Sample.region1] in
  let corners (r : pl_image * pl_render_target) :=
    (fun o => (y0 (rect o), y1 (rect o))) <$> tgt_overlays r.2 in
  let flipped_run :=
    PictureRender (Sample.gpu_ok true) Sample.vd Sample.sys Sample.pic
      (Some regions) in
  let unflipped_run :=
    PictureRender (Sample.gpu_ok false) Sample.vd Sample.sys Sample.pic
      (Some regions) in
  let y := place_y (frame_place (Sample.gpu_ok true) Sample.vd (Sample.frame true)) in
  let y' := place_y (frame_place (Sample.gpu_ok false) Sample.vd (Sample.frame false)) in
  let off r := i_y r in
  let h r := i_visible_height (fmt r) in
  (y = 1080 /\ y' = 0)
  /\ (corners <$> rendered flipped_run.1.2 = Some [(1040, 1020); (1040, 1020)]
      /\ (y - off Sample.region0, y - (off Sample.region0 + h Sample.region0))
         = (1040, 1020)
      /\ (y - off Sample.region1, y - (off Sample.region1 + h Sample.region1))
         = (180, 130))
  /\ (corners <$> rendered unflipped_run.1.2 = Some [(40, 60); (40, 60)]
      /\ (y' + off Sample.region0, y' + (off Sample.region0 + h Sample.region0))
         = (40, 60)
      /\ (y' + off Sample.region1, y' + (off Sample.region1 + h Sample.region1))
         = (900, 950))
  /\ flipped_run.2 = false /\ unflipped_run.2 = false.
Proof. vm_compute. repeat split; reflexivity. Qed.

(** ** Growth of the overlay store *)

Section Overlay_growth.

Variable g : gpu.

(** What a growth leaves, read off its outcome. *)
Lemma grow_overlays_grown n s :
  let '(ok, s', t) := grow_overlays g n s in
  occurs is_realloc_failure t = negb ok
  /\ (ok = false -> num_overlays s' = 0%nat)
  /\ (ok = true ->
      ((n <= num_overlays s)%nat -> s' = s /\ t = [])
      /\ ((num_overlays s < n)%nat ->
          occurs is_realloc t = true
          /\ num_overlays s' = n
          /\ length (default [] (overlays s')) = n
          /\ length (default [] (overlay_tex s')) = n
          /\ forall j, (num_overlays s <= j < n)%nat ->
               default [] (overlay_tex s') !! j = Some None)).
Proof.
  unfold grow_overlays.
  destruct (Nat.ltb_spec (num_overlays s) n) as [Hlt|Hge].
  2:{ split; [reflexivity|]. split; [discriminate|]. intros _.
      split; [now split|]. intros H. lia. }
  unfold realloc.
  destruct (realloc_overlays_ok g), (realloc_overlay_tex_ok g); simpl;
    (split; [reflexivity|]); (split; [try discriminate; reflexivity|]);
    try discriminate.
  intros _. split; [intros H; lia|]. intros _.
  split; [reflexivity|]. split; [reflexivity|].
  assert (forall A (x : A) (l : list A),
             length (take n l ++ replicate (n - length l) x) = n) as Hlen
    by (intros A x l; rewrite length_app, length_take, length_replicate; lia).
  split; [apply Hlen|]. split; [rewrite clear_slots_length; apply Hlen|].
  intros j Hj. apply clear_slots_lookup; [exact Hj|]. rewrite Hlen. lia.
Qed.

(** A slot of the texture array that the region loop does not upload
    into is left as it was. *)
Lemma upload_regions_texs place flip r todo : forall i ovs texs j,
  let '(_, texs', _, t) := upload_regions g place flip r todo i ovs texs in
  (forall tex_in data k ok,
      ~ In (pl_upload_plane (OverlaySlot j) tex_in data k ok) t) ->
  texs' !! j = texs !! j.
Proof.
  induction todo as [|todo IH]; intros i ovs texs j;
    [simpl; intros _; reflexivity|].
  simpl.
  destruct (pl_upload_plane_ans g (OverlaySlot i) (mjoin (texs !! i))
              (p_picture r) 0) as [ok tex_out].
  destruct ok.
  - match goal with |- context [upload_regions g place flip r todo ?a ?b ?c] =>
      specialize (IH a b c j);
      destruct (upload_regions g place flip r todo a b c) as [[[ovs' texs'] n] t]
    end.
    intros Hno. rewrite IH.
    + apply list_lookup_insert_ne. intros ->. eapply Hno. left. reflexivity.
    + intros tex_in data k ok H. eapply Hno. right. exact H.
  - intros Hno. apply list_lookup_insert_ne. intros ->.
    eapply Hno. left. reflexivity.
Qed.

Lemma stored_length {A} (o : option (list A)) (l : list A) :
  length l = length (default [] o) ->
  length (default [] ((fun _ => l) <$> o)) = length (default [] o).
Proof. destruct o; simpl; intros H; [exact H|reflexivity]. Qed.

(** The overlay stage and the store. *)
Lemma composite_overlays_storage place flip subpicture s target ok s2 tgt t2 :
  overlay_store_ok s ->
  composite_overlays g place flip subpicture s target = (ok, s2, tgt, t2) ->
  occurs is_realloc_failure t2 = negb ok
  /\ (ok = false -> num_overlays s2 = 0%nat)
  /\ (ok = true ->
      (num_overlays s <= num_overlays s2)%nat
      /\ overlay_store_ok s2
      /\ (forall regions, subpicture = Some regions ->
            (length regions <= num_overlays s2)%nat)
      /\ (occurs is_realloc t2 = true ->
          exists regions, subpicture = Some regions
            /\ (num_overlays s < length regions)%nat
            /\ num_overlays s2 = length regions
            /\ length (default [] (overlays s2)) = length regions
            /\ length (default [] (overlay_tex s2)) = length regions)
      /\ (occurs is_realloc t2 = false -> num_overlays s2 = num_overlays s)
      /\ (forall j tex_in data k ok',
            In (pl_upload_plane (OverlaySlot j) tex_in data k ok') t2 ->
            (num_overlays s <= j)%nat -> tex_in = None)
      /\ (forall j, (num_overlays s <= j < num_overlays s2)%nat ->
            (forall tex_in data k ok',
                ~ In (pl_upload_plane (OverlaySlot j) tex_in data k ok') t2) ->
            default [] (overlay_tex s2) !! j = Some None)).
Proof.
  intros Hstore. unfold composite_overlays.
  destruct subpicture as [regions|].
  2:{ intros H; inversion H; subst. split; [reflexivity|].
      split; [discriminate|]. intros _.
      repeat split; try lia; try discriminate; try apply Hstore.
      intros j tex_in data k ok' []. }
  pose proof (grow_overlays_grown (length regions) s) as Hg.
  pose proof (grow_overlays_store_ok g (length regions) s Hstore) as Hs1.
  pose proof (grow_overlays_calls g (length regions) s) as Hcalls.
  destruct (grow_overlays g (length regions) s) as [[ok1 s1] t1].
  cbn [fst snd] in Hs1.
  destruct Hg as (Hfail & Hzero & Hgrown).
  destruct Hcalls as (Hre & _ & _ & Hall).
  assert (forall j tex_in data k ok',
             ~ In (pl_upload_plane (OverlaySlot j) tex_in data k ok') t1) as Hno1.
  { intros j tex_in data k ok' Hin.
    apply (proj1 (List.Forall_forall _ _) Hall) in Hin. discriminate Hin. }
  destruct ok1.
  2:{ intros H; inversion H; subst.
      split; [exact Hfail|]. split; [exact Hzero|]. discriminate. }
  destruct (Hgrown eq_refl) as [Hsame Hnew]. clear Hgrown Hzero.
  assert ((length regions <= num_overlays s1)%nat
          /\ (num_overlays s <= num_overlays s1)%nat) as [Hroom Hmono].
  { destruct (Nat.le_gt_cases (length regions) (num_overlays s)) as [Hle|Hgt].
    - destruct (Hsame Hle) as [-> _]. lia.
    - destruct (Hnew Hgt) as (_ & -> & _). lia. }
  assert (exists ovs texs n t2',
             match regions with
             | [] => (default [] (overlays s1), default [] (overlay_tex s1),
                      length regions, [])
             | r :: _ =>
                 upload_regions g place flip r (length regions) 0
                   (default [] (overlays s1)) (default [] (overlay_tex s1))
             end = (ovs, texs, n, t2')
             /\ length ovs = length (default [] (overlays s1))
             /\ length texs = length (default [] (overlay_tex s1))
             /\ occurs is_realloc t2' = false
             /\ occurs is_realloc_failure t2' = false
             /\ (forall j tex_in data k ok',
                   In (pl_upload_plane (OverlaySlot j) tex_in data k ok') t2' ->
                   (j < length regions)%nat
                   /\ tex_in = mjoin (default [] (overlay_tex s1) !! j))
             /\ (forall j,
                   (forall tex_in data k ok',
                       ~ In (pl_upload_plane (OverlaySlot j) tex_in data k ok') t2') ->
                   texs !! j = default [] (overlay_tex s1) !! j))
    as (ovs & texs & n & t2' & -> & Hlo & Hlt & Hre2 & Hrf2 & Hup & Hkeep).
  { destruct regions as [|r regions].
    - eexists _, _, _, _. split; [reflexivity|].
      repeat split; try reflexivity; intros; contradiction.
    - pose proof (upload_regions_spec g place flip r (length (r :: regions)) 0
                    (default [] (overlays s1)) (default [] (overlay_tex s1)))
        as Hspec.
      pose proof (fun j =>
                    upload_regions_texs place flip r (length (r :: regions)) 0
                      (default [] (overlays s1)) (default [] (overlay_tex s1)) j)
        as Htex.
      destruct (upload_regions g place flip r _ 0 _ _) as [[[ovs texs] n] t2'].
      destruct Hspec as (_ & Hlo & Hlt & _ & _ & Hcalls & _).
      exists ovs, texs, n, t2'. split; [reflexivity|].
      split; [exact Hlo|]. split; [exact Hlt|].
      assert (forall p, (forall e, region_call (default [] (overlay_tex s1)) r 0
                                     (0 + length (r :: regions)) e -> p e = false) ->
                        occurs p t2' = false) as Hnone
        by (intros p Hp; exact (occurs_none _ p t2' Hp Hcalls)).
      split; [apply Hnone; intros e; destruct e; simpl; tauto|].
      split; [apply Hnone; intros e; destruct e; simpl; tauto|].
      split; [|exact Htex].
      intros j tex_in data k ok' Hin.
      apply (proj1 (List.Forall_forall _ _) Hcalls) in Hin. simpl in Hin.
      destruct k; [|contradiction]. destruct Hin as (Hj & -> & _).
      split; [simpl; lia|reflexivity]. }
  intros H; inversion H; subst ok s2 tgt t2. clear H.
  cbn [num_overlays overlays overlay_tex set_overlay_store].
  rewrite !occurs_app, Hfail, Hrf2, Hre2, !orb_false_r.
  split; [reflexivity|]. split; [discriminate|]. intros _.
  split; [exact Hmono|]. split.
  { destruct Hs1 as [Ho Ht]. split; cbn [num_overlays overlays overlay_tex
                                          set_overlay_store].
    - rewrite stored_length by exact Hlo. exact Ho.
    - rewrite stored_length by exact Hlt. exact Ht. }
  split; [intros regions' [= <-]; exact Hroom|]. split.
  { intros Hocc. specialize (Hre Hocc). destruct (Hnew Hre) as (_ & Hn & Hl1 & Hl2 & _).
    exists regions. split; [reflexivity|]. split; [exact Hre|]. split; [exact Hn|].
    rewrite !stored_length by assumption. now split. }
  split.
  { intros Hocc. destruct (Nat.le_gt_cases (length regions) (num_overlays s))
      as [Hle|Hgt].
    - destruct (Hsame Hle) as [-> _]. reflexivity.
    - destruct (Hnew Hgt) as (Hocc' & _). congruence. }
  split.
  { intros j tex_in data k ok' Hin Hj.
    apply in_app_iff in Hin. destruct Hin as [Hin|Hin]; [now apply Hno1 in Hin|].
    destruct (Hup _ _ _ _ _ Hin) as [Hjr ->].
    destruct (Nat.le_gt_cases (length regions) (num_overlays s)) as [Hle|Hgt];
      [lia|].
    destruct (Hnew Hgt) as (_ & _ & _ & _ & Hnull).
    rewrite Hnull by lia. reflexivity. }
  intros j Hj Hno.
  destruct (Nat.le_gt_cases (length regions) (num_overlays s)) as [Hle|Hgt].
  { destruct (Hsame Hle) as [-> _]. lia. }
  destruct (Hnew Hgt) as (_ & Hn & _ & _ & Hnull).
  assert (default [] (overlay_tex s1) !! j = Some None) as Hj1
    by (apply Hnull; lia).
  destruct (overlay_tex s1) as [l1|]; [|discriminate Hj1].
  cbn [fmap option_fmap option_map default] in *.
  rewrite Hkeep; [exact Hj1|].
  intros tex_in data k ok' Hin. eapply Hno. apply in_app_iff. right. exact Hin.
Qed.

(** Settles [Q e -> p e = false] by cases on the call. *)
Ltac stage_cases :=
  let e := fresh "e" in
  intros e; destruct e; simpl; try tauto;
  repeat match goal with
         | |- context [match ?x with _ => _ end] => destruct x; simpl; try tauto
         end;
  try (intros; reflexivity).

(** What the overlay stage contributes to a frame: nothing when the frame
    is left before it, its reallocations and uploads otherwise. *)
Lemma frame_overlay_stage vd sys pic subpicture res :
  frame_path g vd sys pic subpicture res ->
  let '(sys', t, failed) := res in
  (overlays sys' = overlays sys /\ overlay_tex sys' = overlay_tex sys
   /\ num_overlays sys' = num_overlays sys
   /\ occurs is_realloc t = false /\ occurs is_realloc_failure t = false
   /\ occurs is_overlay_upload t = false /\ occurs is_render t = false)
  \/ (exists frame texs place target ok tgt t2,
        composite_overlays g place (flipped frame) subpicture
          (set_plane_tex texs sys) target = (ok, sys', tgt, t2)
        /\ occurs is_realloc t = occurs is_realloc t2
        /\ occurs is_realloc_failure t = occurs is_realloc_failure t2
        /\ (forall e, is_overlay_upload e = true -> (In e t <-> In e t2))
        /\ (ok = false -> failed = true)
        /\ occurs is_render t = ok).
Proof.
  intros [Hm | Hm Hf | frame texs filled t1 Hm Hf Hu
         | frame texs filled t1 sys2 tgt t2 Hm Hf Hu Hc
         | frame texs filled t1 sys2 tgt t2 img tgt' Hm Hf Hu Hc Ha].
  - left. repeat split.
  - left. repeat split.
  - left. split; [reflexivity|]. split; [reflexivity|]. split; [reflexivity|].
    rewrite !occurs_app.
    rewrite !(plane_stage_occurs g pic _ _ _ _ _ _ _ _ _ _ Hu) by stage_cases.
    rewrite !done_label_occurs by reflexivity. repeat split.
  - right. exists frame, texs, (frame_place g vd frame),
      (frame_target (set_plane_tex texs sys) frame (frame_place g vd frame)),
      false, tgt, t2.
    split; [exact Hc|].
    rewrite !occurs_app.
    rewrite !(plane_stage_occurs g pic _ _ _ _ _ _ _ _ _ _ Hu) by stage_cases.
    rewrite (overlay_stage_occurs g subpicture is_render _ _ _ _ _ _ _ _ Hc)
      by stage_cases.
    rewrite !done_label_occurs by reflexivity.
    cbn [occurs existsb is_realloc is_realloc_failure is_render orb].
    rewrite !orb_false_r.
    split; [reflexivity|]. split; [reflexivity|]. split; [|now split].
    intros e He. rewrite !in_app_iff.
    pose proof (not_In_of_occurs is_overlay_upload e
                  [vlc_placebo_MakeCurrent true; pl_swapchain_start_frame true]
                  He eq_refl).
    pose proof (not_In_of_occurs is_overlay_upload e t1 He
                  (plane_stage_occurs g pic is_overlay_upload _ _ _ _ _ _ _ _ _ Hu
                     ltac:(stage_cases))).
    pose proof (not_In_of_occurs is_overlay_upload e (done_label g true) He
                  (done_label_occurs g _ _ eq_refl (fun _ => eq_refl)
                     (fun _ => eq_refl) eq_refl)).
    tauto.
  - right. exists frame, texs, (frame_place g vd frame),
      (frame_target (set_plane_tex texs sys) frame (frame_place g vd frame)),
      true, tgt, t2.
    split; [exact Hc|].
    assert (forall p, p (pl_tex_clear transparent_black) = false ->
                      (forall i t' ok, p (pl_render_image i t' ok) = false) ->
                      (forall m, p (msg_Err m) = false) ->
                      occurs p (clear_if_partial frame (frame_place g vd frame)
                                ++ pl_render_image img tgt' (pl_render_image_ok g img tgt')
                                   :: (if pl_render_image_ok g img tgt' then []
                                       else [msg_Err "Failed rendering frame!"]))
                      = false) as Hrest.
    { intros p H1 H2 H3. rewrite occurs_app, occurs_cons, H2.
      rewrite clear_if_partial_occurs by exact H1.
      destruct (pl_render_image_ok g img tgt'); simpl; rewrite ?H3; reflexivity. }
    rewrite !occurs_app, !occurs_cons.
    rewrite !(plane_stage_occurs g pic _ _ _ _ _ _ _ _ _ _ Hu) by stage_cases.
    rewrite (overlay_stage_occurs g subpicture is_render _ _ _ _ _ _ _ _ Hc)
      by stage_cases.
    rewrite !done_label_occurs by reflexivity.
    rewrite !clear_if_partial_occurs by reflexivity.
    cbn [occurs existsb is_realloc is_realloc_failure is_render orb].
    assert (forall p, (forall m, p (msg_Err m) = false) ->
                      occurs p (if pl_render_image_ok g img tgt' then []
                                else [msg_Err "Failed rendering frame!"]) = false)
      as Hmsg
      by (intros p H3; destruct (pl_render_image_ok g img tgt'); simpl;
          rewrite ?H3; reflexivity).
    rewrite !Hmsg by reflexivity. rewrite !orb_false_r, ?orb_true_r.
    split; [reflexivity|]. split; [reflexivity|]. split; [|split; [discriminate|reflexivity]].
    intros e He.
    set (rest := clear_if_partial frame (frame_place g vd frame)
                 ++ pl_render_image img tgt' (pl_render_image_ok g img tgt')
                    :: (if pl_render_image_ok g img tgt' then []
                        else [msg_Err "Failed rendering frame!"])) in *.
    rewrite !in_app_iff.
    pose proof (not_In_of_occurs is_overlay_upload e
                  [vlc_placebo_MakeCurrent true; pl_swapchain_start_frame true]
                  He eq_refl).
    pose proof (not_In_of_occurs is_overlay_upload e t1 He
                  (plane_stage_occurs g pic is_overlay_upload _ _ _ _ _ _ _ _ _ Hu
                     ltac:(stage_cases))).
    pose proof (not_In_of_occurs is_overlay_upload e rest He
                  (Hrest _ eq_refl (fun _ _ _ => eq_refl) (fun _ => eq_refl))).
    pose proof (not_In_of_occurs is_overlay_upload e (done_label g _) He
                  (done_label_occurs g _ (negb (pl_render_image_ok g img tgt'))
                     eq_refl (fun _ => eq_refl) (fun _ => eq_refl) eq_refl)).
    tauto.
Qed.

(** The overlay store across one frame. *)
Lemma frame_storage vd sys pic subpicture :
  overlay_store_ok sys ->
  let '(sys', t, failed) := PictureRender g vd sys pic subpicture in
  (occurs is_realloc_failure t = true ->
   num_overlays sys' = 0%nat /\ failed = true)
  /\ (occurs is_realloc_failure t = false ->
      (num_overlays sys <= num_overlays sys')%nat
      /\ overlay_store_ok sys'
      /\ (occurs is_realloc t = true ->
          exists regions, subpicture = Some regions
            /\ (num_overlays sys < length regions)%nat
            /\ num_overlays sys' = length regions
            /\ length (default [] (overlays sys')) = length regions
            /\ length (default [] (overlay_tex sys')) = length regions)
      /\ (occurs is_realloc t = false -> num_overlays sys' = num_overlays sys)
      /\ (forall j tex_in data k ok,
            In (pl_upload_plane (OverlaySlot j) tex_in data k ok) t ->
            (num_overlays sys <= j)%nat -> tex_in = None)
      /\ (forall j, (num_overlays sys <= j < num_overlays sys')%nat ->
            (forall tex_in data k ok,
                ~ In (pl_upload_plane (OverlaySlot j) tex_in data k ok) t) ->
            default [] (overlay_tex sys') !! j = Some None)
      /\ (occurs is_render t = true ->
          forall regions, subpicture = Some regions ->
                          (length regions <= num_overlays sys')%nat)).
Proof.
  intros Hstore.
  pose proof (frame_overlay_stage vd sys pic subpicture _
                (PictureRender_path g vd sys pic subpicture)) as Hp.
  destruct (PictureRender g vd sys pic subpicture) as [[sys' t] failed].
  destruct Hp as [(Ho & Ht & Hn & Hre & Hrf & Hup & Hrender)
                 | (frame & texs & place & target & ok & tgt & t2
                    & Hc & Hre & Hrf & Hin & Hfail & Hrender)].
  - rewrite Hrf, Hre, Hrender, Hn. split; [discriminate|]. intros _.
    split; [lia|]. split.
    { destruct Hstore as [H1 H2]. unfold overlay_store_ok.
      rewrite Ho, Ht, Hn. now split. }
    split; [discriminate|]. split; [reflexivity|]. split.
    { intros j tex_in data k ok H _. exfalso.
      exact (not_In_of_occurs is_overlay_upload
               (pl_upload_plane (OverlaySlot j) tex_in data k ok) t eq_refl Hup H). }
    split; [intros j Hj; lia|discriminate].
  - assert (overlay_store_ok (set_plane_tex texs sys)) as Hstore' by exact Hstore.
    destruct (composite_overlays_storage _ _ _ _ _ _ _ _ _ Hstore' Hc)
      as (Hf2 & Hzero & Hok).
    rewrite Hrf, Hf2, Hre, Hrender. split.
    + intros H. apply negb_true_iff in H. split; [apply Hzero|apply Hfail]; exact H.
    + intros H. apply negb_false_iff in H.
      destruct (Hok H) as (A & B & G & C & D & E & F).
      cbn [num_overlays set_plane_tex] in *.
      split; [exact A|]. split; [exact B|]. split; [exact C|]. split; [exact D|].
      split.
      { intros j tex_in data k ok' Hi Hj. apply (E j tex_in data k ok'); [|exact Hj].
        apply Hin; [reflexivity|exact Hi]. }
      split.
      { intros j Hj Hno. apply F; [exact Hj|].
        intros tex_in data k ok' Hi. apply (Hno tex_in data k ok').
        apply Hin; [reflexivity|exact Hi]. }
      intros _. exact G.
Qed.

(** C8, as amended.  Of one frame, on a store whose arrays have room for
    its capacity: when a reallocation of the frame fails the capacity is
    reset to 0 and the frame fails; otherwise the capacity does not go
    down and the arrays keep room for it; the arrays are reallocated only
    for a region count above the capacity, and then the capacity and the
    length of both arrays become that count; a texture slot added by the
    growth is null when an upload is first handed it, and is left null if
    no upload of the frame writes it.  Of three frames with 3, 1 and 5
    regions that are rendered: the capacity is at least 3, 3 and 5, and
    both arrays end with at least 5 slots. *)
Theorem overlay_storage_grows_unless_alloc_fails vd sys pic subpicture :
  overlay_store_ok sys ->
  (let '(sys', t, failed) := PictureRender g vd sys pic subpicture in
   (occurs is_realloc_failure t = true ->
    num_overlays sys' = 0%nat /\ failed = true)
   /\ (occurs is_realloc_failure t = false ->
       (num_overlays sys <= num_overlays sys')%nat
       /\ (num_overlays sys' <= length (default [] (overlays sys')))%nat
       /\ (num_overlays sys' <= length (default [] (overlay_tex sys')))%nat
       /\ (occurs is_realloc t = true ->
           exists regions, subpicture = Some regions
             /\ (num_overlays sys < length regions)%nat
             /\ num_overlays sys' = length regions
             /\ length (default [] (overlays sys')) = length regions
             /\ length (default [] (overlay_tex sys')) = length regions)
       /\ (occurs is_realloc t = false -> num_overlays sys' = num_overlays sys)
       /\ (forall j tex_in data k ok,
             In (pl_upload_plane (OverlaySlot j) tex_in data k ok) t ->
             (num_overlays sys <= j)%nat -> tex_in = None)
       /\ (forall j, (num_overlays sys <= j < num_overlays sys')%nat ->
             (forall tex_in data k ok,
                 ~ In (pl_upload_plane (OverlaySlot j) tex_in data k ok) t) ->
             default [] (overlay_tex sys') !! j = Some None)))
  /\ (forall rs3 rs1 rs5,
        length rs3 = 3%nat -> length rs1 = 1%nat -> length rs5 = 5%nat ->
        let frame s rs := PictureRender g vd s pic (Some rs) in
        let s1 := (frame sys rs3).1.1 in
        let s2 := (frame s1 rs1).1.1 in
        let s3 := (frame s2 rs5).1.1 in
        occurs is_render (frame sys rs3).1.2 = true ->
        occurs is_render (frame s1 rs1).1.2 = true ->
        occurs is_render (frame s2 rs5).1.2 = true ->
        (3 <= num_overlays s1)%nat /\ (3 <= num_overlays s2)%nat
        /\ (5 <= num_overlays s3)%nat
        /\ (5 <= length (default [] (overlays s3)))%nat
        /\ (5 <= length (default [] (overlay_tex s3)))%nat).
Proof.
  intros Hstore. split.
  - pose proof (frame_storage vd sys pic subpicture Hstore) as H.
    destruct (PictureRender g vd sys pic subpicture) as [[sys' t] failed].
    destruct H as [H1 H2]. split; [exact H1|].
    intros Hrf. destruct (H2 Hrf) as (A & [B1 B2] & C & D & E & F & _).
    repeat split; assumption.
  - intros rs3 rs1 rs5 L3 L1 L5 frame s1 s2 s3 R1 R2 R3.
    assert (forall s rs,
               overlay_store_ok s ->
               occurs is_render (frame s rs).1.2 = true ->
               overlay_store_ok (frame s rs).1.1
               /\ (num_overlays s <= num_overlays (frame s rs).1.1)%nat
               /\ (length rs <= num_overlays (frame s rs).1.1)%nat) as Hstep.
    { intros s rs Hs Hr. subst frame. cbv beta in *.
      pose proof (frame_storage vd s pic (Some rs) Hs) as H.
      pose proof (frame_overlay_stage vd s pic (Some rs) _
                    (PictureRender_path g vd s pic (Some rs))) as Hp.
      destruct (PictureRender g vd s pic (Some rs)) as [[s' t] failed].
      cbn [fst snd] in *. destruct H as [H1 H2].
      destruct (occurs is_realloc_failure t) eqn:Hrf.
      - exfalso.
        destruct Hp as [(_ & _ & _ & _ & _ & _ & Hn) | (frame' & texs & place
                          & target & ok & tgt & t2 & Hc & _ & Hrf2 & _ & _ & Hok)];
          [congruence|].
        assert (overlay_store_ok (set_plane_tex texs s)) as Hs' by exact Hs.
        destruct (composite_overlays_storage _ _ _ _ _ _ _ _ _ Hs' Hc)
          as (Hf2 & _ & _).
        rewrite Hr in Hok. subst ok. rewrite Hf2 in Hrf2. discriminate Hrf2.
      - destruct (H2 eq_refl) as (A & B & _ & _ & _ & _ & G).
        split; [exact B|]. split; [exact A|]. now apply G. }
    destruct (Hstep sys rs3 Hstore R1) as (S1 & _ & N1). fold s1 in S1, N1.
    destruct (Hstep s1 rs1 S1 R2) as (S2 & M2 & _). fold s2 in S2, M2.
    destruct (Hstep s2 rs5 S2 R3) as ([S3a S3b] & _ & N3). fold s3 in S3a, S3b, N3.
    repeat split; lia.
Qed.

End Overlay_growth.

(** ** Sample runs of the loaders, the overlay store and the LUT *)



Lemma overlay_storage_grows_unless_alloc_fails_witness :
  (5 <= length
          (default []
             (overlay_tex
                (PictureRender (Sample.gpu_ok false) Sample.vd
                   (PictureRender (Sample.gpu_ok false) Sample.vd
                      (PictureRender (Sample.gpu_ok false) Sample.vd Sample.sys
                         Sample.pic (Some (Sample.regions 3))).1.1
                      Sample.pic (Some (Sample.regions 1))).1.1
                   Sample.pic (Some (Sample.regions 5))).1.1)))%nat.
Proof.
  destruct (overlay_storage_grows_unless_alloc_fails (Sample.gpu_ok false)
              Sample.vd Sample.sys Sample.pic None ltac:(split; simpl; lia))
    as [_ H].
  apply (H (Sample.regions 3) (Sample.regions 1) (Sample.regions 5)
           eq_refl eq_refl eq_refl); vm_compute; reflexivity.
Defined.

Lemma lut_attached_by_mode_witness :
  (fun r => (img_lut r.1, img_lut_type r.1, tgt_lut r.2))
    <$> rendered
          (PictureRender (Sample.gpu_ok false) Sample.vd
             (UpdateParams Sample.libc_ok
                (mk_config 0 0 0 0%Q LUT_DECODING (Some "a.cube") None)
                Sample.sys).1
             Sample.pic None).1.2
  = Some (lut (UpdateParams Sample.libc_ok
                 (mk_config 0 0 0 0%Q LUT_DECODING (Some "a.cube") None)
                 Sample.sys).1,
          PL_LUT_CONVERSION, None).
Proof.
  destruct (rendered _) as [[img tgt]|] eqn:Hr; [|vm_compute in Hr; discriminate Hr].
  destruct (lut (UpdateParams _ _ _).1) as [l|] eqn:Hl;
    [|vm_compute in Hl; discriminate Hl].
  pose proof (lut_attached_by_mode (Sample.gpu_ok false) Sample.vd _ Sample.pic
                None l img tgt Hl Hr) as H.
  change (lut_mode _) with LUT_DECODING in H.
  inversion H as [[A B C D]]. reflexivity.
Defined.
